(** * DevFlow: worktrees, merges, cleanup and the terminal UI

    A shallow embedding of [src/devflow.py] and [src/wt_commands.py]:
    the [WorktreeManager] with its merge, cleanup and batch protocol,
    the [MCPServerManager], the tree and the keys of [DevFlowTUI], the
    three commands, and the classes that stand in for [rich].  The merge
    path is given twice: with a console whose [print] takes every text,
    and with the console of rich, which raises on a text it cannot read
    as markup.

    The program drives git through [subprocess.run], asks the user through
    [Confirm.ask] and [Prompt.ask] and reports through [console.print].
    None of these is part of the program, so they are modelled as an
    environment that answers each request from the history of the
    interaction so far; the program itself is a function from the history
    before a call to a result and the history after it.  Every property
    below is a property of those histories: which commands were issued, in
    which order, with which answers, and what was returned. *)

From Stdlib Require Import String Ascii List Bool Arith ZArith Lia DecimalString.
Import ListNotations.
Open Scope string_scope.

(* ================================================================== *)
(** * Python strings *)
(* ================================================================== *)

(** Python [str] values are modelled as [string]; the text exchanged with
    git is taken to be ASCII, and lengths count bytes. *)
Module PyStr.

Definition nl : ascii := "010"%char.
Definition slash : ascii := "/"%char.
Definition space : ascii := " "%char.

(** [s.startswith(p)] *)
Definition startswith (p s : string) : bool := String.prefix p s.

(** [sub in s] *)
Fixpoint contains (sub s : string) : bool :=
  String.prefix sub s ||
  match s with
  | EmptyString => false
  | String _ t => contains sub t
  end.

(** [c.isspace()] on ASCII: tab, line feed, vertical tab, form feed,
    carriage return, the four separators 28..31 and the blank. *)
Definition is_space (c : ascii) : bool :=
  let n := nat_of_ascii c in
  (((9 <=? n) && (n <=? 13)) || ((28 <=? n) && (n <=? 32)))%nat.

Fixpoint lstrip (s : string) : string :=
  match s with
  | EmptyString => EmptyString
  | String c t => if is_space c then lstrip t else s
  end.

Fixpoint rstrip (s : string) : string :=
  match s with
  | EmptyString => EmptyString
  | String c t =>
      match rstrip t with
      | EmptyString => if is_space c then EmptyString else String c EmptyString
      | t' => String c t'
      end
  end.

(** [s.strip()] *)
Definition strip (s : string) : string := rstrip (lstrip s).

(** [s.split(sep)] for a one-character separator: never the empty list. *)
Fixpoint split (sep : ascii) (s : string) : list string :=
  match s with
  | EmptyString => [EmptyString]
  | String c t =>
      if Ascii.eqb c sep then EmptyString :: split sep t
      else match split sep t with
           | [] => [String c EmptyString]
           | h :: r => String c h :: r
           end
  end.

(** [s.split(sep, 1)]: the text before the first separator and, when there
    is one, the text after it. *)
Fixpoint split1 (sep : ascii) (s : string) : string * option string :=
  match s with
  | EmptyString => (EmptyString, None)
  | String c t =>
      if Ascii.eqb c sep then (EmptyString, Some t)
      else let '(h, r) := split1 sep t in (String c h, r)
  end.

(** [s.replace(old, new)]: non-overlapping occurrences, left to right.
    [skip] counts the characters of an occurrence still to be dropped. *)
Fixpoint replace_from (old new : string) (skip : nat) (s : string) : string :=
  match s with
  | EmptyString => EmptyString
  | String c t =>
      match skip with
      | S k => replace_from old new k t
      | O =>
          if String.prefix old s
          then new ++ replace_from old new (String.length old - 1) t
          else String c (replace_from old new 0 t)
      end
  end.

Fixpoint interleave (new s : string) : string :=
  match s with
  | EmptyString => new
  | String c t => new ++ String c (interleave new t)
  end.

Definition replace (old new s : string) : string :=
  match old with
  | EmptyString => interleave new s
  | _ => replace_from old new 0 s
  end.

Definition lower_char (c : ascii) : ascii :=
  let n := nat_of_ascii c in
  if ((65 <=? n) && (n <=? 90))%nat then ascii_of_nat (n + 32) else c.

(** [s.lower()] *)
Fixpoint lower (s : string) : string :=
  match s with
  | EmptyString => EmptyString
  | String c t => String (lower_char c) (lower t)
  end.

(** [s[:n]] and [s[n:]] *)
Definition take (n : nat) (s : string) : string := String.substring 0 n s.

Fixpoint drop (n : nat) (s : string) : string :=
  match n, s with
  | O, _ => s
  | S k, EmptyString => EmptyString
  | S k, String _ t => drop k t
  end.

(** [sep.join(l)] *)
Fixpoint join (sep : string) (l : list string) : string :=
  match l with
  | [] => EmptyString
  | [x] => x
  | x :: r => x ++ sep ++ join sep r
  end.

Definition digit_val (c : ascii) : option Z :=
  let n := nat_of_ascii c in
  if ((48 <=? n) && (n <=? 57))%nat then Some (Z.of_nat (n - 48)) else None.

(** Decimal digits with single underscores allowed between digits.
    [after_digit] tells whether the previous character was a digit. *)
Fixpoint int_digits (acc : Z) (after_digit : bool) (s : string) : option Z :=
  match s with
  | EmptyString => if after_digit then Some acc else None
  | String c t =>
      match digit_val c with
      | Some d => int_digits (10 * acc + d) true t
      | None =>
          if Ascii.eqb c "_" && after_digit
          then match t with
               | EmptyString => None
               | String c' _ =>
                   match digit_val c' with
                   | Some _ => int_digits acc false t
                   | None => None
                   end
               end
          else None
      end
  end.

(** [int(s)]: surrounding blanks, an optional sign, then the digits;
    [None] is Python's [ValueError]. *)
Definition int (s : string) : option Z :=
  match strip s with
  | String "+" t => int_digits 0 false t
  | String "-" t => option_map Z.opp (int_digits 0 false t)
  | t => int_digits 0 false t
  end.

(** [str(n)] for a length and for an integer *)
Definition of_nat (n : nat) : string := NilEmpty.string_of_uint (Nat.to_uint n).
Definition of_Z (z : Z) : string := NilZero.string_of_int (Z.to_int z).

End PyStr.

(* ================================================================== *)
(** * pathlib paths (POSIX flavour) *)
(* ================================================================== *)

Module PyPath.

(** A [PurePosixPath]: the root ([""], ["/"] or ["//"]) and the
    components, without empty and ["."] components. *)
Record Path := mkPath { root : string; parts : list string }.

Definition keep_part (p : string) : bool :=
  negb (String.eqb p "") && negb (String.eqb p ".").

Definition root_of (s : string) : string :=
  if String.prefix "///" s then "/"
  else if String.prefix "//" s then "//"
  else if String.prefix "/" s then "/"
  else "".

(** [Path(s)] *)
Definition of_string (s : string) : Path :=
  mkPath (root_of s) (filter keep_part (PyStr.split PyStr.slash s)).

(** [p.name] *)
Definition name (p : Path) : string := last (parts p) "".

(** [p.parent]: the anchor is its own parent. *)
Definition parent (p : Path) : Path := mkPath (root p) (removelast (parts p)).

(** [p / seg] for a single relative segment *)
Definition child (p : Path) (seg : string) : Path := mkPath (root p) (parts p ++ [seg]).

(** [p == q] *)
Definition eqb (p q : Path) : bool :=
  String.eqb (root p) (root q) &&
  (if list_eq_dec string_dec (parts p) (parts q) then true else false).

(** [str(p)] *)
Definition to_string (p : Path) : string :=
  match root p, parts p with
  | EmptyString, [] => "."
  | r, ps => r ++ PyStr.join "/" ps
  end.

(** [p.stem] computed from the file name: the name without its last
    suffix; a leading or a trailing dot starts no suffix. *)
Fixpoint rfind_dot (s : string) (i : nat) (found : option nat) : option nat :=
  match s with
  | EmptyString => found
  | String c t => rfind_dot t (S i) (if Ascii.eqb c "." then Some i else found)
  end.

Definition stem_of_name (n : string) : string :=
  match rfind_dot n 0 None with
  | Some i =>
      if ((0 <? i) && (i <? String.length n - 1))%nat then PyStr.take i n else n
  | None => n
  end.

End PyPath.

(* ================================================================== *)
(** * The console without rich *)
(* ================================================================== *)

(** The classes that stand in for [rich] when it cannot be imported.
    What the user types is an argument: the line that [input] returns. *)
Module Fallback.

(** [Console.print] without rich: [re.sub(r'\[.*?\]', '', text)].
    [closing t] is the number of characters of [t] before the first
    closing bracket, when no line feed comes before it: the dot of the
    pattern matches every character but the line feed, and the lazy star
    stops at the first closing bracket. *)
Fixpoint closing (s : string) : option nat :=
  match s with
  | EmptyString => None
  | String c t =>
      if Ascii.eqb c "]" then Some 0
      else if Ascii.eqb c PyStr.nl then None
      else option_map S (closing t)
  end.

(** The matches are removed from left to right; [skip] counts the
    characters of a match still to be dropped. *)
Fixpoint strip_from (skip : nat) (s : string) : string :=
  match s with
  | EmptyString => EmptyString
  | String c t =>
      match skip with
      | S k => strip_from k t
      | O =>
          if Ascii.eqb c "[" then
            match closing t with
            | Some n => strip_from (S n) t
            | None => String c (strip_from 0 t)
            end
          else String c (strip_from 0 t)
      end
  end.

Definition strip_markup (text : string) : string := strip_from 0 text.

(** [Prompt.ask(question, default)] without rich: the text shown, and the
    value returned for the line [response] read by [input]. *)
Definition prompt_text (question : string) (default : option string) : string :=
  question
  ++ match default with
     | Some (String c t) => " [" ++ String c t ++ "]"
     | _ => ""
     end
  ++ ": ".

Definition prompt_answer (response : string) (default : option string)
  : option string :=
  match PyStr.strip response with
  | EmptyString => default
  | r => Some r
  end.

(** [Confirm.ask(question, default)] without rich. *)
Definition confirm_text (question : string) (default : bool) : string :=
  question ++ " [" ++ (if default then "Y/n" else "y/N") ++ "]: ".

Definition confirm_answer (response : string) (default : bool) : bool :=
  match PyStr.lower (PyStr.strip response) with
  | EmptyString => default
  | r => PyStr.startswith "y" r
  end.

End Fallback.

(* ================================================================== *)
(** * The environment and the effect monad *)
(* ================================================================== *)

(** [subprocess.CompletedProcess] *)
Record CompletedProcess := mkCP { returncode : Z; stdout : string; stderr : string }.

(** The exceptions the manager can meet.  [OSError] stands for a command
    that could not be started, [EOFError] for a closed input stream, and
    [MarkupError] is what the console of rich raises on a text it cannot
    read as markup. *)
Inductive exn :=
| CalledProcessError (argv : list string) (rc : Z)
| OSError
| KeyError (key : string)
| ValueError (literal : string)
| EOFError
| MarkupError (message : string).

(** One interaction with the outside world, with the answer it got.
    [ERun argv None] is a command that raised instead of completing. *)
Inductive Event :=
| ERun (argv : list string) (r : option CompletedProcess)
| EPrint (msg : string)
| EConfirm (question : string) (answer : option bool)
| EPrompt (question : string) (answer : option string)
| ESystem (command : string).

(** The history of a run, oldest event first. *)
Definition Trace := list Event.

(** The world outside the program.  Every answer may depend on the whole
    history, so any deterministic repository, file system and user is an
    [Env].  Reading the clock, the working directory, the process
    environment and the file system leaves no event. *)
Record Env := mkEnv {
  env_run : Trace -> list string -> option CompletedProcess;
  env_confirm : Trace -> string -> option bool;
  env_prompt : Trace -> string -> option string;
  env_now : Trace -> string;
  env_cwd : Trace -> string;
  env_getenv : Trace -> string -> option string;
  env_exists : Trace -> string -> bool;
  env_glob : Trace -> string -> string -> list string;
  exn_str : exn -> string
}.

(** The outcome of a computation: a value, a Python exception, or a loop
    that outran its fuel. *)
Inductive Result (A : Type) :=
| Ok (a : A)
| Raise (e : exn)
| OutOfFuel.
Arguments Ok {A} a.
Arguments Raise {A} e.
Arguments OutOfFuel {A}.

Definition M (A : Type) : Type := Trace -> Result A * Trace.

Definition ret {A} (a : A) : M A := fun tr => (Ok a, tr).

Definition bind {A B} (m : M A) (k : A -> M B) : M B :=
  fun tr =>
    match m tr with
    | (Ok a, tr') => k a tr'
    | (Raise e, tr') => (Raise e, tr')
    | (OutOfFuel, tr') => (OutOfFuel, tr')
    end.

Definition raise {A} (e : exn) : M A := fun tr => (Raise e, tr).

Definition out_of_fuel {A} : M A := fun tr => (OutOfFuel, tr).

(** [try: m  except ...: h e]; a handler that does not apply re-raises. *)
Definition try_except {A} (m : M A) (h : exn -> M A) : M A :=
  fun tr =>
    match m tr with
    | (Raise e, tr') => h e tr'
    | r => r
    end.

Declare Scope py_scope.
Delimit Scope py_scope with py.
Notation "x <- m ;; k" := (bind m (fun x => k))
  (at level 61, m at next level, right associativity) : py_scope.
Notation "m ;; k" := (bind m (fun _ => k))
  (at level 61, right associativity) : py_scope.
Open Scope py_scope.

(** Run [body] over [l] in order, threading the accumulator. *)
Fixpoint for_each {A S} (body : S -> A -> M S) (l : list A) (acc : S) : M S :=
  match l with
  | [] => ret acc
  | x :: r => acc' <- body acc x ;; for_each body r acc'
  end.

(* ================================================================== *)
(** * WorktreeManager *)
(* ================================================================== *)

(** A worktree dict while the porcelain listing is parsed: each key may
    still be missing.  [raw_detached] is the presence of ['detached']. *)
Record RawWorktree := mkRaw {
  raw_path : option string;
  raw_head : option string;
  raw_branch : option string;
  raw_detached : bool
}.

(** A worktree dict once the metadata pass has visited it: ['path'],
    ['name'], ['is_current'], ['has_context'] and ['children'] are set. *)
Record Worktree := mkWorktree {
  path : string;
  head : option string;
  branch : option string;
  detached : bool;
  name : string;
  is_current : bool;
  has_context : bool;
  issue : option string;
  children : list string
}.

Definition empty_dict : RawWorktree := mkRaw None None None false.

(** [if current_wt:] a dict is true when it has a key. *)
Definition truthy (wt : RawWorktree) : bool :=
  match raw_path wt, raw_head wt, raw_branch wt, raw_detached wt with
  | None, None, None, false => false
  | _, _, _, _ => true
  end.

(** [line.split(' ', 1)[1]]; every caller has checked a prefix that holds
    a blank, so the second field exists. *)
Definition field1 (line : string) : string :=
  match snd (PyStr.split1 PyStr.space line) with
  | Some v => v
  | None => ""
  end.

(** The parse state of [get_worktrees]: the list [worktrees] and the dict
    [current_wt].  A dict is appended and then replaced by a fresh one, so
    no dict is shared between two list entries. *)
Definition parse_line (st : list RawWorktree * RawWorktree) (line : string)
  : list RawWorktree * RawWorktree :=
  let '(worktrees, current_wt) := st in
  if PyStr.startswith "worktree " line then
    ((if truthy current_wt then (worktrees ++ [current_wt])%list else worktrees),
     mkRaw (Some (field1 line)) None None false)
  else if PyStr.startswith "HEAD " line then
    (worktrees, mkRaw (raw_path current_wt) (Some (field1 line))
                      (raw_branch current_wt) (raw_detached current_wt))
  else if PyStr.startswith "branch " line then
    (worktrees, mkRaw (raw_path current_wt) (raw_head current_wt)
                      (Some (PyStr.replace "refs/heads/" "" (field1 line)))
                      (raw_detached current_wt))
  else if PyStr.startswith "detached" line then
    (worktrees, mkRaw (raw_path current_wt) (raw_head current_wt)
                      (raw_branch current_wt) true)
  else if String.eqb line "" then
    (if truthy current_wt then ((worktrees ++ [current_wt])%list, empty_dict)
     else (worktrees, current_wt))
  else st.

Definition porcelain_lines (out : string) : list string :=
  PyStr.split PyStr.nl (PyStr.strip out).

Definition parse_porcelain (out : string) : list RawWorktree :=
  let '(worktrees, current_wt) :=
    fold_left parse_line (porcelain_lines out) ([], empty_dict) in
  if truthy current_wt then (worktrees ++ [current_wt])%list else worktrees.

Section Manager.

Variable E : Env.

(** [self.root_dir], the working directory when the manager was made. *)
Variable root_dir : PyPath.Path.

(** [subprocess.run(argv, ...)] *)
Definition run (argv : list string) : M CompletedProcess :=
  fun tr =>
    let r := env_run E tr argv in
    (match r with Some cp => Ok cp | None => Raise OSError end,
     (tr ++ [ERun argv r])%list).

(** [subprocess.run(argv, ..., check=True)] *)
Definition run_check (argv : list string) : M CompletedProcess :=
  cp <- run argv ;;
  if (returncode cp =? 0)%Z then ret cp
  else raise (CalledProcessError argv (returncode cp)).

(** [console.print(msg)] *)
Definition print (msg : string) : M unit :=
  fun tr => (Ok tt, (tr ++ [EPrint msg])%list).

(** [Confirm.ask(question)] *)
Definition confirm (question : string) : M bool :=
  fun tr =>
    let a := env_confirm E tr question in
    (match a with Some b => Ok b | None => Raise EOFError end,
     (tr ++ [EConfirm question a])%list).

(** [Prompt.ask(question, choices=..., default=...)] *)
Definition prompt (question : string) : M string :=
  fun tr =>
    let a := env_prompt E tr question in
    (match a with Some s => Ok s | None => Raise EOFError end,
     (tr ++ [EPrompt question a])%list).

(** [os.system(command)] *)
Definition system (command : string) : M unit :=
  fun tr => (Ok tt, (tr ++ [ESystem command])%list).

(** The children of the worktree at [p]: the names of the entries of
    [worktrees] whose grandparent directory is [p].  The list is the one
    being annotated: the entries before the current one ([done]) and the
    current one have their ['name'], the entries after it ([rest]) do not
    have it yet, and reading it raises [KeyError]. *)
Fixpoint children_of_raw (p : PyPath.Path) (rest : list RawWorktree)
  : Result (list string) :=
  match rest with
  | [] => Ok []
  | child :: rest' =>
      match raw_path child with
      | None => Raise (KeyError "path")
      | Some cp =>
          if PyPath.eqb (PyPath.parent (PyPath.parent (PyPath.of_string cp))) p
          then Raise (KeyError "name")
          else children_of_raw p rest'
      end
  end.

Fixpoint children_of (p : PyPath.Path) (done : list Worktree)
  (rest : list RawWorktree) : Result (list string) :=
  match done with
  | [] => children_of_raw p rest
  | child :: done' =>
      match children_of p done' rest with
      | Ok names =>
          if PyPath.eqb
               (PyPath.parent (PyPath.parent (PyPath.of_string (path child)))) p
          then Ok (name child :: names)
          else Ok names
      | other => other
      end
  end.

(** The metadata pass on one dict.  [done] are the dicts already
    annotated, [rest] those still to come. *)
Definition annotate_one (tr : Trace) (done : list Worktree) (wt : RawWorktree)
  (rest : list RawWorktree) : Result Worktree :=
  match raw_path wt with
  | None => Raise (KeyError "path")
  | Some ps =>
      let p := PyPath.of_string ps in
      let nm := if PyPath.eqb p root_dir then "main" else PyPath.name p in
      let cur := PyPath.eqb p (PyPath.of_string (env_cwd E tr)) in
      let context_path := PyPath.child p ".context" in
      let ctx := env_exists E tr (PyPath.to_string context_path) in
      let iss :=
        if ctx then
          match env_glob E tr (PyPath.to_string context_path) "issue-*.md" with
          | f :: _ => Some (PyStr.replace "issue-" "" (PyPath.stem_of_name f))
          | [] => None
          end
        else None in
      let wt' := mkWorktree ps (raw_head wt) (raw_branch wt) (raw_detached wt)
                            nm cur ctx iss [] in
      if negb (PyPath.eqb p root_dir)
         && env_exists E tr (PyPath.to_string (PyPath.child p "worktrees"))
      then
        match children_of p (done ++ [wt'])%list rest with
        | Ok cs => Ok (mkWorktree ps (raw_head wt) (raw_branch wt)
                                  (raw_detached wt) nm cur ctx iss cs)
        | Raise e => Raise e
        | OutOfFuel => OutOfFuel
        end
      else Ok wt'
  end.

(** [for wt in worktrees: ...], the second loop of [get_worktrees]. *)
Fixpoint annotate (tr : Trace) (done : list Worktree) (todo : list RawWorktree)
  : Result (list Worktree) :=
  match todo with
  | [] => Ok done
  | wt :: rest =>
      match annotate_one tr done wt rest with
      | Ok wt' => annotate tr (done ++ [wt'])%list rest
      | Raise e => Raise e
      | OutOfFuel => OutOfFuel
      end
  end.

Definition worktree_list_argv : list string :=
  ["git"; "worktree"; "list"; "--porcelain"].

Definition get_worktrees : M (list Worktree) :=
  try_except
    (result <- run_check worktree_list_argv ;;
     fun tr => (annotate tr [] (parse_porcelain (stdout result)), tr))
    (fun e =>
       match e with
       | CalledProcessError _ _ =>
           print ("[red]Error getting worktrees: " ++ exn_str E e ++ "[/red]") ;;
           ret []
       | _ => raise e
       end).

(** [if os.environ.get(key):] the variable is set and not empty. *)
Definition env_set (key : string) (tr : Trace) : bool :=
  match env_getenv E tr key with
  | Some (String _ _) => true
  | _ => false
  end.

(** The command line of [create_worktree].  Inside the devenv shell the
    script is called directly; outside it the call is one shell string.
    [if parent_branch:] holds for a parent that is given and not empty. *)
Definition wt_new_argv (in_devenv : bool) (branch_name : string)
  (parent_branch : option string) : list string :=
  if in_devenv then
    (["wt-new"; branch_name]
     ++ match parent_branch with
        | Some (String c t) => [String c t]
        | _ => []
        end)%list
  else
    ["devenv"; "shell"; "--impure"; "-c";
     "wt-new " ++ branch_name
     ++ match parent_branch with
        | Some (String c t) => " " ++ String c t
        | _ => ""
        end].

Definition create_worktree (branch_name : string) (parent_branch : option string)
  : M bool :=
  try_except
    (cmd <- (fun tr =>
               ret (wt_new_argv (env_set "DEVENV_ROOT" tr) branch_name
                                parent_branch) tr) ;;
     result <- run cmd ;;
     if (returncode result =? 0)%Z then
       print ("[green]✅ Created worktree: " ++ branch_name ++ "[/green]") ;;
       ret true
     else
       print ("[red]Failed to create worktree: " ++ stderr result ++ "[/red]") ;;
       ret false)
    (fun e =>
       print ("[red]Error: " ++ exn_str E e ++ "[/red]") ;;
       ret false).

Definition config_argv (wt : Worktree) : list string :=
  ["git"; "config";
   "git-town.branch." ++ match branch wt with Some b => b | None => "" end
   ++ ".parent"].

Definition show_ref_argv (candidate : string) : list string :=
  ["git"; "show-ref"; "refs/heads/" ++ candidate].

(** [for candidate in ["main", "master"]: ...] *)
Fixpoint first_existing_ref (candidates : list string) : M (option string) :=
  match candidates with
  | [] => ret None
  | candidate :: more =>
      result <- run (show_ref_argv candidate) ;;
      if (returncode result =? 0)%Z then ret (Some candidate)
      else first_existing_ref more
  end.

Definition _get_parent_branch (worktree : Worktree) : M (option string) :=
  town <- try_except
            (result <- run (config_argv worktree) ;;
             if (returncode result =? 0)%Z
             then ret (Some (PyStr.strip (stdout result)))
             else ret None)
            (fun _ => ret None) ;;
  match town with
  | Some parent => ret (Some parent)
  | None => first_existing_ref ["main"; "master"]
  end.

Definition delete_branch_argv (ref : string) : list string :=
  ["git"; "branch"; "-D"; ref].

Definition worktree_remove_argv (worktree_path : PyPath.Path) : list string :=
  ["git"; "worktree"; "remove"; PyPath.to_string worktree_path; "--force"].

Definition _cleanup_merged_branch (worktree : Worktree) (branch_name : string)
  : M unit :=
  try_except
    (let worktree_path := PyPath.of_string (path worktree) in
     result <- run (worktree_remove_argv worktree_path) ;;
     (if (returncode result =? 0)%Z
      then print ("[green]✅ Removed worktree: " ++ PyPath.name worktree_path
                  ++ "[/green]")
      else print ("[yellow]Warning: Could not remove worktree: "
                  ++ stderr result ++ "[/yellow]")) ;;
     result <- run (delete_branch_argv branch_name) ;;
     if (returncode result =? 0)%Z
     then print ("[green]✅ Deleted branch: " ++ branch_name ++ "[/green]")
     else print ("[yellow]Warning: Could not delete branch: "
                 ++ stderr result ++ "[/yellow]"))
    (fun e => print ("[yellow]Warning during cleanup: " ++ exn_str E e
                     ++ "[/yellow]")).

(** One line of the file list of the preview. *)
Definition preview_file_line (line : string) : string :=
  let status := PyStr.take 1 line in
  let file_path :=
    if (2 <? String.length line)%nat then PyStr.drop 2 line
    else PyStr.drop 1 line in
  let color :=
    if String.eqb status "A" then "green"
    else if String.eqb status "M" then "yellow"
    else if String.eqb status "D" then "red"
    else "white" in
  "[" ++ color ++ "]" ++ status ++ "[/" ++ color ++ "] " ++ file_path.

Definition _preview_merge (branch_name parent_branch : string) : M bool :=
  try_except
    (print ("[cyan]📋 Merge Preview: " ++ branch_name ++ " → " ++ parent_branch
            ++ "[/cyan]") ;;
     result <- run ["git"; "log"; parent_branch ++ ".." ++ branch_name;
                    "--oneline"; "--graph"] ;;
     if (returncode result =? 0)%Z
        && negb (String.eqb (PyStr.strip (stdout result)) "")
     then
       print (String PyStr.nl "[yellow]📝 Commits to be merged:[/yellow]") ;;
       print (stdout result) ;;
       result <- run ["git"; "diff"; parent_branch ++ "..." ++ branch_name;
                      "--name-status"] ;;
       (if (returncode result =? 0)%Z
           && negb (String.eqb (PyStr.strip (stdout result)) "")
        then
          print (String PyStr.nl "[yellow]📁 Files that will be changed:[/yellow]") ;;
          for_each
            (fun _ line =>
               if String.eqb line "" then ret tt
               else print (preview_file_line line))
            (PyStr.split PyStr.nl (PyStr.strip (stdout result))) tt
        else ret tt) ;;
       ok <- confirm (String PyStr.nl "[cyan]Proceed with merge?[/cyan]") ;;
       if ok then ret true
       else print "[yellow]Merge cancelled[/yellow]" ;; ret false
     else
       print "[yellow]No commits to merge[/yellow]" ;;
       ret true)
    (fun e =>
       print ("[red]Error showing preview: " ++ exn_str E e ++ "[/red]") ;;
       ret false).

Definition reset_argv (backup_ref : string) : list string :=
  ["git"; "reset"; "--hard"; backup_ref].

Definition _rollback_merge (parent_branch backup_ref : string) : M unit :=
  try_except
    (print "[yellow]🔄 Rolling back merge...[/yellow]" ;;
     run (reset_argv backup_ref) ;;
     print ("[green]✅ Rollback complete. Restored to " ++ backup_ref
            ++ "[/green]") ;;
     run (delete_branch_argv backup_ref) ;;
     ret tt)
    (fun e =>
       print ("[red]Error during rollback: " ++ exn_str E e ++ "[/red]") ;;
       print ("[yellow]Manual rollback: git reset --hard " ++ backup_ref
              ++ "[/yellow]")).

Definition conflict_menu : M unit :=
  print (String PyStr.nl "[cyan]🛠️  Conflict Resolution Options:[/cyan]") ;;
  print "[white]1.[/white] Open merge tool (if configured)" ;;
  print "[white]2.[/white] Manual resolution with editor" ;;
  print "[white]3.[/white] Abort merge and rollback" ;;
  print "[white]4.[/white] Show conflict details".

Definition manual_steps (branch_name : string) : M unit :=
  print (String PyStr.nl "[yellow]📝 Manual Resolution Steps:[/yellow]") ;;
  print "1. Edit conflicted files to resolve conflicts" ;;
  print "2. Remove conflict markers (<<<<<<, ======, >>>>>>)" ;;
  print "3. git add <resolved-files>" ;;
  print "4. git commit" ;;
  print ("5. Re-run: wt-merge-branch " ++ branch_name).

Definition merge_abort_argv : list string := ["git"; "merge"; "--abort"].
Definition commit_argv : list string := ["git"; "commit"; "--no-edit"].
Definition status_argv : list string := ["git"; "status"; "--porcelain"].

(** The [while True:] loop of [_handle_merge_conflicts].  One unit of fuel
    is one pass through the loop body; [continue] is the recursive call,
    and reaching the final [break] returns [False]. *)
Fixpoint conflict_loop (fuel : nat) (branch_name parent_branch backup_ref : string)
  : M bool :=
  match fuel with
  | O => out_of_fuel
  | S fuel' =>
      choice <- prompt "[cyan]Choose option[/cyan]" ;;
      if String.eqb choice "1" then
        result <- run ["git"; "mergetool"] ;;
        if (returncode result =? 0)%Z then
          ok <- confirm (String PyStr.nl
                   "[green]Conflicts resolved? Ready to commit?[/green]") ;;
          if ok then
            run_check commit_argv ;;
            print "[green]✅ Merge completed successfully![/green]" ;;
            ret true
          else ret false
        else
          print "[yellow]Merge tool not configured or failed[/yellow]" ;;
          ret false
      else if String.eqb choice "2" then
        manual_steps branch_name ;;
        open <- confirm (String PyStr.nl
                  "[cyan]Open shell for manual resolution?[/cyan]") ;;
        if open then
          print "[yellow]Opening shell. Exit when conflicts are resolved.[/yellow]" ;;
          (fun tr =>
             system (match env_getenv E tr "SHELL" with
                     | Some sh => sh
                     | None => "/bin/bash"
                     end) tr) ;;
          resolved <- confirm "[green]Conflicts resolved and committed?[/green]" ;;
          if resolved then
            result <- run status_argv ;;
            if negb (PyStr.contains "UU" (stdout result)) then
              print "[green]✅ Merge completed successfully![/green]" ;;
              ret true
            else
              print "[yellow]Conflicts still exist. Please resolve them.[/yellow]" ;;
              conflict_loop fuel' branch_name parent_branch backup_ref
          else ret false
        else ret false
      else if String.eqb choice "3" then
        run merge_abort_argv ;;
        _rollback_merge parent_branch backup_ref ;;
        ret false
      else if String.eqb choice "4" then
        result <- run ["git"; "diff"] ;;
        (if negb (String.eqb (stdout result) "") then
           print (String PyStr.nl "[yellow]📋 Conflict Details:[/yellow]") ;;
           print (PyStr.take 2000 (stdout result)) ;;
           if (2000 <? String.length (stdout result))%nat
           then print "[dim]... (output truncated)[/dim]"
           else ret tt
         else ret tt) ;;
        conflict_loop fuel' branch_name parent_branch backup_ref
      else ret false
  end.

Definition _handle_merge_conflicts (fuel : nat)
  (branch_name parent_branch backup_ref : string) : M bool :=
  try_except
    (print "[red]⚠️  Merge conflicts detected![/red]" ;;
     result <- run ["git"; "diff"; "--name-only"; "--diff-filter=U"] ;;
     (if (returncode result =? 0)%Z
         && negb (String.eqb (PyStr.strip (stdout result)) "")
      then
        print (String PyStr.nl "[yellow]📁 Files with conflicts:[/yellow]") ;;
        for_each
          (fun _ file_path =>
             if String.eqb file_path "" then ret tt
             else print ("[red]⚔️[/red] " ++ file_path))
          (PyStr.split PyStr.nl (PyStr.strip (stdout result))) tt
      else ret tt) ;;
     conflict_menu ;;
     conflict_loop fuel branch_name parent_branch backup_ref)
    (fun e =>
       print ("[red]Error handling conflicts: " ++ exn_str E e ++ "[/red]") ;;
       _rollback_merge parent_branch backup_ref ;;
       ret false).

(** [wt.get('branch') == branch_name or wt['name'] == branch_name] *)
Definition matches (branch_name : string) (wt : Worktree) : bool :=
  match branch wt with
  | Some b => String.eqb b branch_name
  | None => false
  end || String.eqb (name wt) branch_name.

(** The first loop of [merge_branch]: the first match in listing order. *)
Definition find_target (branch_name : string) (worktrees : list Worktree)
  : option Worktree :=
  find (matches branch_name) worktrees.

Definition backup_argv (backup_ref parent_branch : string) : list string :=
  ["git"; "branch"; backup_ref; parent_branch].

Definition checkout_argv (parent_branch : string) : list string :=
  ["git"; "checkout"; parent_branch].

Definition merge_argv (branch_name : string) : list string :=
  ["git"; "merge"; branch_name; "--no-ff"].

Definition push_argv : list string := ["git"; "push"].

(** ["CONFLICT" in result.stdout or "conflict" in result.stderr.lower()] *)
Definition conflict_detected (result : CompletedProcess) : bool :=
  PyStr.contains "CONFLICT" (stdout result)
  || PyStr.contains "conflict" (PyStr.lower (stderr result)).

Definition backup_name (branch_name timestamp : string) : string :=
  "backup/" ++ branch_name ++ "-" ++ timestamp.

Definition merge_branch (fuel : nat) (branch_name : string)
  (cleanup preview push : bool) : M bool :=
  try_except
    (worktrees <- get_worktrees ;;
     match find_target branch_name worktrees with
     | None =>
         print ("[red]Branch " ++ branch_name ++ " not found in worktrees[/red]") ;;
         ret false
     | Some target_wt =>
         parent <- _get_parent_branch target_wt ;;
         match parent with
         | None | Some EmptyString =>
             print ("[red]Cannot determine parent branch for " ++ branch_name
                    ++ "[/red]") ;;
             ret false
         | Some parent_branch =>
             if preview then _preview_merge branch_name parent_branch
             else
               backup_ref <- (fun tr =>
                                ret (backup_name branch_name (env_now E tr)) tr) ;;
               run (backup_argv backup_ref parent_branch) ;;
               print ("[cyan]📁 Created backup: " ++ backup_ref ++ "[/cyan]") ;;
               print ("[yellow]Merging " ++ branch_name ++ " into "
                      ++ parent_branch ++ "...[/yellow]") ;;
               result <- run (checkout_argv parent_branch) ;;
               if negb (returncode result =? 0)%Z then
                 print ("[red]Failed to checkout " ++ parent_branch ++ ": "
                        ++ stderr result ++ "[/red]") ;;
                 ret false
               else
                 result <- run (merge_argv branch_name) ;;
                 if negb (returncode result =? 0)%Z then
                   if conflict_detected result then
                     _handle_merge_conflicts fuel branch_name parent_branch
                                             backup_ref
                   else
                     print ("[red]Merge failed: " ++ stderr result ++ "[/red]") ;;
                     _rollback_merge parent_branch backup_ref ;;
                     ret false
                 else
                   print ("[green]✅ Successfully merged " ++ branch_name
                          ++ " into " ++ parent_branch ++ "[/green]") ;;
                   (if cleanup then _cleanup_merged_branch target_wt branch_name
                    else ret tt) ;;
                   (if push then
                      push_result <- run push_argv ;;
                      if negb (returncode push_result =? 0)%Z
                      then print ("[yellow]Warning: Failed to push changes: "
                                  ++ stderr push_result ++ "[/yellow]")
                      else print "[green]✅ Changes pushed to remote[/green]"
                    else
                      print "[cyan]💾 Changes merged locally. Use 'git push' to push to remote[/cyan]") ;;
                   run (delete_branch_argv backup_ref) ;;
                   ret true
         end
     end)
    (fun e =>
       print ("[red]Error during merge: " ++ exn_str E e ++ "[/red]") ;;
       ret false).

(** [line.strip().replace('*', '').strip()] *)
Definition branch_of_line (line : string) : string :=
  PyStr.strip (PyStr.replace "*" "" (PyStr.strip line)).

Definition is_trunk (b : string) : bool :=
  String.eqb b "main" || String.eqb b "master".

(** The list comprehension of [auto_clean]. *)
Definition merged_branches_of (out : string) : list string :=
  map branch_of_line
      (filter (fun line =>
                 negb (String.eqb (PyStr.strip line) "")
                 && negb (is_trunk (branch_of_line line)))
              (PyStr.split PyStr.nl (PyStr.strip out))).

Definition has_branch (b : string) (wt : Worktree) : bool :=
  match branch wt with
  | Some b' => String.eqb b' b
  | None => false
  end.

(** [for branch in merged_branches: for wt in worktrees: ...] *)
Definition cleanup_candidates_of (merged_branches : list string)
  (worktrees : list Worktree) : list (string * Worktree) :=
  flat_map (fun b => map (fun wt => (b, wt)) (filter (has_branch b) worktrees))
           merged_branches.

Definition merged_argv : list string := ["git"; "branch"; "--merged"].

Definition auto_clean (dry_run : bool) : M (list string) :=
  try_except
    (print "[yellow]Scanning for merged branches...[/yellow]" ;;
     result <- run merged_argv ;;
     if negb (returncode result =? 0)%Z then
       print ("[red]Failed to get merged branches: " ++ stderr result ++ "[/red]") ;;
       ret []
     else
       let merged_branches := merged_branches_of (stdout result) in
       match merged_branches with
       | [] =>
           print "[green]No merged branches found for cleanup[/green]" ;;
           ret []
       | _ =>
           worktrees <- get_worktrees ;;
           let cleanup_candidates :=
             cleanup_candidates_of merged_branches worktrees in
           match cleanup_candidates with
           | [] =>
               print "[green]No worktrees found for merged branches[/green]" ;;
               ret []
           | _ =>
               if dry_run then
                 print ("[cyan]Would clean up "
                        ++ PyStr.of_nat (length cleanup_candidates)
                        ++ " items:[/cyan]") ;;
                 for_each
                   (fun _ c =>
                      print ("  - Branch: " ++ fst c ++ ", Worktree: "
                             ++ PyPath.name (PyPath.of_string (path (snd c)))))
                   cleanup_candidates tt ;;
                 ret (map fst cleanup_candidates)
               else
                 ok <- confirm ("Clean up "
                                ++ PyStr.of_nat (length cleanup_candidates)
                                ++ " merged branches and their worktrees?") ;;
                 if negb ok then
                   print "[yellow]Cleanup cancelled[/yellow]" ;;
                   ret []
                 else
                   cleaned <-
                     for_each
                       (fun cleaned c =>
                          try_except
                            (_cleanup_merged_branch (snd c) (fst c) ;;
                             ret (cleaned ++ [fst c])%list)
                            (fun e =>
                               print ("[red]Failed to clean up " ++ fst c ++ ": "
                                      ++ exn_str E e ++ "[/red]") ;;
                               ret cleaned))
                       cleanup_candidates [] ;;
                   print ("[green]✅ Cleaned up " ++ PyStr.of_nat (length cleaned)
                          ++ " branches[/green]") ;;
                   ret cleaned
           end
       end)
    (fun e =>
       print ("[red]Error during auto-clean: " ++ exn_str E e ++ "[/red]") ;;
       ret []).

(** A dict of [ready_candidates]. *)
Record ShipCandidate := mkShip {
  ship_branch : string;
  ship_worktree : Worktree;
  ship_parent : string;
  commits_ahead : Z
}.

Definition rev_list_argv (parent b : string) : list string :=
  ["git"; "rev-list"; "--count"; parent ++ ".." ++ b].

(** [int(result.stdout.strip())] *)
Definition parse_count (result : CompletedProcess) : M Z :=
  match PyStr.int (PyStr.strip (stdout result)) with
  | Some n => ret n
  | None => raise (ValueError (PyStr.strip (stdout result)))
  end.

(** The body of the scanning loop of [ship_all]. *)
Definition scan_worktree (ready_candidates : list ShipCandidate) (wt : Worktree)
  : M (list ShipCandidate) :=
  let b := match branch wt with Some b => b | None => "" end in
  if negb (String.eqb b "") && negb (is_trunk b) && negb (detached wt) then
    parent <- _get_parent_branch wt ;;
    match parent with
    | None | Some EmptyString => ret ready_candidates
    | Some parent =>
        result <- run (rev_list_argv parent b) ;;
        if (returncode result =? 0)%Z then
          n <- parse_count result ;;
          if (0 <? n)%Z then
            n' <- parse_count result ;;
            ret (ready_candidates ++ [mkShip b wt parent n'])%list
          else ret ready_candidates
        else ret ready_candidates
    end
  else ret ready_candidates.

Definition ship_line (c : ShipCandidate) : string :=
  "  - " ++ ship_branch c ++ " → " ++ ship_parent c ++ " ("
  ++ PyStr.of_Z (commits_ahead c) ++ " commits)".

Definition ship_all (fuel : nat) (dry_run : bool) : M (list string) :=
  try_except
    (print "[yellow]Scanning for ready branches...[/yellow]" ;;
     worktrees <- get_worktrees ;;
     ready_candidates <- for_each scan_worktree worktrees [] ;;
     match ready_candidates with
     | [] =>
         print "[green]No ready branches found for shipping[/green]" ;;
         ret []
     | _ =>
         if dry_run then
           print ("[cyan]Would ship " ++ PyStr.of_nat (length ready_candidates)
                  ++ " branches:[/cyan]") ;;
           for_each (fun _ c => print (ship_line c)) ready_candidates tt ;;
           ret (map ship_branch ready_candidates)
         else
           print ("[cyan]Ready to ship " ++ PyStr.of_nat (length ready_candidates)
                  ++ " branches:[/cyan]") ;;
           for_each (fun _ c => print (ship_line c)) ready_candidates tt ;;
           ok <- confirm ("Ship all " ++ PyStr.of_nat (length ready_candidates)
                          ++ " branches?") ;;
           if negb ok then
             print "[yellow]Shipping cancelled[/yellow]" ;;
             ret []
           else
             shipped <-
               for_each
                 (fun shipped c =>
                    print ("[yellow]Shipping " ++ ship_branch c ++ "...[/yellow]") ;;
                    ok <- merge_branch fuel (ship_branch c) true false true ;;
                    if ok then ret (shipped ++ [ship_branch c])%list
                    else
                      print ("[red]Failed to ship " ++ ship_branch c ++ "[/red]") ;;
                      ret shipped)
                 ready_candidates [] ;;
             print ("[green]✅ Shipped " ++ PyStr.of_nat (length shipped)
                    ++ " branches[/green]") ;;
             ret shipped
     end)
    (fun e =>
       print ("[red]Error during ship-all: " ++ exn_str E e ++ "[/red]") ;;
       ret []).

End Manager.

(* ================================================================== *)
(** * MCPServerManager *)
(* ================================================================== *)

Module MCP.

(** [os.kill(pid, 0)]: it returns; it raises an [OSError] (no such
    process, or not permitted); or the number does not fit a process id
    and it raises [OverflowError]. *)
Inductive Signal := Delivered | Failed | OutOfRange.

(** What the manager asks of the host: whether a path exists, the text
    of a file ([None]: it cannot be read or decoded, an [OSError] or a
    [ValueError]), and the probe of a process. *)
Record Host := mkHost {
  host_exists : string -> bool;
  host_read_text : string -> option string;
  host_kill : Z -> Signal
}.

(** [self.servers], in the order of the dict. *)
Definition servers : list (string * string) :=
  [("context7", "Context7 (Documentation)");
   ("playwright", "Playwright (Browser)");
   ("python", "Python Sandbox");
   ("sequential", "Sequential Thinking");
   ("zen", "Zen Multi-Model")].

Definition mcp_dir : PyPath.Path := PyPath.of_string ".mcp".

(** [d[k] = v] and [d.get(k, default)] on a dict kept in insertion order. *)
Fixpoint dict_set (d : list (string * string)) (k v : string)
  : list (string * string) :=
  match d with
  | [] => [(k, v)]
  | (k', v') :: more =>
      if String.eqb k' k then (k', v) :: more else (k', v') :: dict_set more k v
  end.

Fixpoint dict_get (d : list (string * string)) (k default : string) : string :=
  match d with
  | [] => default
  | (k', v) :: more => if String.eqb k' k then v else dict_get more k default
  end.

Section Status.

Variable H : Host.

(** The body of the loop of [get_status]; [None] is the [OverflowError]
    that the handler does not catch. *)
Definition server_status (pid_dir : PyPath.Path) (server_name : string)
  : option string :=
  let pid_file := PyPath.child pid_dir (server_name ++ ".pid") in
  if host_exists H (PyPath.to_string pid_file) then
    match host_read_text H (PyPath.to_string pid_file) with
    | None => Some "stopped"
    | Some text =>
        match PyStr.int (PyStr.strip text) with
        | None => Some "stopped"
        | Some pid =>
            match host_kill H pid with
            | Delivered => Some "running"
            | Failed => Some "stopped"
            | OutOfRange => None
            end
        end
    end
  else Some "not started".

Fixpoint status_loop (pid_dir : PyPath.Path) (names : list string)
  (status : list (string * string)) : option (list (string * string)) :=
  match names with
  | [] => Some status
  | server_name :: more =>
      match server_status pid_dir server_name with
      | Some s => status_loop pid_dir more (dict_set status server_name s)
      | None => None
      end
  end.

Definition get_status : option (list (string * string)) :=
  let pid_dir := PyPath.child mcp_dir "pids" in
  if negb (host_exists H (PyPath.to_string pid_dir)) then
    Some (fold_left (fun d name => dict_set d name "not configured")
                    (map fst servers) [])
  else status_loop pid_dir (map fst servers) [].

(** The rows of [create_mcp_status_table]. *)
Definition status_row (status : list (string * string)) (server : string * string)
  : string * string :=
  let server_status := dict_get status (fst server) "unknown" in
  let status_style :=
    if String.eqb server_status "running" then "green"
    else if String.eqb server_status "stopped" then "red"
    else "yellow" in
  (snd server,
   "[" ++ status_style ++ "]" ++ server_status ++ "[/" ++ status_style ++ "]").

Definition create_mcp_status_table : option (list (string * string)) :=
  match get_status with
  | Some status => Some (map (status_row status) servers)
  | None => None
  end.

End Status.

End MCP.

Section Servers.

Variable E : Env.

(** [MCPServerManager.start_servers] and [stop_servers] *)
Definition start_servers : M unit :=
  (fun tr =>
     (if env_set E "DEVENV_ROOT" tr then run E ["mcp-start"]
      else run E ["devenv"; "shell"; "--impure"; "-c"; "mcp-start"]) tr) ;;
  ret tt.

Definition stop_servers : M unit :=
  (fun tr =>
     (if env_set E "DEVENV_ROOT" tr then run E ["mcp-stop"]
      else run E ["devenv"; "shell"; "--impure"; "-c"; "mcp-stop"]) tr) ;;
  ret tt.

End Servers.

(* ================================================================== *)
(** * DevFlowTUI *)
(* ================================================================== *)

(** A [rich.tree.Tree]: a label and the nodes added under it, in order. *)
#[warnings="-register-all"]
Inductive Tree := Node (label : string) (branches : list Tree).

(** [f"{branch_name}{issue}{current}"]: the branch or [detached], the
    issue number when there is a non-empty one, and the current mark. *)
Definition node_text (wt : Worktree) : string :=
  match branch wt with Some b => b | None => "detached" end
  ++ match issue wt with
     | Some (String c t) => " #" ++ String c t
     | _ => ""
     end
  ++ if is_current wt then " [cyan][current][/cyan]" else "".

(** Run [f] over [l] in order and keep the values it yields. *)
Fixpoint collect {A B} (f : A -> Result (option B)) (l : list A) : Result (list B) :=
  match l with
  | [] => Ok []
  | x :: more =>
      match f x with
      | Ok y =>
          match collect f more with
          | Ok ys => Ok (match y with Some b => b :: ys | None => ys end)
          | other => other
          end
      | Raise e => Raise e
      | OutOfFuel => OutOfFuel
      end
  end.

(** [_add_children_to_tree]: the nodes added under the node of
    [parent_wt].  Each child is looked up by name, the first worktree of
    that name being taken, and a name that is not found adds nothing.
    One unit of fuel is one level of the recursion. *)
Fixpoint _add_children_to_tree (fuel : nat) (parent_wt : Worktree)
  (all_worktrees : list Worktree) : Result (list Tree) :=
  match fuel with
  | O => OutOfFuel
  | S fuel' =>
      collect
        (fun child_name =>
           match find (fun wt => String.eqb (name wt) child_name) all_worktrees with
           | Some child_wt =>
               match _add_children_to_tree fuel' child_wt all_worktrees with
               | Ok nodes => Ok (Some (Node (node_text child_wt) nodes))
               | Raise e => Raise e
               | OutOfFuel => OutOfFuel
               end
           | None => Ok None
           end)
        (children parent_wt)
  end.

(** [p / s]: an absolute right operand replaces the left one. *)
Definition join_path (p : PyPath.Path) (s : string) : PyPath.Path :=
  let q := PyPath.of_string s in
  match PyPath.root q with
  | EmptyString => PyPath.mkPath (PyPath.root p) (PyPath.parts p ++ PyPath.parts q)
  | _ => q
  end.

Section TUI.

Variable E : Env.
Variable root_dir : PyPath.Path.

(** The worktrees shown at the top of the tree: those whose directory is
    beside the root directory, and the root worktree. *)
Definition is_root_wt (wt : Worktree) : bool :=
  PyPath.eqb (PyPath.parent (PyPath.of_string (path wt))) (PyPath.parent root_dir)
  || PyPath.eqb (PyPath.of_string (path wt)) root_dir.

Definition create_worktree_tree (fuel : nat) : M Tree :=
  worktrees <- get_worktrees E root_dir ;;
  let root_wts := filter is_root_wt worktrees in
  nodes <- for_each
             (fun nodes wt =>
                below <- (fun tr => (_add_children_to_tree fuel wt worktrees, tr)) ;;
                ret (nodes ++ [Node (node_text wt) below])%list)
             root_wts [] ;;
  ret (Node "🌳 [bold]Worktrees[/bold]" nodes).

Definition command_question : string := String PyStr.nl "[bold]Command[/bold]".

(** The key [a]: start an agent here or in a worktree. *)
Definition start_agent : M unit :=
  worktree <- prompt E "[bold]Worktree name (or 'here' for current)[/bold]" ;;
  if String.eqb worktree "here" then
    (fun tr =>
       (if env_set E "DEVENV_ROOT" tr then run E ["agent-here"]
        else run E ["devenv"; "shell"; "--impure"; "-c"; "agent-here"]) tr) ;;
    ret tt
  else
    let worktree_path := join_path (PyPath.of_string "worktrees") worktree in
    fun tr =>
      (if env_exists E tr (PyPath.to_string worktree_path) then
         if env_set E "ZELLIJ" tr then
           run E ["zellij"; "action"; "new-tab"; "--name"; "agent-" ++ worktree;
                  "--cwd"; PyPath.to_string worktree_path] ;;
           run E ["zellij"; "action"; "write-chars"; "agent-here" ++ String PyStr.nl ""] ;;
           ret tt
         else if env_set E "DEVENV_ROOT" tr then
           run E ["sh"; "-c";
                  "cd " ++ PyPath.to_string worktree_path ++ " && agent-here"] ;;
           ret tt
         else
           run E ["devenv"; "shell"; "--impure"; "-c";
                  "cd " ++ PyPath.to_string worktree_path ++ " && agent-here"] ;;
           ret tt
       else print ("[red]Worktree " ++ worktree ++ " not found[/red]")) tr.

(** What [handle_input] does for a key other than [q]. *)
Definition dispatch (fuel : nat) (key : string) : M unit :=
  if String.eqb key "n" then
    branch <- prompt E "[bold]Branch name[/bold]" ;;
    parent <- prompt E "[bold]Parent branch (optional)[/bold]" ;;
    create_worktree E branch
      (match parent with EmptyString => None | _ => Some parent end) ;;
    ret tt
  else if String.eqb key "a" then start_agent
  else if String.eqb key "s" then
    print "[yellow]Starting MCP servers...[/yellow]" ;;
    start_servers E
  else if String.eqb key "m" then
    branch <- prompt E "[bold]Branch name to merge[/bold]" ;;
    cleanup <- confirm E "Clean up worktree after merge?" ;;
    merge_branch E root_dir fuel branch cleanup false true ;;
    ret tt
  else if String.eqb key "c" then
    dry_run <- confirm E "Dry run first (preview only)?" ;;
    candidates <- auto_clean E root_dir dry_run ;;
    match candidates with
    | _ :: _ =>
        if dry_run then
          ok <- confirm E "Proceed with cleanup?" ;;
          if ok then auto_clean E root_dir false ;; ret tt else ret tt
        else ret tt
    | [] => ret tt
    end
  else if String.eqb key "S" then
    dry_run <- confirm E "Dry run first (preview only)?" ;;
    candidates <- ship_all E root_dir fuel dry_run ;;
    match candidates with
    | _ :: _ =>
        if dry_run then
          ok <- confirm E "Proceed with shipping all?" ;;
          if ok then ship_all E root_dir fuel false ;; ret tt else ret tt
        else ret tt
    | [] => ret tt
    end
  else if String.eqb key "k" then
    print "[yellow]Stopping MCP servers...[/yellow]" ;;
    stop_servers E
  else if String.eqb key "r" then print "[dim]Refreshing...[/dim]"
  else ret tt.

Definition handle_input (fuel : nat) : M bool :=
  key <- prompt E command_question ;;
  if String.eqb key "q" then ret false
  else dispatch fuel key ;; ret true.

End TUI.

(* ================================================================== *)
(** * The commands of [wt_commands.py] *)
(* ================================================================== *)

(** The namespaces that [parser.parse_args()] returns. *)
Record MergeArgs := mkMergeArgs {
  arg_branch : string;
  arg_no_cleanup : bool;
  arg_no_push : bool;
  arg_preview : bool
}.


Section Commands.

Variable E : Env.

(** [WorktreeManager()]: the root directory is the working directory at
    that moment. *)
Definition new_manager_root (tr : Trace) : PyPath.Path :=
  PyPath.of_string (env_cwd E tr).

(** Each command ends with [sys.exit(status)]; the value is the status. *)
Definition wt_merge_branch (fuel : nat) (args : MergeArgs) : M Z :=
  fun tr =>
    (success <- merge_branch E (new_manager_root tr) fuel (arg_branch args)
                  (negb (arg_no_cleanup args)) (arg_preview args)
                  (negb (arg_no_push args)) ;;
     ret (if success then 0 else 1)%Z) tr.



End Commands.

(* ================================================================== *)
(** * The console of rich *)
(* ================================================================== *)

(** The definitions above take [console.print] to succeed.  That is so
    for the class that stands in for rich, and with rich for every text
    that reads as markup.  The [Console.print] of rich, however, parses
    its text as markup and raises [MarkupError] on a closing tag that
    matches no open tag, and the manager hands it the output of git and
    the text of exceptions as they are.  The merge path is therefore
    given again here, with the console of rich; everything but
    [console.print] is as above. *)
Module Rich.

Section Console.

Variable E : Env.
Variable root_dir : PyPath.Path.

(** The markup parser is part of rich, not of this program:
    [markup_error text] is the message of the [MarkupError] that rich
    raises on [text], if it raises one. *)
Variable markup_error : string -> option string.

(** [console.print(msg)] *)
Definition print (msg : string) : M unit :=
  match markup_error msg with
  | Some message => raise (MarkupError message)
  | None => print msg
  end.

Definition get_worktrees : M (list Worktree) :=
  try_except
    (result <- run_check E worktree_list_argv ;;
     fun tr => (annotate E root_dir tr [] (parse_porcelain (stdout result)), tr))
    (fun e =>
       match e with
       | CalledProcessError _ _ =>
           print ("[red]Error getting worktrees: " ++ exn_str E e ++ "[/red]") ;;
           ret []
       | _ => raise e
       end).

Definition _cleanup_merged_branch (worktree : Worktree) (branch_name : string)
  : M unit :=
  try_except
    (let worktree_path := PyPath.of_string (path worktree) in
     result <- run E (worktree_remove_argv worktree_path) ;;
     (if (returncode result =? 0)%Z
      then print ("[green]✅ Removed worktree: " ++ PyPath.name worktree_path
                  ++ "[/green]")
      else print ("[yellow]Warning: Could not remove worktree: "
                  ++ stderr result ++ "[/yellow]")) ;;
     result <- run E (delete_branch_argv branch_name) ;;
     if (returncode result =? 0)%Z
     then print ("[green]✅ Deleted branch: " ++ branch_name ++ "[/green]")
     else print ("[yellow]Warning: Could not delete branch: "
                 ++ stderr result ++ "[/yellow]"))
    (fun e => print ("[yellow]Warning during cleanup: " ++ exn_str E e
                     ++ "[/yellow]")).

Definition _preview_merge (branch_name parent_branch : string) : M bool :=
  try_except
    (print ("[cyan]📋 Merge Preview: " ++ branch_name ++ " → " ++ parent_branch
            ++ "[/cyan]") ;;
     result <- run E ["git"; "log"; parent_branch ++ ".." ++ branch_name;
                    "--oneline"; "--graph"] ;;
     if (returncode result =? 0)%Z
        && negb (String.eqb (PyStr.strip (stdout result)) "")
     then
       print (String PyStr.nl "[yellow]📝 Commits to be merged:[/yellow]") ;;
       print (stdout result) ;;
       result <- run E ["git"; "diff"; parent_branch ++ "..." ++ branch_name;
                      "--name-status"] ;;
       (if (returncode result =? 0)%Z
           && negb (String.eqb (PyStr.strip (stdout result)) "")
        then
          print (String PyStr.nl "[yellow]📁 Files that will be changed:[/yellow]") ;;
          for_each
            (fun _ line =>
               if String.eqb line "" then ret tt
               else print (preview_file_line line))
            (PyStr.split PyStr.nl (PyStr.strip (stdout result))) tt
        else ret tt) ;;
       ok <- confirm E (String PyStr.nl "[cyan]Proceed with merge?[/cyan]") ;;
       if ok then ret true
       else print "[yellow]Merge cancelled[/yellow]" ;; ret false
     else
       print "[yellow]No commits to merge[/yellow]" ;;
       ret true)
    (fun e =>
       print ("[red]Error showing preview: " ++ exn_str E e ++ "[/red]") ;;
       ret false).

Definition _rollback_merge (parent_branch backup_ref : string) : M unit :=
  try_except
    (print "[yellow]🔄 Rolling back merge...[/yellow]" ;;
     run E (reset_argv backup_ref) ;;
     print ("[green]✅ Rollback complete. Restored to " ++ backup_ref
            ++ "[/green]") ;;
     run E (delete_branch_argv backup_ref) ;;
     ret tt)
    (fun e =>
       print ("[red]Error during rollback: " ++ exn_str E e ++ "[/red]") ;;
       print ("[yellow]Manual rollback: git reset --hard " ++ backup_ref
              ++ "[/yellow]")).

Definition conflict_menu : M unit :=
  print (String PyStr.nl "[cyan]🛠️  Conflict Resolution Options:[/cyan]") ;;
  print "[white]1.[/white] Open merge tool (if configured)" ;;
  print "[white]2.[/white] Manual resolution with editor" ;;
  print "[white]3.[/white] Abort merge and rollback" ;;
  print "[white]4.[/white] Show conflict details".

Definition manual_steps (branch_name : string) : M unit :=
  print (String PyStr.nl "[yellow]📝 Manual Resolution Steps:[/yellow]") ;;
  print "1. Edit conflicted files to resolve conflicts" ;;
  print "2. Remove conflict markers (<<<<<<, ======, >>>>>>)" ;;
  print "3. git add <resolved-files>" ;;
  print "4. git commit" ;;
  print ("5. Re-run: wt-merge-branch " ++ branch_name).

(** The [while True:] loop of [_handle_merge_conflicts].  One unit of fuel
    is one pass through the loop body; [continue] is the recursive call,
    and reaching the final [break] returns [False]. *)
Fixpoint conflict_loop (fuel : nat) (branch_name parent_branch backup_ref : string)
  : M bool :=
  match fuel with
  | O => out_of_fuel
  | S fuel' =>
      choice <- prompt E "[cyan]Choose option[/cyan]" ;;
      if String.eqb choice "1" then
        result <- run E ["git"; "mergetool"] ;;
        if (returncode result =? 0)%Z then
          ok <- confirm E (String PyStr.nl
                   "[green]Conflicts resolved? Ready to commit?[/green]") ;;
          if ok then
            run_check E commit_argv ;;
            print "[green]✅ Merge completed successfully![/green]" ;;
            ret true
          else ret false
        else
          print "[yellow]Merge tool not configured or failed[/yellow]" ;;
          ret false
      else if String.eqb choice "2" then
        manual_steps branch_name ;;
        open <- confirm E (String PyStr.nl
                  "[cyan]Open shell for manual resolution?[/cyan]") ;;
        if open then
          print "[yellow]Opening shell. Exit when conflicts are resolved.[/yellow]" ;;
          (fun tr =>
             system (match env_getenv E tr "SHELL" with
                     | Some sh => sh
                     | None => "/bin/bash"
                     end) tr) ;;
          resolved <- confirm E "[green]Conflicts resolved and committed?[/green]" ;;
          if resolved then
            result <- run E status_argv ;;
            if negb (PyStr.contains "UU" (stdout result)) then
              print "[green]✅ Merge completed successfully![/green]" ;;
              ret true
            else
              print "[yellow]Conflicts still exist. Please resolve them.[/yellow]" ;;
              conflict_loop fuel' branch_name parent_branch backup_ref
          else ret false
        else ret false
      else if String.eqb choice "3" then
        run E merge_abort_argv ;;
        _rollback_merge parent_branch backup_ref ;;
        ret false
      else if String.eqb choice "4" then
        result <- run E ["git"; "diff"] ;;
        (if negb (String.eqb (stdout result) "") then
           print (String PyStr.nl "[yellow]📋 Conflict Details:[/yellow]") ;;
           print (PyStr.take 2000 (stdout result)) ;;
           if (2000 <? String.length (stdout result))%nat
           then print "[dim]... (output truncated)[/dim]"
           else ret tt
         else ret tt) ;;
        conflict_loop fuel' branch_name parent_branch backup_ref
      else ret false
  end.

Definition _handle_merge_conflicts (fuel : nat)
  (branch_name parent_branch backup_ref : string) : M bool :=
  try_except
    (print "[red]⚠️  Merge conflicts detected![/red]" ;;
     result <- run E ["git"; "diff"; "--name-only"; "--diff-filter=U"] ;;
     (if (returncode result =? 0)%Z
         && negb (String.eqb (PyStr.strip (stdout result)) "")
      then
        print (String PyStr.nl "[yellow]📁 Files with conflicts:[/yellow]") ;;
        for_each
          (fun _ file_path =>
             if String.eqb file_path "" then ret tt
             else print ("[red]⚔️[/red] " ++ file_path))
          (PyStr.split PyStr.nl (PyStr.strip (stdout result))) tt
      else ret tt) ;;
     conflict_menu ;;
     conflict_loop fuel branch_name parent_branch backup_ref)
    (fun e =>
       print ("[red]Error handling conflicts: " ++ exn_str E e ++ "[/red]") ;;
       _rollback_merge parent_branch backup_ref ;;
       ret false).

Definition merge_branch (fuel : nat) (branch_name : string)
  (cleanup preview push : bool) : M bool :=
  try_except
    (worktrees <- get_worktrees ;;
     match find_target branch_name worktrees with
     | None =>
         print ("[red]Branch " ++ branch_name ++ " not found in worktrees[/red]") ;;
         ret false
     | Some target_wt =>
         parent <- _get_parent_branch E target_wt ;;
         match parent with
         | None | Some EmptyString =>
             print ("[red]Cannot determine parent branch for " ++ branch_name
                    ++ "[/red]") ;;
             ret false
         | Some parent_branch =>
             if preview then _preview_merge branch_name parent_branch
             else
               backup_ref <- (fun tr =>
                                ret (backup_name branch_name (env_now E tr)) tr) ;;
               run E (backup_argv backup_ref parent_branch) ;;
               print ("[cyan]📁 Created backup: " ++ backup_ref ++ "[/cyan]") ;;
               print ("[yellow]Merging " ++ branch_name ++ " into "
                      ++ parent_branch ++ "...[/yellow]") ;;
               result <- run E (checkout_argv parent_branch) ;;
               if negb (returncode result =? 0)%Z then
                 print ("[red]Failed to checkout " ++ parent_branch ++ ": "
                        ++ stderr result ++ "[/red]") ;;
                 ret false
               else
                 result <- run E (merge_argv branch_name) ;;
                 if negb (returncode result =? 0)%Z then
                   if conflict_detected result then
                     _handle_merge_conflicts fuel branch_name parent_branch
                                             backup_ref
                   else
                     print ("[red]Merge failed: " ++ stderr result ++ "[/red]") ;;
                     _rollback_merge parent_branch backup_ref ;;
                     ret false
                 else
                   print ("[green]✅ Successfully merged " ++ branch_name
                          ++ " into " ++ parent_branch ++ "[/green]") ;;
                   (if cleanup then _cleanup_merged_branch target_wt branch_name
                    else ret tt) ;;
                   (if push then
                      push_result <- run E push_argv ;;
                      if negb (returncode push_result =? 0)%Z
                      then print ("[yellow]Warning: Failed to push changes: "
                                  ++ stderr push_result ++ "[/yellow]")
                      else print "[green]✅ Changes pushed to remote[/green]"
                    else
                      print "[cyan]💾 Changes merged locally. Use 'git push' to push to remote[/cyan]") ;;
                   run E (delete_branch_argv backup_ref) ;;
                   ret true
         end
     end)
    (fun e =>
       print ("[red]Error during merge: " ++ exn_str E e ++ "[/red]") ;;
       ret false).

End Console.

End Rich.

(* ================================================================== *)
(** * Histories *)
(* ================================================================== *)

(** The git subcommands the manager uses that only read the repository:
    listing worktrees, reading one configuration key, probing a ref, log,
    diff, rev-list, listing merged branches and status. *)
Definition read_only (argv : list string) : bool :=
  match argv with
  | g :: sub :: rest =>
      String.eqb g "git"
      && ((String.eqb sub "worktree"
           && match rest with
              | [a; b] => String.eqb a "list" && String.eqb b "--porcelain"
              | _ => false
              end)
          || (String.eqb sub "config" && (length rest =? 1)%nat)
          || String.eqb sub "show-ref"
          || String.eqb sub "log"
          || String.eqb sub "diff"
          || String.eqb sub "rev-list"
          || (String.eqb sub "branch"
              && match rest with
                 | [a] => String.eqb a "--merged"
                 | _ => false
                 end)
          || (String.eqb sub "status"
              && match rest with
                 | [a] => String.eqb a "--porcelain"
                 | _ => false
                 end))
  | _ => false
  end.

(** An event that cannot change the repository: a read-only command, a
    message, or a question to the user. *)
Definition quiet (e : Event) : bool :=
  match e with
  | ERun argv _ => read_only argv
  | ESystem _ => false
  | _ => true
  end.

(** A command that ends a merge in progress: [merge --abort], [reset] or
    [commit]. *)
Definition settles (e : Event) : bool :=
  match e with
  | ERun (_ :: sub :: rest) _ =>
      (String.eqb sub "merge"
       && match rest with [a] => String.eqb a "--abort" | _ => false end)
      || String.eqb sub "reset"
      || String.eqb sub "commit"
  | _ => false
  end.

(** The merge proper: [git merge <name> --no-ff]. *)
Definition is_merge (e : Event) : bool :=
  match e with
  | ERun [_; sub; _; flag] _ => String.eqb sub "merge" && String.eqb flag "--no-ff"
  | _ => false
  end.

(** The answer to a command: it ran and exited with status 0; it ran and
    exited with another status; the text it wrote. *)
Definition succeeded (r : option CompletedProcess) : bool :=
  match r with
  | Some cp => (returncode cp =? 0)%Z
  | None => false
  end.

Definition refused (r : option CompletedProcess) : bool :=
  match r with
  | Some cp => negb (returncode cp =? 0)%Z
  | None => false
  end.

Definition output (r : option CompletedProcess) : string :=
  match r with
  | Some cp => stdout cp
  | None => ""
  end.


(** [m], started after history [tr0], ends with [r] after the events
    [evs], in the order they happened. *)
Definition run_of {A} (m : M A) (tr0 : Trace) (r : Result A) (evs : list Event)
  : Prop :=
  m tr0 = (r, (tr0 ++ evs)%list).

(** The first event of [evs] that satisfies [P], with the events before
    it and the events after it. *)
Fixpoint split_at (P : Event -> bool) (evs : list Event)
  : option (list Event * Event * list Event) :=
  match evs with
  | [] => None
  | e :: more =>
      if P e then Some ([], e, more)
      else match split_at P more with
           | Some (before, x, after) => Some (e :: before, x, after)
           | None => None
           end
  end.

(** After a conflicted merge, on the merge-tool path: the commit that
    concludes the merge ran and exited with status 0. *)
Definition committed (post : list Event) : Prop :=
  exists cp, In (ERun commit_argv (Some cp)) post /\ returncode cp = 0%Z.

Definition resolved_question : string :=
  "[green]Conflicts resolved and committed?[/green]".

(** On the manual path: the user confirmed that the conflicts are
    resolved and committed, and [git status] was consulted.  What the
    listing has to show is not part of this notion. *)
Definition manually_confirmed (post : list Event) : Prop :=
  In (EConfirm resolved_question (Some true)) post
  /\ exists cp, In (ERun status_argv (Some cp)) post.

(** The hard reset to the backup ref was issued. *)
Definition rolled_back (backup_ref : string) (post : list Event) : Prop :=
  exists y, In (ERun (reset_argv backup_ref) y) post.

(** The events on which the conflict menu gives up: the merge tool
    failed, or the user declined a confirmation. *)
Definition gave_up (e : Event) : Prop :=
  e = EPrint "[yellow]Merge tool not configured or failed[/yellow]"
  \/ exists q, e = EConfirm q (Some false).

(** An answer to the menu that is none of its options.  [Prompt.ask] is
    called with [choices], and rich then asks again until the answer is
    one of them, so the program never sees such an answer. *)
Definition listed_choice (e : Event) : bool :=
  match e with
  | EPrompt _ (Some c) =>
      String.eqb c "1" || String.eqb c "2" || String.eqb c "3" || String.eqb c "4"
  | _ => true
  end.

Definition stop_event (e : Event) : Prop :=
  gave_up e \/ listed_choice e = false.

(** The merge is left as the merge command left it: no abort, reset or
    commit was issued, and the menu gave up. *)
Definition left_in_progress (post : list Event) : Prop :=
  Forall (fun e => settles e = false) post
  /\ exists e, In e post /\ gave_up e.

Definition left_unsettled (post : list Event) : Prop :=
  Forall (fun e => settles e = false) post
  /\ exists e, In e post /\ stop_event e.

(** An entry of [git status --porcelain] for an unmerged path. *)
Definition unmerged_entry (line : string) : bool :=
  existsb (fun code => String.prefix code line)
          ["DD"; "AU"; "UD"; "UA"; "DU"; "AA"; "UU"].

(** The listing ran, exited with status 0 and shows no unmerged path. *)
Definition no_unmerged_paths (cp : CompletedProcess) : bool :=
  (returncode cp =? 0)%Z
  && forallb (fun line => negb (unmerged_entry line))
             (PyStr.split PyStr.nl (stdout cp)).

(** "Fully committed with no remaining unmerged paths", as far as a
    history can show it: the commit of the merge succeeded, or a status
    listing shows no unmerged path. *)
Definition fully_committed (post : list Event) : Prop :=
  committed post
  \/ exists cp, In (ERun status_argv (Some cp)) post /\ no_unmerged_paths cp = true.

(** "Fully rolled back to the pre-merge state", as far as a history can
    show it: the abort of the merge or a hard reset succeeded. *)
Definition fully_rolled_back (post : list Event) : Prop :=
  exists argv cp,
    In (ERun argv (Some cp)) post /\ returncode cp = 0%Z
    /\ (argv = merge_abort_argv \/ exists ref, argv = reset_argv ref).

(** C1 as the specification states it: once a conflicted merge has been
    handled and [merge_branch] has returned, the repository is fully
    committed or fully rolled back. *)
Definition never_left_mid_conflict : Prop :=
  forall E root_dir fuel b cleanup push tr0 ok evs pre argv cp post,
    run_of (merge_branch E root_dir fuel b cleanup false push) tr0 (Ok ok) evs ->
    split_at is_merge evs = Some (pre, ERun argv (Some cp), post) ->
    returncode cp <> 0%Z ->
    conflict_detected cp = true ->
    fully_committed post \/ fully_rolled_back post.

(** The specification of [ship_all] on a repository that answers by
    command line alone, [git].  The parent of a worktree: the native
    entry, else [main], else [master]. *)
Definition resolveParentBranch (git : list string -> option CompletedProcess)
  (wt : Worktree) : option string :=
  if succeeded (git (config_argv wt))
  then Some (PyStr.strip (output (git (config_argv wt))))
  else if succeeded (git (show_ref_argv "main")) then Some "main"
  else if succeeded (git (show_ref_argv "master")) then Some "master"
  else None.

(** The forward commit count from [parent] to [b]. *)
Definition commitsAhead (git : list string -> option CompletedProcess)
  (parent b : string) : option Z :=
  if succeeded (git (rev_list_argv parent b))
  then PyStr.int (PyStr.strip (output (git (rev_list_argv parent b))))
  else None.

Definition branch_or_empty (wt : Worktree) : string :=
  match branch wt with
  | Some b => b
  | None => ""
  end.

(** A worktree is ready to ship: it is on a branch other than the trunks,
    not detached, its parent resolves and it is ahead of it. *)
Definition ready (git : list string -> option CompletedProcess)
  (wt : Worktree) : bool :=
  negb (String.eqb (branch_or_empty wt) "")
  && negb (is_trunk (branch_or_empty wt))
  && negb (detached wt)
  && match resolveParentBranch git wt with
     | None | Some EmptyString => false
     | Some parent =>
         match commitsAhead git parent (branch_or_empty wt) with
         | Some n => (0 <? n)%Z
         | None => false
         end
     end.

(** The number of prompts and of confirmations of a history. *)
Fixpoint count_prompts (tr : Trace) : nat :=
  match tr with
  | [] => 0
  | EPrompt _ _ :: r => S (count_prompts r)
  | _ :: r => count_prompts r
  end.

Fixpoint count_confirms (tr : Trace) : nat :=
  match tr with
  | [] => 0
  | EConfirm _ _ :: r => S (count_confirms r)
  | _ :: r => count_confirms r
  end.

(** The lines that open a block of the porcelain listing, and their paths. *)
Definition is_header (line : string) : bool := PyStr.startswith "worktree " line.

Definition header_paths (lines : list string) : list string :=
  map field1 (filter is_header lines).

(** The paths of the dicts that have one. *)
Fixpoint raw_paths (l : list RawWorktree) : list string :=
  match l with
  | [] => []
  | wt :: r =>
      match raw_path wt with
      | Some p => p :: raw_paths r
      | None => raw_paths r
      end
  end.

(** An attribute line of a block. *)
Definition is_attribute (line : string) : bool :=
  PyStr.startswith "HEAD " line || PyStr.startswith "branch " line
  || PyStr.startswith "detached" line.

(** Every attribute line follows the header of its block: [in_block] holds
    between a header and the next blank line. *)
Fixpoint attributes_follow_header (in_block : bool) (lines : list string) : bool :=
  match lines with
  | [] => true
  | line :: more =>
      if is_header line then attributes_follow_header true more
      else if is_attribute line
           then in_block && attributes_follow_header in_block more
      else if String.eqb line "" then attributes_follow_header false more
      else attributes_follow_header in_block more
  end.

(* ================================================================== *)
(** * Vocabulary of the properties *)
(* ================================================================== *)

Section Vocabulary.

Variable E : Env.
Variable root_dir : PyPath.Path.
Variable git : list string -> option CompletedProcess.

(** The paths held by a parse state: those of the finished dicts, then
    that of the dict being filled. *)
Definition state_paths (st : list RawWorktree * RawWorktree) : list string :=
  (raw_paths (fst st) ++ raw_paths [snd st])%list.

(** The parse state agrees with the block structure: the finished dicts
    have a path, inside a block the current dict has one, and outside a
    block it is empty. *)
Definition state_ok (in_block : bool) (st : list RawWorktree * RawWorktree) : Prop :=
  Forall (fun wt => raw_path wt <> None) (fst st)
  /\ (in_block = true -> raw_path (snd st) <> None)
  /\ (in_block = false -> truthy (snd st) = false).

(** Every event that [m] adds to the history satisfies [P]. *)
Definition emits {A} (P : Event -> Prop) (m : M A) : Prop :=
  forall tr r tr', m tr = (r, tr') ->
    exists evs, tr' = (tr ++ evs)%list /\ Forall P evs.

(** [m] has no unbounded loop: it never runs out of fuel. *)
Definition total {A} (m : M A) : Prop := forall tr, fst (m tr) <> OutOfFuel.

(** [m] always returns a value: it neither raises nor runs out of fuel. *)
Definition returns {A} (m : M A) : Prop := forall tr, exists a, fst (m tr) = Ok a.

(** The name the metadata pass derives from a path: the last segment, or
    [main] for the root worktree. *)
Definition derived_name (p : string) : string :=
  if PyPath.eqb (PyPath.of_string p) root_dir then "main"
  else PyPath.name (PyPath.of_string p).

(** The steps of [merge_branch] that follow the merge command, whose
    answer is [result]. *)
Definition after_merge (fuel : nat) (branch_name parent_branch backup_ref : string)
  (target_wt : Worktree) (cleanup push : bool) (result : CompletedProcess)
  : M bool :=
  if negb (returncode result =? 0)%Z then
    if conflict_detected result then
      _handle_merge_conflicts E fuel branch_name parent_branch backup_ref
    else
      print ("[red]Merge failed: " ++ stderr result ++ "[/red]") ;;
      _rollback_merge E parent_branch backup_ref ;;
      ret false
  else
    print ("[green]✅ Successfully merged " ++ branch_name
           ++ " into " ++ parent_branch ++ "[/green]") ;;
    (if cleanup then _cleanup_merged_branch E target_wt branch_name
     else ret tt) ;;
    (if push then
       push_result <- run E push_argv ;;
       if negb (returncode push_result =? 0)%Z
       then print ("[yellow]Warning: Failed to push changes: "
                   ++ stderr push_result ++ "[/yellow]")
       else print "[green]✅ Changes pushed to remote[/green]"
     else
       print "[cyan]💾 Changes merged locally. Use 'git push' to push to remote[/cyan]") ;;
    run E (delete_branch_argv backup_ref) ;;
    ret true.

(** The steps of [merge_branch] from the backup on. *)
Definition after_resolve (fuel : nat) (branch_name parent_branch : string)
  (target_wt : Worktree) (cleanup push : bool) (backup_ref : string) : M bool :=
  run E (backup_argv backup_ref parent_branch) ;;
  print ("[cyan]📁 Created backup: " ++ backup_ref ++ "[/cyan]") ;;
  print ("[yellow]Merging " ++ branch_name ++ " into "
         ++ parent_branch ++ "...[/yellow]") ;;
  result <- run E (checkout_argv parent_branch) ;;
  if negb (returncode result =? 0)%Z then
    print ("[red]Failed to checkout " ++ parent_branch ++ ": "
           ++ stderr result ++ "[/red]") ;;
    ret false
  else
    result <- run E (merge_argv branch_name) ;;
    after_merge fuel branch_name parent_branch backup_ref target_wt cleanup push
                result.

Definition not_found_msg (b : string) : string :=
  "[red]Branch " ++ b ++ " not found in worktrees[/red]".

Definition no_parent_msg (b : string) : string :=
  "[red]Cannot determine parent branch for " ++ b ++ "[/red]".

Definition merge_error_msg (e : exn) : string :=
  "[red]Error during merge: " ++ exn_str E e ++ "[/red]".

(** The events that can follow the merge command: messages, questions to
    the user, the shell, and these commands. *)
Definition follows_merge (backup_ref : string) (wt : Worktree) (b : string)
  (e : Event) : Prop :=
  match e with
  | ERun argv _ =>
      In argv [["git"; "diff"; "--name-only"; "--diff-filter=U"];
               ["git"; "mergetool"]; commit_argv; status_argv;
               merge_abort_argv; ["git"; "diff"];
               reset_argv backup_ref; delete_branch_argv backup_ref;
               worktree_remove_argv (PyPath.of_string (path wt));
               delete_branch_argv b; push_argv]
  | _ => True
  end.

(** An event that, if it is a [reset], is the hard reset to [backup_ref]. *)
Definition reset_uses (backup_ref : string) (e : Event) : Prop :=
  forall g rest r, e = ERun (g :: "reset" :: rest) r ->
    g :: "reset" :: rest = reset_argv backup_ref.

Definition created_msg (backup_ref : string) : string :=
  "[cyan]📁 Created backup: " ++ backup_ref ++ "[/cyan]".

Definition merging_msg (b parent : string) : string :=
  "[yellow]Merging " ++ b ++ " into " ++ parent ++ "...[/yellow]".

Definition checkout_failed_msg (parent : string) (c : CompletedProcess) : string :=
  "[red]Failed to checkout " ++ parent ++ ": " ++ stderr c ++ "[/red]".

(** The events from the backup to the merge command. *)
Definition prelude (b parent backup_ref : string)
  (x : option CompletedProcess) : list Event :=
  [ERun (backup_argv backup_ref parent) x;
   EPrint (created_msg backup_ref);
   EPrint (merging_msg b parent)].

(** The events of the pipeline from the backup on: messages and
    questions, the checkout of the parent, the merge of the given name,
    and what can follow the merge. *)
Definition pipeline_event (b parent backup_ref : string) (wt : Worktree)
  (e : Event) : Prop :=
  (exists a, e = ERun (checkout_argv parent) a)
  \/ (exists a, e = ERun (merge_argv b) a)
  \/ follows_merge backup_ref wt b e.

Definition rolling_msg : string := "[yellow]🔄 Rolling back merge...[/yellow]".

Definition restored_msg (backup_ref : string) : string :=
  "[green]✅ Rollback complete. Restored to " ++ backup_ref ++ "[/green]".

Definition rollback_error_msg (e : exn) : string :=
  "[red]Error during rollback: " ++ exn_str E e ++ "[/red]".

Definition manual_msg (backup_ref : string) : string :=
  "[yellow]Manual rollback: git reset --hard " ++ backup_ref ++ "[/yellow]".

(** What a rollback does, given the answers [y] to the reset and [z] to
    the deletion of the backup ref. *)
Definition rollback_events (backup_ref : string)
  (y z : option CompletedProcess) : list Event :=
  [EPrint rolling_msg; ERun (reset_argv backup_ref) y]
  ++ match y with
     | None => [EPrint (rollback_error_msg OSError); EPrint (manual_msg backup_ref)]
     | Some _ =>
         [EPrint (restored_msg backup_ref); ERun (delete_branch_argv backup_ref) z]
         ++ match z with
            | None => [EPrint (rollback_error_msg OSError);
                       EPrint (manual_msg backup_ref)]
            | Some _ => []
            end
     end.





Definition merge_failed_msg (cp : CompletedProcess) : string :=
  "[red]Merge failed: " ++ stderr cp ++ "[/red]".









(** The outcome of the conflict menu, read off the events it added. *)
Definition conflict_outcome (backup_ref : string) (r : Result bool)
  (evs : list Event) : Prop :=
  match r with
  | Ok true => committed evs \/ manually_confirmed evs
  | Ok false => rolled_back backup_ref evs \/ left_unsettled evs
  | _ => True
  end.

(** A computation has a conflict outcome when each of its runs adds events
    that meet [conflict_outcome]. *)
Definition has_outcome (backup_ref : string) (m : M bool) : Prop :=
  forall tr r tr', m tr = (r, tr') ->
    exists evs, tr' = (tr ++ evs)%list /\ conflict_outcome backup_ref r evs.

Definition scanning_msg : string := "[yellow]Scanning for merged branches...[/yellow]".

(** The candidate made of a ready worktree. *)
Definition candidate_of (wt : Worktree) : ShipCandidate :=
  let parent := match resolveParentBranch git wt with
                | Some parent => parent
                | None => ""
                end in
  mkShip (branch_or_empty wt) wt parent
         (match commitsAhead git parent (branch_or_empty wt) with
          | Some n => n
          | None => 0%Z
          end).

End Vocabulary.

(* ================================================================== *)
(** * Test fixtures *)
(* ================================================================== *)

Module Fixture.

Definition lines (l : list string) : string :=
  PyStr.join (String PyStr.nl "") l ++ String PyStr.nl "".

Definition argv_eqb (a b : list string) : bool :=
  if list_eq_dec string_dec a b then true else false.

Definition ok (out : string) : option CompletedProcess := Some (mkCP 0 out "").
Definition failed (rc : Z) (err : string) : option CompletedProcess :=
  Some (mkCP rc "" err).

(** A world whose git answers by command line alone, whose user gives the
    scripted [choices] and [confirms] in order (and then closes the input),
    and whose file system has exactly the directories [dirs]. *)
Definition world (git : list string -> option CompletedProcess)
  (choices : list string) (confirms : list bool) (dirs : list string) : Env :=
  mkEnv (fun _ argv => git argv)
        (fun tr _ => nth_error confirms (count_confirms tr))
        (fun tr _ => nth_error choices (count_prompts tr))
        (fun _ => "20240101-120000")
        (fun _ => "/repo")
        (fun _ _ => None)
        (fun _ p => existsb (String.eqb p) dirs)
        (fun _ _ _ => [])
        (fun _ => "error").

Definition repo_root : PyPath.Path := PyPath.of_string "/repo".

(** The main worktree and one linked worktree whose directory [feat-x]
    differs from its branch [feature/x]. *)
Definition listing_two : string :=
  lines ["worktree /repo"; "HEAD 1111"; "branch refs/heads/main"; "";
         "worktree /repo/worktrees/feat-x"; "HEAD 2222";
         "branch refs/heads/feature/x"; ""].

(** The main worktree, a linked worktree [a] and a worktree [b] nested
    under [a/worktrees], in the order of their paths. *)
Definition listing_nested : string :=
  lines ["worktree /repo"; "HEAD 1111"; "branch refs/heads/main"; "";
         "worktree /repo/worktrees/a"; "HEAD 2222"; "branch refs/heads/a"; "";
         "worktree /repo/worktrees/a/worktrees/b"; "HEAD 3333";
         "branch refs/heads/b"; ""].

(** git answering from a table of command lines, and with [default] to
    any other command. *)
Fixpoint git_table (default : option CompletedProcess)
  (table : list (list string * option CompletedProcess))
  (argv : list string) : option CompletedProcess :=
  match table with
  | [] => default
  | (a, r) :: more => if argv_eqb a argv then r else git_table default more argv
  end.

(** A repository with the two worktrees of [listing_two], a [main] branch
    and no native parent entry, in which every other command succeeds. *)
Definition git_all_ok (argv : list string) : option CompletedProcess :=
  git_table (ok "done")
    [(worktree_list_argv, ok listing_two);
     (["git"; "config"; "git-town.branch.feature/x.parent"], failed 1 "");
     (show_ref_argv "master", failed 1 "")]
    argv.

(** The same repository when merging [feature/x] into [main] conflicts
    and no merge tool is configured. *)
Definition conflict_output : CompletedProcess :=
  mkCP 1 "CONFLICT (content): Merge conflict in app.py" "".

Definition git_conflict (argv : list string) : option CompletedProcess :=
  git_table (failed 1 "fatal")
    [(worktree_list_argv, ok listing_two);
     (["git"; "config"; "git-town.branch.feature/x.parent"], failed 1 "");
     (show_ref_argv "main", ok "1111 refs/heads/main");
     (backup_argv "backup/feature/x-20240101-120000" "main", ok "");
     (checkout_argv "main", ok "");
     (merge_argv "feature/x", Some conflict_output);
     (["git"; "diff"; "--name-only"; "--diff-filter=U"], ok (lines ["app.py"]));
     (reset_argv "backup/feature/x-20240101-120000", ok "");
     (delete_branch_argv "backup/feature/x-20240101-120000", ok "");
     (merge_abort_argv, ok "")]
    argv.

(** The user picks the merge tool, which fails. *)
Definition tool_fails : Env := world git_conflict ["1"] [] [].

(** The user picks abort. *)
Definition user_aborts : Env := world git_conflict ["3"] [] [].

(** The part of a history after the merge command. *)
Definition after_the_merge (evs : list Event) : list Event :=
  match split_at is_merge evs with
  | Some (_, _, post) => post
  | None => []
  end.

Definition before_the_merge (evs : list Event) : list Event :=
  match split_at is_merge evs with
  | Some (pre, _, _) => pre
  | None => []
  end.

(** A repository with a worktree [b] nested under the worktree [a]; both
    branches are ahead of [main].  [listing] is the porcelain listing. *)
Definition git_nested (listing : string) (argv : list string)
  : option CompletedProcess :=
  git_table (failed 1 "fatal")
    [(worktree_list_argv, ok listing);
     (show_ref_argv "main", ok "1111 refs/heads/main");
     (rev_list_argv "main" "a", ok (lines ["3"]));
     (rev_list_argv "main" "b", ok (lines ["1"]))]
    argv.

Definition nested_dirs : list string :=
  ["/repo/worktrees"; "/repo/worktrees/a/worktrees"].

(** The listing in the order of the paths: the parent [a] before [b]. *)
Definition nested_world : Env := world (git_nested listing_nested) [] [] nested_dirs.

(** The same worktrees listed with the child [b] before its parent [a]. *)
Definition listing_child_first : string :=
  lines ["worktree /repo"; "HEAD 1111"; "branch refs/heads/main"; "";
         "worktree /repo/worktrees/a/worktrees/b"; "HEAD 3333";
         "branch refs/heads/b"; "";
         "worktree /repo/worktrees/a"; "HEAD 2222"; "branch refs/heads/a"; ""].

Definition child_first_world : Env :=
  world (git_nested listing_child_first) [] [] nested_dirs.

(** A repository that knows the branch [feature/x] but no ref named
    [feat-x], the directory of its worktree; every other command
    succeeds. *)
Definition git_by_branch (argv : list string) : option CompletedProcess :=
  git_table (ok "")
    [(worktree_list_argv, ok listing_two);
     (["git"; "config"; "git-town.branch.feature/x.parent"], failed 1 "");
     (show_ref_argv "main", ok "1111 refs/heads/main");
     (merge_argv "feat-x",
      failed 1 "merge: feat-x - not something we can merge")]
    argv.

Definition by_branch_world : Env := world git_by_branch [] [] [].

(** The two runs, evaluated. *)
Definition tool_fails_run : Result bool * Trace :=
  Eval vm_compute in merge_branch tool_fails repo_root 3 "feature/x" true false true [].

Definition user_aborts_run : Result bool * Trace :=
  Eval vm_compute in merge_branch user_aborts repo_root 3 "feature/x" true false true [].

(** Merging that worktree by its branch and by its directory. *)
Definition by_branch_run : Result bool * Trace :=
  Eval vm_compute in
    merge_branch by_branch_world repo_root 1 "feature/x" true false true [].

Definition by_directory_run : Result bool * Trace :=
  Eval vm_compute in
    merge_branch by_branch_world repo_root 1 "feat-x" true false true [].

Definition listing_run : Result (list Worktree) * Trace :=
  Eval vm_compute in get_worktrees by_branch_world repo_root [].

Definition listed : list Worktree :=
  match fst listing_run with
  | Ok wts => wts
  | _ => []
  end.

Definition feature_wt : Worktree :=
  mkWorktree "/repo/worktrees/feat-x" (Some "2222") (Some "feature/x") false
             "feat-x" false false None [].

(** A repository with a native parent entry [develop] for [feature/x] and
    both trunks. *)
Definition git_town (argv : list string) : option CompletedProcess :=
  git_table (ok "")
    [(["git"; "config"; "git-town.branch.feature/x.parent"], ok (lines ["develop"]))]
    argv.

(** A repository where [feature/x] is merged into the current branch. *)
Definition git_merged (argv : list string) : option CompletedProcess :=
  git_table (failed 1 "fatal")
    [(merged_argv, ok (lines ["  feature/x"; "* main"]));
     (worktree_list_argv, ok listing_two)]
    argv.

Definition merged_world : Env := world git_merged [] [] [].

Definition dry_clean_run : Result (list string) * Trace :=
  Eval vm_compute in auto_clean merged_world repo_root true [].

End Fixture.

(* ================================================================== *)
(** * Vocabulary of the further properties *)
(* ================================================================== *)

Section FurtherVocabulary.

Variable E : Env.
Variable root_dir : PyPath.Path.

(** The directory two levels above [child_path] is [p]: the test of the
    children loop of [get_worktrees]. *)
Definition nested_in (p : PyPath.Path) (child_path : string) : bool :=
  PyPath.eqb (PyPath.parent (PyPath.parent (PyPath.of_string child_path))) p.

(** The worktree at [ps] is searched for children: it is not the root
    worktree and it has a [worktrees] directory. *)
Definition hosts_children (tr : Trace) (ps : string) : bool :=
  negb (PyPath.eqb (PyPath.of_string ps) root_dir)
  && env_exists E tr (PyPath.to_string (PyPath.child (PyPath.of_string ps) "worktrees")).

(** No worktree that is searched for children is listed before a worktree
    nested in it. *)
Fixpoint children_listed_first (tr : Trace) (paths : list string) : bool :=
  match paths with
  | [] => true
  | p :: rest =>
      (negb (hosts_children tr p)
       || forallb (fun c => negb (nested_in (PyPath.of_string p) c)) rest)
      && children_listed_first tr rest
  end.

(** The names of the worktrees of [wts] nested in the worktree at [ps]. *)
Definition nested_names (ps : string) (wts : list Worktree) : list string :=
  map name (filter (fun c => nested_in (PyPath.of_string ps) (path c)) wts).

(** Every child named by a worktree of [wts] is the name of a worktree
    listed before it. *)
Definition children_come_first (wts : list Worktree) : Prop :=
  forall l1 wt l2, wts = (l1 ++ wt :: l2)%list ->
    forall c, In c (children wt) -> exists w, In w l1 /\ name w = c.



Definition preview_header (b p : string) : Event :=
  EPrint ("[cyan]📋 Merge Preview: " ++ b ++ " → " ++ p ++ "[/cyan]").

Definition log_argv (p b : string) : list string :=
  ["git"; "log"; p ++ ".." ++ b; "--oneline"; "--graph"].

Definition name_status_argv (p b : string) : list string :=
  ["git"; "diff"; p ++ "..." ++ b; "--name-status"].

(** [result.returncode == 0 and result.stdout.strip()] *)
Definition has_text (c : CompletedProcess) : bool :=
  (returncode c =? 0)%Z && negb (String.eqb (PyStr.strip (stdout c)) "").

Definition proceed_question : string :=
  String PyStr.nl "[cyan]Proceed with merge?[/cyan]".

Definition nothing_to_merge_msg : string := "[yellow]No commits to merge[/yellow]".

Definition preview_error_msg (e : exn) : string :=
  "[red]Error showing preview: " ++ exn_str E e ++ "[/red]".

(** The lines the preview prints for the answer [d] of the diff. *)
Definition preview_files (d : CompletedProcess) : list Event :=
  if has_text d then
    EPrint (String PyStr.nl "[yellow]📁 Files that will be changed:[/yellow]")
    :: map (fun line => EPrint (preview_file_line line))
           (filter (fun line => negb (String.eqb line ""))
                   (PyStr.split PyStr.nl (PyStr.strip (stdout d))))
  else [].




Definition ship_question (n : nat) : string :=
  "Ship all " ++ PyStr.of_nat n ++ " branches?".

Definition ship_scanning_msg : string := "[yellow]Scanning for ready branches...[/yellow]".

(** The body of the shipping loop of [ship_all]. *)
Definition ship_one (fuel : nat) (shipped : list string) (c : ShipCandidate)
  : M (list string) :=
  print ("[yellow]Shipping " ++ ship_branch c ++ "...[/yellow]") ;;
  ok <- merge_branch E root_dir fuel (ship_branch c) true false true ;;
  if ok then ret (shipped ++ [ship_branch c])%list
  else
    print ("[red]Failed to ship " ++ ship_branch c ++ "[/red]") ;;
    ret shipped.

(** A branch name as git prints it: not empty, without blanks and
    without the marker [*]. *)
Definition plain_char (c : ascii) : bool :=
  negb (PyStr.is_space c) && negb (Ascii.eqb c "*").

Fixpoint plain_chars (s : string) : bool :=
  match s with
  | EmptyString => true
  | String c t => plain_char c && plain_chars t
  end.

Definition plain (s : string) : bool :=
  negb (String.eqb s "") && plain_chars s.

Definition tree_label (t : Tree) : string := match t with Node l _ => l end.

Definition tree_title : string := "🌳 [bold]Worktrees[/bold]".

(** No bracket of [s] opens a match. *)
Fixpoint no_match (s : string) : bool :=
  match s with
  | EmptyString => true
  | String c t =>
      (if Ascii.eqb c "[" then
         match Fallback.closing t with Some _ => false | None => true end
       else true)
      && no_match t
  end.

(** [s] without the character [c]. *)
Fixpoint lacks (c : ascii) (s : string) : bool :=
  match s with
  | EmptyString => true
  | String d t => negb (Ascii.eqb d c) && lacks c t
  end.

(** A text made of blanks. *)
Fixpoint blank (s : string) : bool :=
  match s with
  | EmptyString => true
  | String c t => PyStr.is_space c && blank t
  end.

(** The four states a server can be reported in. *)
Definition server_states : list string :=
  ["not configured"; "running"; "stopped"; "not started"].

(** A [git reset]. *)
Definition is_reset (e : Event) : bool :=
  match e with
  | ERun (_ :: sub :: _) _ => String.eqb sub "reset"
  | _ => false
  end.

(** The removal of a worktree, or a push. *)
Definition is_removal_or_push (e : Event) : bool :=
  match e with
  | ERun (_ :: sub :: rest) _ =>
      String.eqb sub "push"
      || (String.eqb sub "worktree"
          && match rest with
             | a :: _ => String.eqb a "remove"
             | [] => false
             end)
  | _ => false
  end.

(** An event that is neither. *)
Definition harmless (e : Event) : Prop :=
  is_reset e = false /\ is_removal_or_push e = false.

(** What may follow a merge command that answered [m]: no reset after a
    success, no removal and no push after a failure. *)
Definition suits (m : CompletedProcess) (e : Event) : Prop :=
  if (returncode m =? 0)%Z then is_reset e = false
  else is_removal_or_push e = false.

Definition choose_question : string := "[cyan]Choose option[/cyan]".

Definition open_shell_question : string :=
  String PyStr.nl "[cyan]Open shell for manual resolution?[/cyan]".

(** The events of the manual path of the conflict menu after history
    [tr]: the choice of option 2 and the steps that are printed; then the
    question about the shell, accepted, and the shell; then the
    confirmation that the conflicts are resolved and committed. *)
Definition manual_chosen (b : string) : list Event :=
  [EPrompt choose_question (Some "2");
   EPrint (String PyStr.nl "[yellow]📝 Manual Resolution Steps:[/yellow]");
   EPrint "1. Edit conflicted files to resolve conflicts";
   EPrint "2. Remove conflict markers (<<<<<<, ======, >>>>>>)";
   EPrint "3. git add <resolved-files>";
   EPrint "4. git commit";
   EPrint ("5. Re-run: wt-merge-branch " ++ b)].

Definition shell_opened (b : string) (tr : Trace) : list Event :=
  let asked :=
    (manual_chosen b
     ++ [EConfirm open_shell_question (Some true);
         EPrint "[yellow]Opening shell. Exit when conflicts are resolved.[/yellow]"])%list in
  (asked
   ++ [ESystem (match env_getenv E (tr ++ asked)%list "SHELL" with
                | Some sh => sh
                | None => "/bin/bash"
                end)])%list.

Definition manual_path (b : string) (tr : Trace) : list Event :=
  (shell_opened b tr ++ [EConfirm resolved_question (Some true)])%list.

Definition completed_msg : string := "[green]✅ Merge completed successfully![/green]".

Definition still_conflicts_msg : string :=
  "[yellow]Conflicts still exist. Please resolve them.[/yellow]".

(** A console that accepts every text. *)
Definition accepts_all (text : string) : option string := None.

End FurtherVocabulary.

(* ================================================================== *)
(** * Further fixtures *)
(* ================================================================== *)

Module Scenario.

Import Fixture.




(** The repository of [listing_two] with no native parent entry and
    neither [main] nor [master]. *)
Definition git_orphan (argv : list string) : option CompletedProcess :=
  git_table (failed 1 "") [(worktree_list_argv, ok listing_two)] argv.

Definition orphan_world : Env := world git_orphan [] [] [].




(** A preview that the user accepts. *)
Definition preview_world : Env := world git_all_ok [] [true] [].

Definition preview_run : Result bool * Trace :=
  Eval vm_compute in _preview_merge preview_world "feature/x" "main" [].

(** The merge of [feature/x] asked for with [preview=True], and accepted
    at the prompt. *)
Definition accepted_preview_run : Result bool * Trace :=
  Eval vm_compute in
    merge_branch preview_world repo_root 3 "feature/x" true true true [].





(** A repository where [feature/x] is two commits ahead of [main] and
    every command succeeds; the user agrees to ship. *)
Definition git_ready (argv : list string) : option CompletedProcess :=
  git_table (ok "")
    [(worktree_list_argv, ok listing_two);
     (["git"; "config"; "git-town.branch.feature/x.parent"], failed 1 "");
     (rev_list_argv "main" "feature/x", ok (lines ["2"]))]
    argv.

Definition ship_world : Env := world git_ready [] [true] [].

Definition ship_run : Result (list string) * Trace :=
  Eval vm_compute in ship_all ship_world repo_root 1 false [].

(** The worktrees of the nested repository, the child listed first. *)
Definition nested_run : Result (list Worktree) * Trace :=
  Eval vm_compute in get_worktrees child_first_world repo_root [].

Definition nested_listed : list Worktree :=
  match fst nested_run with
  | Ok wts => wts
  | _ => []
  end.

(** The user quits the TUI. *)
Definition quit_world : Env := world git_all_ok ["q"] [] [].

Definition quit_run : Result bool * Trace :=
  Eval vm_compute in handle_input quit_world repo_root 1 [].

(** The commands of [wt_commands.py] on the repositories above. *)
Definition merge_command_run : Result Z * Trace :=
  Eval vm_compute in
    wt_merge_branch by_branch_world 1 (mkMergeArgs "feature/x" false false false) [].

(** A host on which every server has a pid file and runs. *)
Definition busy_host : MCP.Host :=
  MCP.mkHost (fun _ => true) (fun _ => Some (lines ["4242"])) (fun _ => MCP.Delivered).

Definition busy_rows : option (list (string * string)) :=
  Eval vm_compute in MCP.create_mcp_status_table busy_host.

Definition busy_table : list (string * string) :=
  match busy_rows with
  | Some rows => rows
  | None => []
  end.

(** The first removal or push of the merge by branch name, with what
    comes before and after it. *)
Definition removal_step : list Event * Event * list Event :=
  match split_at is_removal_or_push (snd by_branch_run) with
  | Some s => s
  | None => ([], EPrint "", [])
  end.







(** The repository of [git_merged] as git lists it from the main
    worktree: the branch [feature/x], checked out in the worktree
    [feat-x], carries the marker [+]. *)
Definition git_linked (argv : list string) : option CompletedProcess :=
  git_table (failed 1 "fatal")
    [(merged_argv, ok (lines ["+ feature/x"; "* main"]));
     (worktree_list_argv, ok listing_two)]
    argv.

Definition linked_world : Env := world git_linked [] [] [].

Definition linked_clean_run : Result (list string) * Trace :=
  Eval vm_compute in auto_clean linked_world repo_root true [].

(** The repository of the conflict when a stale lock keeps git from
    touching the index: neither the abort of the merge nor the hard reset
    succeeds.  The user picks abort. *)
Definition locked_answer : CompletedProcess :=
  mkCP 128 "" "fatal: Unable to create '/repo/.git/index.lock': File exists.".

Definition git_locked (argv : list string) : option CompletedProcess :=
  git_table (git_conflict argv)
    [(merge_abort_argv, Some locked_answer);
     (reset_argv "backup/feature/x-20240101-120000", Some locked_answer)]
    argv.

Definition failed_abort_world : Env := world git_locked ["3"] [] [].

Definition failed_abort_run : Result bool * Trace :=
  Eval vm_compute in
    merge_branch failed_abort_world repo_root 3 "feature/x" true false true [].

(** The offset of the first occurrence of [sub] in [s]. *)
Fixpoint index_of (sub s : string) : option nat :=
  if String.prefix sub s then Some 0
  else match s with
       | EmptyString => None
       | String _ t => option_map S (index_of sub t)
       end.

(** Rich on the texts of the next scenario, none of which opens a tag
    [old]: a closing tag [[/old]] matches no open tag, and the message
    of the error names the tag and its offset. *)
Definition unmatched_old (text : string) : option string :=
  match index_of "[/old]" text with
  | Some n => Some ("closing tag '[/old]' at position " ++ PyStr.of_nat n
                    ++ " doesn't match any open tag")
  | None => None
  end.

(** A merge that git refuses because it would overwrite an untracked
    file, whose path holds a bracket and a slash. *)
Definition untracked_answer : CompletedProcess :=
  mkCP 1 ""
    (lines ["error: The following untracked working tree files would be overwritten by merge:";
            String "009"%char "docs/[/old]/notes.md";
            "Please move or remove them before you merge.";
            "Aborting"]).

Definition git_untracked (argv : list string) : option CompletedProcess :=
  git_table (ok "")
    [(worktree_list_argv, ok listing_two);
     (["git"; "config"; "git-town.branch.feature/x.parent"], failed 1 "");
     (show_ref_argv "main", ok "1111 refs/heads/main");
     (merge_argv "feature/x", Some untracked_answer)]
    argv.

(** [str(e)] of a [MarkupError] is its message. *)
Definition with_messages (E : Env) : Env :=
  mkEnv (env_run E) (env_confirm E) (env_prompt E) (env_now E) (env_cwd E)
        (env_getenv E) (env_exists E) (env_glob E)
        (fun e => match e with
                  | MarkupError message => message
                  | _ => exn_str E e
                  end).

Definition untracked_world : Env := with_messages (world git_untracked [] [] []).

(** The merge of [feature/x] in that repository, with the console of
    rich and with a console that accepts every text. *)
Definition rich_failure_run : Result bool * Trace :=
  Eval vm_compute in
    Rich.merge_branch untracked_world repo_root unmatched_old 1 "feature/x"
                      true false true [].

Definition plain_failure_run : Result bool * Trace :=
  Eval vm_compute in
    merge_branch untracked_world repo_root 1 "feature/x" true false true [].

(** The repository of the conflict when both branches added [app.py]:
    the user picks the manual path and confirms twice, and
    [git status --porcelain] still lists the file as unmerged. *)
Definition both_added : CompletedProcess := mkCP 0 (lines ["AA app.py"]) "".

Definition git_both_added (argv : list string) : option CompletedProcess :=
  git_table (git_conflict argv) [(status_argv, Some both_added)] argv.

Definition both_added_world : Env := world git_both_added ["2"] [true; true] [].

Definition both_added_run : Result bool * Trace :=
  Eval vm_compute in
    merge_branch both_added_world repo_root 3 "feature/x" true false true [].

(** The repository of [git_all_ok] when the log of [feature/x] holds a
    commit whose subject quotes a closing tag; the preview is asked for
    with the console of rich. *)
Definition git_tagged_log (argv : list string) : option CompletedProcess :=
  git_table (git_all_ok argv)
    [(log_argv "main" "feature/x",
      ok (lines ["* 3f2a1c9 Drop the [/old] redirects"]))]
    argv.

Definition tagged_log_world : Env := with_messages (world git_tagged_log [] [true] []).

Definition rich_preview_run : Result bool * Trace :=
  Eval vm_compute in
    Rich.merge_branch tagged_log_world repo_root unmatched_old 1 "feature/x"
                      true true true [].

End Scenario.

(* ================================================================== *)
(** * Checks of the string and path models *)
(* ================================================================== *)

Example strip_porcelain :
  PyStr.strip (String PyStr.nl " worktree /r" ++ String PyStr.nl (String PyStr.nl ""))
  = "worktree /r".
Proof. reflexivity. Qed.

Example split_lines :
  PyStr.split PyStr.nl ("a" ++ String PyStr.nl (String PyStr.nl "b")) = ["a"; ""; "b"].
Proof. reflexivity. Qed.

Example split1_header : PyStr.split1 PyStr.space "worktree /a b" = ("worktree", Some "/a b").
Proof. reflexivity. Qed.

Example replace_ref :
  PyStr.replace "refs/heads/" "" "refs/heads/feat/refs/heads/x" = "feat/x".
Proof. reflexivity. Qed.

Example int_examples :
  PyStr.int " 12 " = Some 12%Z /\ PyStr.int "1_0" = Some 10%Z /\
  PyStr.int "-3" = Some (-3)%Z /\ PyStr.int "1__0" = None /\
  PyStr.int "" = None /\ PyStr.int "_1" = None /\ PyStr.int "1_" = None /\
  PyStr.int "0" = Some 0%Z.
Proof. repeat split; reflexivity. Qed.

Example path_examples :
  PyPath.name (PyPath.of_string "/repo/worktrees/feat-a/") = "feat-a" /\
  PyPath.to_string (PyPath.of_string "/repo//worktrees/./x") = "/repo/worktrees/x" /\
  PyPath.name (PyPath.of_string "/") = "" /\
  PyPath.to_string (PyPath.parent (PyPath.parent (PyPath.of_string "/r/worktrees/a"))) = "/r" /\
  PyPath.stem_of_name "issue-12.md" = "issue-12" /\
  PyPath.stem_of_name ".md" = ".md".
Proof. repeat split; reflexivity. Qed.

Lemma prefix_split (p s : string) :
  String.prefix p s = true -> s = p ++ PyStr.drop (String.length p) s.
Proof.
  revert s. induction p as [|a p IH]; intros s H; simpl.
  - reflexivity.
  - destruct s as [|b s]; simpl in H; [discriminate|].
    destruct (ascii_dec a b) as [->|]; [|discriminate].
    f_equal. apply IH, H.
Qed.

(** After a header prefix the second field of [split(' ', 1)] is the rest
    of the line. *)
Lemma field1_header (line : string) :
  is_header line = true -> line = "worktree " ++ field1 line.
Proof.
  intros H. apply prefix_split in H.
  rewrite H at 2. rewrite H at 1. reflexivity.
Qed.

(* ================================================================== *)
(** * The porcelain parser *)
(* ================================================================== *)

Section Parser.

Lemma raw_paths_app (a b : list RawWorktree) :
  raw_paths (a ++ b) = (raw_paths a ++ raw_paths b)%list.
Proof.
  induction a as [|w a IH]; simpl; [reflexivity|].
  destruct (raw_path w); simpl; rewrite IH; reflexivity.
Qed.

Lemma truthy_false_no_path (wt : RawWorktree) :
  truthy wt = false -> raw_path wt = None.
Proof.
  unfold truthy. destruct (raw_path wt), (raw_head wt), (raw_branch wt),
    (raw_detached wt); intros; congruence.
Qed.

Lemma parse_line_paths (st : list RawWorktree * RawWorktree) (line : string) :
  state_paths (parse_line st line)
  = (state_paths st ++ header_paths [line])%list.
Proof.
  destruct st as [wts cur]. unfold parse_line, header_paths, is_header, state_paths.
  simpl filter.
  destruct (PyStr.startswith "worktree " line) eqn:Hw.
  - destruct (truthy cur) eqn:Ht; simpl.
    + rewrite raw_paths_app. reflexivity.
    + rewrite (truthy_false_no_path _ Ht), app_nil_r. reflexivity.
  - destruct (PyStr.startswith "HEAD " line);
      [simpl; rewrite app_nil_r; reflexivity|].
    destruct (PyStr.startswith "branch " line);
      [simpl; rewrite app_nil_r; reflexivity|].
    destruct (PyStr.startswith "detached" line);
      [simpl; rewrite app_nil_r; reflexivity|].
    destruct (String.eqb line "");
      [|simpl; rewrite app_nil_r; reflexivity].
    destruct (truthy cur) eqn:Ht; simpl.
    + rewrite raw_paths_app, !app_nil_r. reflexivity.
    + rewrite !app_nil_r. reflexivity.
Qed.

Lemma header_paths_app (a b : list string) :
  header_paths (a ++ b) = (header_paths a ++ header_paths b)%list.
Proof. unfold header_paths. rewrite filter_app, map_app. reflexivity. Qed.

Lemma fold_parse_paths (lines : list string) (st : list RawWorktree * RawWorktree) :
  state_paths (fold_left parse_line lines st)
  = (state_paths st ++ header_paths lines)%list.
Proof.
  revert st. induction lines as [|line more IH]; intros st; simpl.
  - rewrite app_nil_r. reflexivity.
  - rewrite IH, parse_line_paths, <- app_assoc.
    change (line :: more) with ([line] ++ more)%list.
    rewrite header_paths_app. reflexivity.
Qed.

(** Every header line gives exactly one dict with that path, in order. *)
Lemma parse_porcelain_paths (out : string) :
  raw_paths (parse_porcelain out) = header_paths (porcelain_lines out).
Proof.
  unfold parse_porcelain.
  pose proof (fold_parse_paths (porcelain_lines out) ([], empty_dict)) as H.
  destruct (fold_left parse_line (porcelain_lines out) ([], empty_dict))
    as [wts cur].
  unfold state_paths in H. simpl in H.
  destruct (truthy cur) eqn:Ht.
  - rewrite raw_paths_app. simpl. exact H.
  - rewrite (truthy_false_no_path _ Ht) in H. rewrite app_nil_r in H. exact H.
Qed.

Lemma state_ok_push (in_block : bool) (wts : list RawWorktree) (cur : RawWorktree) :
  state_ok in_block (wts, cur) ->
  Forall (fun wt => raw_path wt <> None)
         (if truthy cur then (wts ++ [cur])%list else wts).
Proof.
  intros (Hw & Hin & Hout). simpl in *.
  destruct (truthy cur) eqn:Ht; [|exact Hw].
  apply Forall_app. split; [exact Hw|]. constructor; [|constructor].
  destruct in_block; [apply Hin; reflexivity|].
  discriminate (Hout eq_refl).
Qed.

Lemma fold_parse_ok (lines : list string) :
  forall in_block st,
    attributes_follow_header in_block lines = true ->
    state_ok in_block st ->
    exists in_block', state_ok in_block' (fold_left parse_line lines st).
Proof.
  induction lines as [|line more IH]; intros b [wts cur] Hwf Hok.
  - exists b. exact Hok.
  - pose proof (state_ok_push _ _ _ Hok) as Hpush.
    destruct Hok as (Hw & Hin & Hout).
    simpl in Hwf, Hw, Hin, Hout. simpl fold_left.
    unfold parse_line, is_header, is_attribute in *.
    destruct (PyStr.startswith "worktree " line).
    { apply (IH true); [exact Hwf|].
      split; [exact Hpush|]. split; simpl; intros; solve [congruence | reflexivity | auto]. }
    destruct (PyStr.startswith "HEAD " line).
    { simpl in Hwf. apply andb_prop in Hwf as [-> Hwf].
      apply (IH true); [exact Hwf|].
      split; [exact Hw|]. split; simpl; intros; solve [congruence | reflexivity | auto]. }
    destruct (PyStr.startswith "branch " line).
    { simpl in Hwf. apply andb_prop in Hwf as [-> Hwf].
      apply (IH true); [exact Hwf|].
      split; [exact Hw|]. split; simpl; intros; solve [congruence | reflexivity | auto]. }
    destruct (PyStr.startswith "detached" line).
    { simpl in Hwf. apply andb_prop in Hwf as [-> Hwf].
      apply (IH true); [exact Hwf|].
      split; [exact Hw|]. split; simpl; intros; solve [congruence | reflexivity | auto]. }
    simpl in Hwf. destruct (String.eqb line "").
    { apply (IH false); [exact Hwf|].
      destruct (truthy cur) eqn:Ht.
      - split; [exact Hpush|]. split; simpl; intros; solve [congruence | reflexivity | auto].
      - split; [exact Hw|]. split; simpl; intros; solve [congruence | reflexivity | auto]. }
    apply (IH b); [exact Hwf|]. split; [exact Hw|]. split; assumption.
Qed.

(** When every attribute line follows a header, every dict has a path. *)
Lemma parse_porcelain_all_paths (out : string) :
  attributes_follow_header false (porcelain_lines out) = true ->
  Forall (fun wt => raw_path wt <> None) (parse_porcelain out).
Proof.
  intros Hwf. unfold parse_porcelain.
  destruct (fold_parse_ok (porcelain_lines out) false ([], empty_dict) Hwf)
    as [b Hok].
  { split; [constructor|]. split; simpl; intros; solve [congruence | reflexivity | auto]. }
  destruct (fold_left parse_line (porcelain_lines out) ([], empty_dict))
    as [wts cur].
  exact (state_ok_push _ _ _ Hok).
Qed.

Lemma all_paths_map (l : list RawWorktree) :
  Forall (fun wt => raw_path wt <> None) l ->
  map raw_path l = map Some (raw_paths l).
Proof.
  induction 1 as [|wt l Hp _ IH]; simpl; [reflexivity|].
  destruct (raw_path wt); [|contradiction]. simpl. rewrite IH. reflexivity.
Qed.

End Parser.

(* ================================================================== *)
(** * Reasoning about histories *)
(* ================================================================== *)

Section Effects.

Lemma emits_ret {A} (P : Event -> Prop) (a : A) : emits P (ret a).
Proof.
  intros tr r tr' H. inversion H; subst. exists []. rewrite app_nil_r. auto.
Qed.

Lemma emits_raise {A} (P : Event -> Prop) (e : exn) : emits P (@raise A e).
Proof.
  intros tr r tr' H. inversion H; subst. exists []. rewrite app_nil_r. auto.
Qed.

Lemma emits_out_of_fuel {A} (P : Event -> Prop) : emits P (@out_of_fuel A).
Proof.
  intros tr r tr' H. inversion H; subst. exists []. rewrite app_nil_r. auto.
Qed.

Lemma emits_bind {A B} (P : Event -> Prop) (m : M A) (k : A -> M B) :
  emits P m -> (forall a, emits P (k a)) -> emits P (bind m k).
Proof.
  intros Hm Hk tr r tr' H. unfold bind in H.
  destruct (m tr) as [[a|e|] tr1] eqn:Hm1.
  - destruct (Hm _ _ _ Hm1) as (evs1 & -> & H1).
    destruct (Hk a _ _ _ H) as (evs2 & -> & H2).
    exists (evs1 ++ evs2)%list. rewrite app_assoc. split; [reflexivity|].
    apply Forall_app; auto.
  - inversion H; subst. exact (Hm _ _ _ Hm1).
  - inversion H; subst. exact (Hm _ _ _ Hm1).
Qed.

Lemma emits_try {A} (P : Event -> Prop) (m : M A) (h : exn -> M A) :
  emits P m -> (forall e, emits P (h e)) -> emits P (try_except m h).
Proof.
  intros Hm Hh tr r tr' H. unfold try_except in H.
  destruct (m tr) as [[a|e|] tr1] eqn:Hm1.
  - inversion H; subst. exact (Hm _ _ _ Hm1).
  - destruct (Hm _ _ _ Hm1) as (evs1 & -> & H1).
    destruct (Hh e _ _ _ H) as (evs2 & -> & H2).
    exists (evs1 ++ evs2)%list. rewrite app_assoc. split; [reflexivity|].
    apply Forall_app; auto.
  - inversion H; subst. exact (Hm _ _ _ Hm1).
Qed.

(** A step that first reads the history, as the clock or the file system
    is read, and then acts. *)
Lemma emits_read {A B} (P : Event -> Prop) (f : Trace -> B) (m : B -> M A) :
  (forall b, emits P (m b)) -> emits P (fun tr => m (f tr) tr).
Proof. intros Hm tr r tr' H. exact (Hm _ _ _ _ H). Qed.

Lemma emits_pure {A} (P : Event -> Prop) (f : Trace -> Result A) :
  emits P (fun tr => (f tr, tr)).
Proof.
  intros tr r tr' H. inversion H; subst. exists []. rewrite app_nil_r. auto.
Qed.

Lemma emits_for_each {A S} (P : Event -> Prop) (body : S -> A -> M S)
  (l : list A) :
  (forall acc x, emits P (body acc x)) -> forall acc, emits P (for_each body l acc).
Proof.
  intros Hb. induction l as [|x l IH]; intros acc; simpl.
  - apply emits_ret.
  - apply emits_bind; [apply Hb|]. intros acc'. apply IH.
Qed.

Lemma emits_weaken {A} (P Q : Event -> Prop) (m : M A) :
  (forall e, P e -> Q e) -> emits P m -> emits Q m.
Proof.
  intros HPQ Hm tr r tr' H. destruct (Hm _ _ _ H) as (evs & -> & HF).
  exists evs. split; [reflexivity|]. eapply Forall_impl; eauto.
Qed.

Variable E : Env.

Lemma emits_run (P : Event -> Prop) (argv : list string) :
  (forall r, P (ERun argv r)) -> emits P (run E argv).
Proof.
  intros HP tr r tr' H. unfold run in H. inversion H; subst.
  eexists. split; [reflexivity|]. constructor; auto.
Qed.

Lemma emits_run_check (P : Event -> Prop) (argv : list string) :
  (forall r, P (ERun argv r)) -> emits P (run_check E argv).
Proof.
  intros HP. unfold run_check. apply emits_bind; [apply emits_run, HP|].
  intros cp. destruct (returncode cp =? 0)%Z; [apply emits_ret|apply emits_raise].
Qed.

Lemma emits_print (P : Event -> Prop) (msg : string) :
  P (EPrint msg) -> emits P (print msg).
Proof.
  intros HP tr r tr' H. unfold print in H. inversion H; subst.
  eexists. split; [reflexivity|]. constructor; auto.
Qed.

Lemma emits_confirm (P : Event -> Prop) (q : string) :
  (forall a, P (EConfirm q a)) -> emits P (confirm E q).
Proof.
  intros HP tr r tr' H. unfold confirm in H. inversion H; subst.
  eexists. split; [reflexivity|]. constructor; auto.
Qed.

Lemma emits_prompt (P : Event -> Prop) (q : string) :
  (forall a, P (EPrompt q a)) -> emits P (prompt E q).
Proof.
  intros HP tr r tr' H. unfold prompt in H. inversion H; subst.
  eexists. split; [reflexivity|]. constructor; auto.
Qed.

Lemma emits_system (P : Event -> Prop) (c : string) :
  P (ESystem c) -> emits P (system c).
Proof.
  intros HP tr r tr' H. unfold system in H. inversion H; subst.
  eexists. split; [reflexivity|]. constructor; auto.
Qed.

End Effects.

(** Decompose a computation into its steps, leaving the conditions on the
    single events. *)
Ltac emits_step :=
  first
    [ apply emits_ret | apply emits_raise | apply emits_out_of_fuel
    | apply emits_pure
    | apply emits_bind; [|intros ?]
    | apply emits_try; [|intros ?]
    | apply emits_for_each; intros ? ?
    | apply emits_run; intros ?
    | apply emits_run_check; intros ?
    | apply emits_print
    | apply emits_confirm; intros ?
    | apply emits_prompt; intros ?
    | apply emits_system ].

Ltac emits_branch :=
  match goal with
  | |- emits _ (if ?c then _ else _) => destruct c
  | |- emits _ (match ?x with _ => _ end) => destruct x
  end.

Ltac emits_auto := repeat (first [emits_step | emits_branch]).

Lemma returns_total {A} (m : M A) : returns m -> total m.
Proof. intros H tr. destruct (H tr) as [a ->]. discriminate. Qed.

Lemma total_ret {A} (a : A) : total (ret a).
Proof. intros tr. discriminate. Qed.

Lemma total_raise {A} (e : exn) : total (@raise A e).
Proof. intros tr. discriminate. Qed.

Lemma total_bind {A B} (m : M A) (k : A -> M B) :
  total m -> (forall a, total (k a)) -> total (bind m k).
Proof.
  intros Hm Hk tr. unfold bind. specialize (Hm tr).
  destruct (m tr) as [[a|e|] tr1]; simpl in *; [apply Hk|discriminate|contradiction].
Qed.

Lemma total_try {A} (m : M A) (h : exn -> M A) :
  total m -> (forall e, total (h e)) -> total (try_except m h).
Proof.
  intros Hm Hh tr. unfold try_except. specialize (Hm tr).
  destruct (m tr) as [[a|e|] tr1]; simpl in *; [discriminate|apply Hh|contradiction].
Qed.

Lemma returns_try {A} (m : M A) (h : exn -> M A) :
  total m -> (forall e, returns (h e)) -> returns (try_except m h).
Proof.
  intros Hm Hh tr. unfold try_except. specialize (Hm tr).
  destruct (m tr) as [[a|e|] tr1]; simpl in *; [eauto|apply Hh|contradiction].
Qed.

Lemma returns_ret {A} (a : A) : returns (ret a).
Proof. intros tr. exists a. reflexivity. Qed.

Lemma returns_bind {A B} (m : M A) (k : A -> M B) :
  returns m -> (forall a, returns (k a)) -> returns (bind m k).
Proof.
  intros Hm Hk tr. unfold bind. destruct (Hm tr) as [a Ha].
  destruct (m tr) as [[a'|e|] tr1]; simpl in *; try discriminate. apply Hk.
Qed.

Lemma returns_print (msg : string) : returns (print msg).
Proof. intros tr. exists tt. reflexivity. Qed.

Lemma total_read {A B} (f : Trace -> B) (m : B -> M A) :
  (forall b, total (m b)) -> total (fun tr => m (f tr) tr).
Proof. intros H tr. apply H. Qed.

Lemma total_for_each {A S} (body : S -> A -> M S) (l : list A) :
  (forall acc x, total (body acc x)) -> forall acc, total (for_each body l acc).
Proof.
  intros Hb. induction l as [|x l IH]; intros acc; simpl.
  - apply total_ret.
  - apply total_bind; [apply Hb|]. intros acc'. apply IH.
Qed.

Section Primitives.

Variable E : Env.

Lemma total_run (argv : list string) : total (run E argv).
Proof. intros tr. unfold run. simpl. destruct (env_run E tr argv); discriminate. Qed.

Lemma total_run_check (argv : list string) : total (run_check E argv).
Proof.
  unfold run_check. apply total_bind; [apply total_run|].
  intros cp. destruct (returncode cp =? 0)%Z; [apply total_ret|apply total_raise].
Qed.

Lemma total_print (msg : string) : total (print msg).
Proof. intros tr. discriminate. Qed.

Lemma total_confirm (q : string) : total (confirm E q).
Proof.
  intros tr. unfold confirm. simpl. destruct (env_confirm E tr q); discriminate.
Qed.

Lemma total_prompt (q : string) : total (prompt E q).
Proof.
  intros tr. unfold prompt. simpl. destruct (env_prompt E tr q); discriminate.
Qed.

Lemma total_system (c : string) : total (system c).
Proof. intros tr. discriminate. Qed.

End Primitives.

Ltac total_step :=
  first
    [ apply total_ret | apply total_raise
    | apply total_print | apply total_system
    | apply total_run | apply total_run_check
    | apply total_confirm | apply total_prompt
    | apply total_bind; [|intros ?]
    | apply total_try; [|intros ?]
    | apply total_for_each; intros ? ? ].

Ltac total_branch :=
  match goal with
  | |- total (if ?c then _ else _) => destruct c
  | |- total (match ?x with _ => _ end) => destruct x
  end.

Ltac total_auto := repeat (first [total_step | total_branch]).

(* ================================================================== *)
(** * Listing worktrees *)
(* ================================================================== *)

Section Listing.

Variable E : Env.
Variable root_dir : PyPath.Path.

Lemma annotate_one_ok tr done wt rest wt' :
  annotate_one E root_dir tr done wt rest = Ok wt' ->
  raw_path wt = Some (path wt') /\ name wt' = derived_name root_dir (path wt')
  /\ branch wt' = raw_branch wt /\ detached wt' = raw_detached wt.
Proof.
  unfold annotate_one, derived_name. destruct (raw_path wt) as [ps|]; [|discriminate].
  destruct (negb _ && _).
  - destruct (children_of _ _ _); [|discriminate|discriminate].
    intros H. inversion H; subst; simpl. auto.
  - intros H. inversion H; subst; simpl. auto.
Qed.

Lemma children_of_raw_raises p rest r :
  children_of_raw p rest = r ->
  match r with Ok _ => True | Raise (KeyError _) => True | _ => False end.
Proof.
  revert r. induction rest as [|c rest IH]; simpl; intros r <-; [exact I|].
  destruct (raw_path c); [|exact I].
  destruct (PyPath.eqb _ p); [exact I|]. apply IH. reflexivity.
Qed.

Lemma children_of_raises p done rest r :
  children_of p done rest = r ->
  match r with Ok _ => True | Raise (KeyError _) => True | _ => False end.
Proof.
  revert r. induction done as [|c done IH]; simpl; intros r <-.
  - eapply children_of_raw_raises. reflexivity.
  - specialize (IH _ eq_refl). destruct (children_of p done rest); auto.
    destruct (PyPath.eqb _ p); exact I.
Qed.

Lemma annotate_one_raises tr done wt rest r :
  annotate_one E root_dir tr done wt rest = r ->
  match r with Ok _ => True | Raise (KeyError _) => True | _ => False end.
Proof.
  unfold annotate_one. intros <-. destruct (raw_path wt); [|exact I].
  destruct (negb _ && _); [|exact I].
  match goal with |- context [children_of ?p ?d ?r] =>
    pose proof (children_of_raises p d r _ eq_refl) as H;
    destruct (children_of p d r) end; auto.
Qed.

(** The metadata pass fails only with [KeyError]. *)
Lemma annotate_raises tr todo : forall done r,
  annotate E root_dir tr done todo = r ->
  match r with Ok _ => True | Raise (KeyError _) => True | _ => False end.
Proof.
  induction todo as [|wt rest IH]; simpl; intros done r <-; [exact I|].
  pose proof (annotate_one_raises tr done wt rest _ eq_refl) as H.
  destruct (annotate_one E root_dir tr done wt rest); auto.
  exact (IH _ _ eq_refl).
Qed.

(** What a successful metadata pass returns: one dict per parsed dict, in
    order, each with the parsed path and branch and the derived name. *)
Lemma annotate_ok tr todo : forall done res,
  annotate E root_dir tr done todo = Ok res ->
  exists new,
    res = (done ++ new)%list
    /\ map raw_path todo = map (fun wt => Some (path wt)) new
    /\ map raw_branch todo = map branch new
    /\ map raw_detached todo = map detached new
    /\ Forall (fun wt => name wt = derived_name root_dir (path wt)) new.
Proof.
  induction todo as [|wt rest IH]; simpl; intros done res H.
  - inversion H; subst. exists []. rewrite app_nil_r. repeat split; constructor.
  - destruct (annotate_one E root_dir tr done wt rest) as [wt'| |] eqn:H1;
      try discriminate.
    apply annotate_one_ok in H1 as (Hp & Hn & Hb & Hd).
    destruct (IH _ _ H) as (new & -> & Hps & Hbs & Hds & Hns).
    exists (wt' :: new). rewrite <- app_assoc. simpl.
    repeat split; try congruence. constructor; assumption.
Qed.

(** [get_worktrees], case by case on the answer of git. *)
Lemma get_worktrees_eq tr :
  get_worktrees E root_dir tr =
  match env_run E tr worktree_list_argv with
  | None => (Raise OSError, (tr ++ [ERun worktree_list_argv None])%list)
  | Some cp =>
      if (returncode cp =? 0)%Z then
        (annotate E root_dir (tr ++ [ERun worktree_list_argv (Some cp)])%list []
                  (parse_porcelain (stdout cp)),
         (tr ++ [ERun worktree_list_argv (Some cp)])%list)
      else
        (Ok [],
         (tr ++ [ERun worktree_list_argv (Some cp);
                 EPrint ("[red]Error getting worktrees: "
                         ++ exn_str E (CalledProcessError worktree_list_argv
                                                          (returncode cp))
                         ++ "[/red]")])%list)
  end.
Proof.
  unfold get_worktrees, try_except, bind, run_check, bind, run.
  destruct (env_run E tr worktree_list_argv) as [cp|]; [|reflexivity].
  destruct (returncode cp =? 0)%Z; simpl.
  - match goal with |- context [annotate E root_dir ?t ?d ?l] =>
      pose proof (annotate_raises t l d _ eq_refl) as H;
      destruct (annotate E root_dir t d l) as [res|e|] end;
      [reflexivity| |contradiction].
    destruct e; try contradiction. reflexivity.
  - unfold print, ret. rewrite <- app_assoc. reflexivity.
Qed.

Lemma get_worktrees_quiet : emits (fun e => quiet e = true) (get_worktrees E root_dir).
Proof.
  unfold get_worktrees. emits_auto; reflexivity.
Qed.

(** The listing never runs out of fuel: it has no unbounded loop. *)
Lemma get_worktrees_total : total (get_worktrees E root_dir).
Proof.
  intros tr. rewrite get_worktrees_eq.
  destruct (env_run E tr worktree_list_argv) as [cp|]; [|discriminate].
  destruct (returncode cp =? 0)%Z; [|discriminate]. simpl.
  match goal with |- ?a <> _ =>
    pose proof (annotate_raises _ _ _ a eq_refl) as H; destruct a end;
    try discriminate; contradiction.
Qed.

End Listing.

Lemma raw_paths_of_map (l : list RawWorktree) (new : list Worktree) :
  map raw_path l = map (fun wt => Some (path wt)) new ->
  raw_paths l = map path new.
Proof.
  revert new. induction l as [|w l IH]; intros [|n new] H; simpl in *;
    try discriminate; [reflexivity|].
  inversion H as [[Hw Hl]]. rewrite Hw. f_equal. apply IH, Hl.
Qed.

(** C9.  The parser of [get_worktrees] makes exactly one record per
    [worktree ] header line of the listing it iterates over: the paths of
    the parsed records are the paths of the header lines, in order and
    with the same multiplicity; when every attribute line follows the
    header of its block, as in a porcelain listing, every record has such
    a path; and whenever [get_worktrees] returns records, their paths are
    exactly the header paths, so no returned record lacks a header. *)
Theorem get_worktrees_one_record_per_header (out : string) :
  raw_paths (parse_porcelain out) = header_paths (porcelain_lines out)
  /\ (attributes_follow_header false (porcelain_lines out) = true ->
      map raw_path (parse_porcelain out)
      = map Some (header_paths (porcelain_lines out)))
  /\ (forall E root_dir tr cp wts tr',
        env_run E tr worktree_list_argv = Some cp ->
        returncode cp = 0%Z ->
        stdout cp = out ->
        get_worktrees E root_dir tr = (Ok wts, tr') ->
        map path wts = header_paths (porcelain_lines out)).
Proof.
  split; [apply parse_porcelain_paths|]. split.
  - intros Hwf. rewrite <- parse_porcelain_paths.
    apply all_paths_map, parse_porcelain_all_paths, Hwf.
  - intros E root_dir tr cp wts tr' Hrun Hrc Hout H.
    rewrite get_worktrees_eq, Hrun, Hrc in H. simpl in H.
    inversion H as [[Ha Htr]].
    apply annotate_ok in Ha as (new & -> & Hps & _).
    simpl. rewrite <- parse_porcelain_paths, <- Hout.
    symmetry. apply raw_paths_of_map, Hps.
Qed.

Lemma get_worktrees_one_record_per_header_witness :
  map raw_path (parse_porcelain Fixture.listing_two)
  = map Some ["/repo"; "/repo/worktrees/feat-x"]
  /\ map path
       [mkWorktree "/repo" (Some "1111") (Some "main") false "main" true false
                   None [];
        mkWorktree "/repo/worktrees/feat-x" (Some "2222") (Some "feature/x")
                   false "feat-x" false false None []]
     = ["/repo"; "/repo/worktrees/feat-x"].
Proof.
  destruct (get_worktrees_one_record_per_header Fixture.listing_two)
    as (_ & Hwf & Hgw).
  split.
  - exact (Hwf eq_refl).
  - exact (Hgw (Fixture.world (fun _ => Fixture.ok Fixture.listing_two) [] [] [])
               Fixture.repo_root [] (mkCP 0 Fixture.listing_two "") _ _
               eq_refl eq_refl eq_refl eq_refl).
Defined.

(* ================================================================== *)
(** * Parent branch resolution *)
(* ================================================================== *)

Section Parent.

Variable E : Env.

Lemma first_existing_ref_quiet (l : list string) :
  emits (fun e => quiet e = true) (first_existing_ref E l).
Proof.
  induction l as [|c l IH]; simpl; [apply emits_ret|].
  apply emits_bind; [apply emits_run; reflexivity|].
  intros cp. destruct (returncode cp =? 0)%Z; [apply emits_ret|exact IH].
Qed.

Lemma get_parent_branch_quiet (wt : Worktree) :
  emits (fun e => quiet e = true) (_get_parent_branch E wt).
Proof.
  unfold _get_parent_branch.
  apply emits_bind.
  - emits_auto; reflexivity.
  - intros [p|]; [apply emits_ret|apply first_existing_ref_quiet].
Qed.

Lemma first_existing_ref_total (l : list string) : total (first_existing_ref E l).
Proof.
  induction l as [|c l IH]; simpl; [apply total_ret|].
  apply total_bind; [apply total_run|].
  intros cp. destruct (returncode cp =? 0)%Z; [apply total_ret|exact IH].
Qed.

Lemma get_parent_branch_total (wt : Worktree) : total (_get_parent_branch E wt).
Proof.
  unfold _get_parent_branch. apply total_bind.
  - total_auto.
  - intros [p|]; [apply total_ret|apply first_existing_ref_total].
Qed.

(** C6.  Parent resolution follows the precedence native entry, then
    [main], then [master], then no parent.  [native], [main] and [master]
    are git's answers to the three probes at the moments they are made;
    the native lookup is keyed by the branch of the record. *)
Theorem get_parent_branch_precedence (wt : Worktree) (tr : Trace) :
  let native := env_run E tr (config_argv wt) in
  let tr1 := (tr ++ [ERun (config_argv wt) native])%list in
  let main := env_run E tr1 (show_ref_argv "main") in
  let tr2 := (tr1 ++ [ERun (show_ref_argv "main") main])%list in
  let master := env_run E tr2 (show_ref_argv "master") in
  config_argv wt
  = ["git"; "config";
     "git-town.branch." ++ match branch wt with Some b => b | None => "" end
     ++ ".parent"]
  /\ (succeeded native = true ->
      fst (_get_parent_branch E wt tr) = Ok (Some (PyStr.strip (output native))))
  /\ (succeeded native = false -> succeeded main = true ->
      fst (_get_parent_branch E wt tr) = Ok (Some "main"))
  /\ (succeeded native = false -> refused main = true ->
      succeeded master = true ->
      fst (_get_parent_branch E wt tr) = Ok (Some "master"))
  /\ (succeeded native = false -> refused main = true ->
      refused master = true ->
      fst (_get_parent_branch E wt tr) = Ok None).
Proof.
  intros native tr1 main tr2 master.
  split; [reflexivity|].
  assert (Hfall : succeeded native = false ->
            _get_parent_branch E wt tr = first_existing_ref E ["main"; "master"] tr1).
  { unfold _get_parent_branch, bind, try_except, bind, run. fold native.
    destruct native as [cp|]; simpl; [|reflexivity].
    intros ->. reflexivity. }
  repeat split.
  - unfold _get_parent_branch, bind, try_except, bind, run. fold native.
    destruct native as [cp|]; simpl; [|discriminate].
    intros ->. reflexivity.
  - intros Hn Hm. rewrite (Hfall Hn). simpl. unfold bind, run. fold main.
    destruct main as [cp|]; simpl in *; [|discriminate]. rewrite Hm. reflexivity.
  - intros Hn Hm Hs. rewrite (Hfall Hn). simpl. unfold bind, run. fold main.
    destruct main as [cp|]; simpl in *; [|discriminate].
    apply negb_true_iff in Hm. rewrite Hm. fold tr2. fold master.
    destruct master as [cp'|]; simpl in *; [|discriminate]. rewrite Hs. reflexivity.
  - intros Hn Hm Hs. rewrite (Hfall Hn). simpl. unfold bind, run. fold main.
    destruct main as [cp|]; simpl in *; [|discriminate].
    apply negb_true_iff in Hm. rewrite Hm. fold tr2. fold master.
    destruct master as [cp'|]; simpl in *; [|discriminate].
    apply negb_true_iff in Hs. rewrite Hs. reflexivity.
Qed.

End Parent.

(* ================================================================== *)
(** * Preview *)
(* ================================================================== *)

Section Preview.

Variable E : Env.
Variable root_dir : PyPath.Path.

Lemma preview_merge_quiet (b p : string) :
  emits (fun e => quiet e = true) (_preview_merge E b p).
Proof. unfold _preview_merge. emits_auto; reflexivity. Qed.

Lemma preview_merge_returns (b p : string) : returns (_preview_merge E b p).
Proof.
  unfold _preview_merge. apply returns_try.
  - total_auto.
  - intros e. apply returns_bind; [apply returns_print|].
    intros _. apply returns_ret.
Qed.

Lemma merge_branch_preview_total fuel b cleanup push :
  total (merge_branch E root_dir fuel b cleanup true push).
Proof.
  unfold merge_branch. apply total_try.
  - apply total_bind; [apply get_worktrees_total|]. intros wts.
    destruct (find_target b wts) as [wt|]; [|total_auto].
    apply total_bind; [apply get_parent_branch_total|]. intros [[|c p]|];
      [total_auto| |total_auto].
    apply returns_total, preview_merge_returns.
  - intros e. total_auto.
Qed.

(** C4.  With [preview=True], every event of a run of [merge_branch] is a
    read-only command, a message or a question: the run changes nothing
    in the repository, and the backup, checkout and merge commands are
    not issued, whatever the user answers to the preview prompt and
    however the run ends. *)
Theorem merge_branch_preview_read_only fuel b cleanup push tr r tr' :
  merge_branch E root_dir fuel b cleanup true push tr = (r, tr') ->
  exists evs,
    tr' = (tr ++ evs)%list
    /\ Forall (fun e => quiet e = true) evs
    /\ (forall ref parent answer,
          ~ In (ERun (backup_argv ref parent) answer) evs
          /\ ~ In (ERun (checkout_argv parent) answer) evs
          /\ ~ In (ERun (merge_argv ref) answer) evs).
Proof.
  intros H.
  assert (Hq : emits (fun e => quiet e = true)
                 (merge_branch E root_dir fuel b cleanup true push)).
  { unfold merge_branch. apply emits_try.
    - apply emits_bind; [apply get_worktrees_quiet|]. intros wts.
      destruct (find_target b wts) as [wt|]; [|emits_auto; reflexivity].
      apply emits_bind; [apply get_parent_branch_quiet|]. intros [[|c p]|];
        [emits_auto; reflexivity| |emits_auto; reflexivity].
      apply preview_merge_quiet.
    - intros e. emits_auto; reflexivity. }
  destruct (Hq _ _ _ H) as (evs & -> & HF). exists evs.
  split; [reflexivity|]. split; [exact HF|].
  intros ref parent answer. rewrite Forall_forall in HF.
  repeat split; intros Hin; apply HF in Hin; discriminate Hin.
Qed.

End Preview.

Lemma merge_branch_preview_read_only_witness :
  exists evs,
    snd Scenario.accepted_preview_run = ([] ++ evs)%list
    /\ Forall (fun e => quiet e = true) evs
    /\ (forall ref parent answer,
          ~ In (ERun (backup_argv ref parent) answer) evs
          /\ ~ In (ERun (checkout_argv parent) answer) evs
          /\ ~ In (ERun (merge_argv ref) answer) evs).
Proof.
  apply (merge_branch_preview_read_only Scenario.preview_world Fixture.repo_root
           3 "feature/x" true true [] (fst Scenario.accepted_preview_run)).
  vm_compute. reflexivity.
Defined.

(* ================================================================== *)
(** * The merge pipeline *)
(* ================================================================== *)

Lemma split_at_sound (P : Event -> bool) (evs : list Event) :
  forall before x after,
    split_at P evs = Some (before, x, after) ->
    evs = (before ++ x :: after)%list /\ P x = true
    /\ Forall (fun e => P e = false) before.
Proof.
  induction evs as [|e more IH]; simpl; intros before x after H; [discriminate|].
  destruct (P e) eqn:HP.
  - inversion H; subst. auto.
  - destruct (split_at P more) as [[[a y] c]|]; [|discriminate].
    inversion H; subst. destruct (IH _ _ _ eq_refl) as (-> & Hx & Ha).
    auto.
Qed.

Lemma split_at_skip (P : Event -> bool) (l1 l2 : list Event) :
  Forall (fun e => P e = false) l1 ->
  split_at P (l1 ++ l2) =
  match split_at P l2 with
  | Some (before, x, after) => Some ((l1 ++ before)%list, x, after)
  | None => None
  end.
Proof.
  induction 1 as [|e l1 He _ IH]; simpl.
  - destruct (split_at P l2) as [[[a y] c]|]; reflexivity.
  - rewrite He, IH. destruct (split_at P l2) as [[[a y] c]|]; reflexivity.
Qed.

Lemma split_at_none (P : Event -> bool) (l : list Event) :
  Forall (fun e => P e = false) l -> split_at P l = None.
Proof.
  intros H. rewrite <- (app_nil_r l), split_at_skip by exact H. reflexivity.
Qed.

Lemma quiet_not_merge (e : Event) : quiet e = true -> is_merge e = false.
Proof.
  destruct e as [argv r| | | |]; simpl; try reflexivity.
  destruct argv as [|g [|sub [|x [|flag [|? ?]]]]]; try reflexivity.
  destruct (String.eqb_spec sub "merge") as [->|]; [|reflexivity].
  simpl. rewrite andb_false_r. discriminate.
Qed.

Lemma quiet_all_not_merge (l : list Event) :
  Forall (fun e => quiet e = true) l -> Forall (fun e => is_merge e = false) l.
Proof. apply Forall_impl, quiet_not_merge. Qed.

Section Pipeline.

Variable E : Env.
Variable root_dir : PyPath.Path.

(** [merge_branch] without preview, as the composition of its steps. *)
Lemma merge_branch_steps fuel b cleanup push :
  merge_branch E root_dir fuel b cleanup false push =
  try_except
    (worktrees <- get_worktrees E root_dir ;;
     match find_target b worktrees with
     | None => print (not_found_msg b) ;; ret false
     | Some target_wt =>
         parent <- _get_parent_branch E target_wt ;;
         match parent with
         | None | Some EmptyString => print (no_parent_msg b) ;; ret false
         | Some parent_branch =>
             backup_ref <- (fun tr => ret (backup_name b (env_now E tr)) tr) ;;
             after_resolve E fuel b parent_branch target_wt cleanup push backup_ref
         end
     end)
    (fun e => print (merge_error_msg E e) ;; ret false).
Proof. reflexivity. Qed.

End Pipeline.

(** Membership in a list that is given event by event. *)
Ltac in_list := simpl; repeat (first [left; reflexivity | right]).

Ltac reset_side :=
  let H := fresh in
  intros ? ? ? H; solve [discriminate H | inversion H; reflexivity].

Ltac follows_side := first [exact I | in_list].

Lemma follows_merge_reset_uses backup_ref wt b e :
  follows_merge backup_ref wt b e -> reset_uses backup_ref e.
Proof.
  destruct e as [argv r| | | |]; simpl; try (intros _; reset_side).
  intros H. repeat (destruct H as [<-|H]; [reset_side|]). contradiction.
Qed.

Lemma follows_merge_not_merge backup_ref wt b e :
  follows_merge backup_ref wt b e -> is_merge e = false.
Proof.
  destruct e as [argv r| | | |]; simpl; try reflexivity.
  intros H. repeat (destruct H as [<-|H]; [reflexivity|]). contradiction.
Qed.

Section PipelineEvents.

Variable E : Env.
Variable root_dir : PyPath.Path.

Lemma rollback_merge_follows (parent backup_ref : string) wt b :
  emits (follows_merge backup_ref wt b) (_rollback_merge E parent backup_ref).
Proof. unfold _rollback_merge. emits_auto; follows_side. Qed.

Lemma cleanup_follows (backup_ref : string) (wt : Worktree) (b : string) :
  emits (follows_merge backup_ref wt b) (_cleanup_merged_branch E wt b).
Proof. unfold _cleanup_merged_branch. emits_auto; follows_side. Qed.

Lemma conflict_loop_follows (fuel : nat) (b parent backup_ref : string) wt :
  emits (follows_merge backup_ref wt b) (conflict_loop E fuel b parent backup_ref).
Proof.
  induction fuel as [|fuel IH]; simpl; [apply emits_out_of_fuel|].
  unfold manual_steps.
  emits_auto;
    try exact IH; try apply rollback_merge_follows;
    try (apply emits_read; intros ?; apply emits_system);
    try follows_side.
Qed.

Lemma after_merge_follows fuel b parent backup_ref wt cleanup push result :
  emits (follows_merge backup_ref wt b)
        (after_merge E fuel b parent backup_ref wt cleanup push result).
Proof.
  unfold after_merge, _handle_merge_conflicts, conflict_menu.
  emits_auto;
    try apply conflict_loop_follows; try apply rollback_merge_follows;
    try apply cleanup_follows; try follows_side.
Qed.

Lemma after_merge_resets fuel b parent backup_ref wt cleanup push result :
  emits (reset_uses backup_ref)
        (after_merge E fuel b parent backup_ref wt cleanup push result).
Proof.
  eapply emits_weaken; [|apply after_merge_follows].
  intros e. apply follows_merge_reset_uses.
Qed.

End PipelineEvents.

Section Anatomy.

Variable E : Env.
Variable root_dir : PyPath.Path.

(** [after_resolve], case by case on the answers of git. *)
Lemma after_resolve_eq fuel b parent wt cleanup push backup_ref tr :
  after_resolve E fuel b parent wt cleanup push backup_ref tr =
  let x := env_run E tr (backup_argv backup_ref parent) in
  match x with
  | None => (Raise OSError, (tr ++ [ERun (backup_argv backup_ref parent) None])%list)
  | Some _ =>
      let tr_b := (tr ++ prelude b parent backup_ref x)%list in
      let y := env_run E tr_b (checkout_argv parent) in
      let tr_c := (tr ++ prelude b parent backup_ref x
                      ++ [ERun (checkout_argv parent) y])%list in
      match y with
      | None => (Raise OSError, tr_c)
      | Some c =>
          if negb (returncode c =? 0)%Z then
            (Ok false,
             (tr ++ prelude b parent backup_ref x
                 ++ [ERun (checkout_argv parent) y;
                     EPrint (checkout_failed_msg parent c)])%list)
          else
            let z := env_run E tr_c (merge_argv b) in
            let tr_m := (tr ++ prelude b parent backup_ref x
                            ++ [ERun (checkout_argv parent) y;
                                ERun (merge_argv b) z])%list in
            match z with
            | None => (Raise OSError, tr_m)
            | Some m =>
                after_merge E fuel b parent backup_ref wt cleanup push m tr_m
            end
      end
  end.
Proof.
  unfold after_resolve, bind, run, print, prelude. simpl.
  destruct (env_run E tr (backup_argv backup_ref parent)) as [x|]; [|reflexivity].
  rewrite <- ?app_assoc. simpl.
  destruct (env_run E _ (checkout_argv parent)) as [c|];
    [|rewrite <- ?app_assoc; reflexivity].
  rewrite <- ?app_assoc. simpl.
  destruct (returncode c =? 0)%Z; simpl.
  - destruct (env_run E _ (merge_argv b)) as [m|];
      rewrite <- ?app_assoc; reflexivity.
  - unfold ret. rewrite <- ?app_assoc. reflexivity.
Qed.

(** Every run of [merge_branch] without preview either stops while the
    target and its parent are resolved, having only read, or goes on with
    the backup. *)
Lemma merge_branch_anatomy fuel b cleanup push tr0 r tr' :
  merge_branch E root_dir fuel b cleanup false push tr0 = (r, tr') ->
  exists evq,
    Forall (fun e => quiet e = true) evq
    /\ ((r = Ok false /\ tr' = (tr0 ++ evq)%list)
        \/ exists wts target parent ev1 ev2 r1 tr1,
             evq = (ev1 ++ ev2)%list
             /\ get_worktrees E root_dir tr0 = (Ok wts, (tr0 ++ ev1)%list)
             /\ find_target b wts = Some target
             /\ _get_parent_branch E target (tr0 ++ ev1)%list
                = (Ok (Some parent), (tr0 ++ evq)%list)
             /\ parent <> ""
             /\ after_resolve E fuel b parent target cleanup push
                  (backup_name b (env_now E (tr0 ++ evq)%list)) (tr0 ++ evq)%list
                = (r1, tr1)
             /\ match r1 with
                | Raise e =>
                    r = Ok false
                    /\ tr' = (tr1 ++ [EPrint (merge_error_msg E e)])%list
                | _ => r = r1 /\ tr' = tr1
                end).
Proof.
  intros H. rewrite merge_branch_steps in H. unfold try_except, bind in H.
  destruct (get_worktrees E root_dir tr0) as [[wts|e|] tr1] eqn:Hgw.
  - destruct (get_worktrees_quiet E root_dir _ _ _ Hgw) as (ev1 & -> & Hq1).
    destruct (find_target b wts) as [target|] eqn:Hf.
    + destruct (_get_parent_branch E target (tr0 ++ ev1)%list)
        as [[parent|e|] tr2] eqn:Hp.
      * destruct (get_parent_branch_quiet E target _ _ _ Hp) as (ev2 & -> & Hq2).
        assert (Hq : Forall (fun e => quiet e = true) (ev1 ++ ev2)%list)
          by (apply Forall_app; auto).
        destruct parent as [[|c p]|].
        -- inversion H; subst. exists (ev1 ++ ev2 ++ [EPrint (no_parent_msg b)])%list.
           split; [|left; rewrite <- !app_assoc; auto].
           rewrite app_assoc. apply Forall_app. split; [exact Hq|]. repeat constructor.
        -- exists (ev1 ++ ev2)%list. split; [exact Hq|]. right.
           unfold ret in H. rewrite <- app_assoc in H, Hp.
           destruct (after_resolve E fuel b (String c p) target cleanup push _ _)
             as [r1 tr1] eqn:Har.
           exists wts, target, (String c p), ev1, ev2, r1, tr1.
           repeat split; auto; try discriminate.
           destruct r1; inversion H; subst; auto.
        -- inversion H; subst. exists (ev1 ++ ev2 ++ [EPrint (no_parent_msg b)])%list.
           split; [|left; rewrite <- !app_assoc; auto].
           rewrite app_assoc. apply Forall_app. split; [exact Hq|]. repeat constructor.
      * destruct (get_parent_branch_quiet E target _ _ _ Hp) as (ev2 & -> & Hq2).
        inversion H; subst.
        exists (ev1 ++ ev2 ++ [EPrint (merge_error_msg E e)])%list.
        split; [|left; rewrite <- !app_assoc; auto].
        rewrite app_assoc. apply Forall_app. split; [apply Forall_app; auto|].
        repeat constructor.
      * pose proof (get_parent_branch_total E target (tr0 ++ ev1)%list) as Ht.
        rewrite Hp in Ht. contradiction.
    + inversion H; subst. exists (ev1 ++ [EPrint (not_found_msg b)])%list.
      split; [|left; rewrite <- !app_assoc; auto].
      apply Forall_app. split; [exact Hq1|]. repeat constructor.
  - destruct (get_worktrees_quiet E root_dir _ _ _ Hgw) as (ev1 & -> & Hq1).
    inversion H; subst. exists (ev1 ++ [EPrint (merge_error_msg E e)])%list.
    split; [|left; rewrite <- !app_assoc; auto].
    apply Forall_app. split; [exact Hq1|]. repeat constructor.
  - pose proof (get_worktrees_total E root_dir tr0) as Ht.
    rewrite Hgw in Ht. contradiction.
Qed.

End Anatomy.

Lemma follows_is_pipeline b parent backup_ref wt e :
  follows_merge backup_ref wt b e -> pipeline_event b parent backup_ref wt e.
Proof. intros H. right. right. exact H. Qed.

Lemma pipeline_reset_uses b parent backup_ref wt e :
  pipeline_event b parent backup_ref wt e -> reset_uses backup_ref e.
Proof.
  intros [(a & ->)|[(a & ->)|H]]; [reset_side|reset_side|].
  exact (follows_merge_reset_uses _ _ _ _ H).
Qed.

Lemma pipeline_merge_names b parent backup_ref wt e :
  pipeline_event b parent backup_ref wt e ->
  is_merge e = true -> exists a, e = ERun (merge_argv b) a.
Proof.
  intros [(a & ->)|[(a & ->)|H]] Hm; [discriminate Hm|eauto|].
  rewrite (follows_merge_not_merge _ _ _ _ H) in Hm. discriminate.
Qed.

Ltac pipeline_side :=
  first [ left; eexists; reflexivity
        | right; left; eexists; reflexivity
        | right; right; follows_side ].

Section BackupFirst.

Variable E : Env.
Variable root_dir : PyPath.Path.

(** The shape of every run of [merge_branch] without preview. *)
Lemma merge_branch_shape fuel b cleanup push tr0 r evs :
  run_of (merge_branch E root_dir fuel b cleanup false push) tr0 r evs ->
  Forall (fun e => quiet e = true) evs
  \/ exists pre target parent x post,
       let backup_ref := backup_name b (env_now E (tr0 ++ pre)%list) in
       evs = (pre ++ ERun (backup_argv backup_ref parent) x :: post)%list
       /\ Forall (fun e => quiet e = true) pre
       /\ matches b target = true
       /\ (exists tr, _get_parent_branch E target tr
                      = (Ok (Some parent), (tr0 ++ pre)%list))
       /\ (forall cp, x = Some cp ->
             exists y post',
               post = (EPrint (created_msg backup_ref)
                       :: EPrint (merging_msg b parent)
                       :: ERun (checkout_argv parent) y :: post')%list)
       /\ Forall (pipeline_event b parent backup_ref target) post.
Proof.
  unfold run_of. intros H.
  destruct (merge_branch_anatomy E root_dir _ _ _ _ _ _ _ H) as (evq & Hq & Hcase).
  destruct Hcase as [[-> Htr]|
    (wts & target & parent & ev1 & ev2 & r1 & tr1 & -> & Hgw & Hf & Hp & Hne & Har & Hr)].
  - left. apply app_inv_head in Htr. subst. exact Hq.
  - right. set (backup_ref := backup_name b (env_now E (tr0 ++ ev1 ++ ev2)%list)) in *.
    assert (Hm : matches b target = true).
    { unfold find_target in Hf. apply find_some in Hf. apply Hf. }
    rewrite after_resolve_eq in Har. cbv zeta in Har.
    destruct (env_run E (tr0 ++ ev1 ++ ev2)%list (backup_argv backup_ref parent))
      as [cpx|] eqn:Hx.
    + destruct (env_run E _ (checkout_argv parent)) as [c|] eqn:Hy.
      * destruct (negb (returncode c =? 0)%Z) eqn:Hrc.
        -- inversion Har; subst r1 tr1. destruct Hr as [-> Htr].
           rewrite <- ?app_assoc in Htr. apply app_inv_head in Htr. subst evs.
           exists (ev1 ++ ev2)%list, target, parent, (Some cpx),
             [EPrint (created_msg backup_ref); EPrint (merging_msg b parent);
              ERun (checkout_argv parent) (Some c);
              EPrint (checkout_failed_msg parent c)].
           cbv zeta. fold backup_ref. rewrite <- ?app_assoc.
           repeat split; eauto.
           repeat (apply Forall_cons; [pipeline_side|]); apply Forall_nil.
        -- destruct (env_run E _ (merge_argv b)) as [m|] eqn:Hz.
           ++ destruct (after_merge_follows E _ _ _ backup_ref _ _ _ _ _ _ _ Har)
                as (post1 & -> & Hpost1).
              apply (Forall_impl (pipeline_event b parent backup_ref target)
                       (follows_is_pipeline _ _ _ _)) in Hpost1.
              assert (Hev : exists tail,
                        evs = ((ev1 ++ ev2) ++
                               ERun (backup_argv backup_ref parent) (Some cpx)
                               :: [EPrint (created_msg backup_ref);
                                   EPrint (merging_msg b parent);
                                   ERun (checkout_argv parent) (Some c);
                                   ERun (merge_argv b) (Some m)] ++ post1 ++ tail)%list
                        /\ Forall (pipeline_event b parent backup_ref target) tail).
              { destruct r1 as [ok|e|]; destruct Hr as [_ Htr];
                  rewrite <- ?app_assoc in Htr; simpl in Htr;
                  rewrite <- ?app_assoc in Htr; apply app_inv_head in Htr;
                  subst evs.
                - exists []. rewrite app_nil_r, <- ?app_assoc. simpl. auto.
                - exists [EPrint (merge_error_msg E e)]. rewrite <- ?app_assoc. simpl.
                  split; [reflexivity|]. repeat (apply Forall_cons; [pipeline_side|]); apply Forall_nil.
                - exists []. rewrite app_nil_r, <- ?app_assoc. simpl. auto. }
              destruct Hev as (tail & -> & Htail).
              exists (ev1 ++ ev2)%list, target, parent, (Some cpx).
              eexists. cbv zeta. fold backup_ref.
              split; [reflexivity|]. repeat split; eauto.
              ** intros cp _. eexists _, _. simpl. reflexivity.
              ** simpl. repeat (apply Forall_cons; [pipeline_side|]).
                 apply Forall_app; auto.
           ++ inversion Har; subst r1 tr1. destruct Hr as [-> Htr].
              rewrite <- ?app_assoc in Htr. apply app_inv_head in Htr. subst evs.
              exists (ev1 ++ ev2)%list, target, parent, (Some cpx),
                [EPrint (created_msg backup_ref); EPrint (merging_msg b parent);
                 ERun (checkout_argv parent) (Some c);
                 ERun (merge_argv b) None; EPrint (merge_error_msg E OSError)].
              cbv zeta. fold backup_ref. rewrite <- ?app_assoc.
              repeat split; eauto.
              repeat (apply Forall_cons; [pipeline_side|]); apply Forall_nil.
      * inversion Har; subst r1 tr1. destruct Hr as [-> Htr].
        rewrite <- ?app_assoc in Htr. apply app_inv_head in Htr. subst evs.
        exists (ev1 ++ ev2)%list, target, parent, (Some cpx),
          [EPrint (created_msg backup_ref); EPrint (merging_msg b parent);
           ERun (checkout_argv parent) None; EPrint (merge_error_msg E OSError)].
        cbv zeta. fold backup_ref. rewrite <- ?app_assoc.
        repeat split; eauto.
        repeat (apply Forall_cons; [pipeline_side|]); apply Forall_nil.
    + inversion Har; subst r1 tr1. destruct Hr as [-> Htr].
      rewrite <- ?app_assoc in Htr. apply app_inv_head in Htr. subst evs.
      exists (ev1 ++ ev2)%list, target, parent, None,
        [EPrint (merge_error_msg E OSError)].
      cbv zeta. fold backup_ref. rewrite <- ?app_assoc.
      repeat split; eauto.
      * intros cp Hcp. discriminate.
      * repeat (apply Forall_cons; [pipeline_side|]); apply Forall_nil.
Qed.



End BackupFirst.

Section MergeReached.

Variable E : Env.
Variable root_dir : PyPath.Path.

(** A run whose history holds a completed merge command went through the
    resolution, the backup and a successful checkout, and what follows the
    merge command is the run of [after_merge], plus the report of the
    exception, if one escaped. *)
Lemma merge_reached fuel b cleanup push tr0 r evs pre argv cp post :
  run_of (merge_branch E root_dir fuel b cleanup false push) tr0 r evs ->
  split_at is_merge evs = Some (pre, ERun argv (Some cp), post) ->
  exists evq target parent x c post1 r1,
    let backup_ref := backup_name b (env_now E (tr0 ++ evq)%list) in
    let tr_m := (tr0 ++ pre ++ [ERun (merge_argv b) (Some cp)])%list in
    argv = merge_argv b
    /\ matches b target = true
    /\ Forall (fun e => quiet e = true) evq
    /\ pre = (evq ++ prelude b parent backup_ref x
                  ++ [ERun (checkout_argv parent) (Some c)])%list
    /\ returncode c = 0%Z
    /\ after_merge E fuel b parent backup_ref target cleanup push cp tr_m
       = (r1, (tr_m ++ post1)%list)
    /\ match r1 with
       | Raise e => r = Ok false
                    /\ post = (post1 ++ [EPrint (merge_error_msg E e)])%list
       | _ => r = r1 /\ post = post1
       end.
Proof.
  unfold run_of. intros H Hsplit.
  destruct (merge_branch_anatomy E root_dir _ _ _ _ _ _ _ H) as (evq & Hq & Hcase).
  pose proof (quiet_all_not_merge _ Hq) as Hnm.
  destruct Hcase as [[-> Htr]|
    (wts & target & parent & ev1 & ev2 & r1 & tr1 & -> & Hgw & Hf & Hp & Hne & Har & Hr)].
  - apply app_inv_head in Htr. subst.
    rewrite (split_at_none _ _ Hnm) in Hsplit. discriminate.
  - set (backup_ref := backup_name b (env_now E (tr0 ++ ev1 ++ ev2)%list)) in *.
    assert (Hm : matches b target = true).
    { unfold find_target in Hf. apply find_some in Hf. apply Hf. }
    rewrite after_resolve_eq in Har. cbv zeta in Har.
    destruct (env_run E (tr0 ++ ev1 ++ ev2)%list (backup_argv backup_ref parent))
      as [cpx|] eqn:Hx.
    + destruct (env_run E _ (checkout_argv parent)) as [c|] eqn:Hy.
      * destruct (negb (returncode c =? 0)%Z) eqn:Hrc.
        -- inversion Har; subst r1 tr1. destruct Hr as [-> Htr].
           rewrite <- ?app_assoc in Htr. apply app_inv_head in Htr. subst evs.
           rewrite (app_assoc ev1 ev2), split_at_skip in Hsplit by exact Hnm.
           discriminate.
        -- destruct (env_run E _ (merge_argv b)) as [m|] eqn:Hz.
           ++ destruct (after_merge_resets E _ _ _ backup_ref _ _ _ _ _ _ _ Har)
                as (post1 & -> & _).
              assert (Hev : exists tail,
                        evs = ((ev1 ++ ev2) ++ prelude b parent backup_ref (Some cpx)
                               ++ ERun (checkout_argv parent) (Some c)
                               :: ERun (merge_argv b) (Some m)
                               :: post1 ++ tail)%list
                        /\ match r1 with
                           | Raise e => r = Ok false
                                        /\ tail = [EPrint (merge_error_msg E e)]
                           | _ => r = r1 /\ tail = []
                           end).
              { destruct r1 as [ok|e|]; destruct Hr as [Hr Htr];
                  rewrite <- ?app_assoc in Htr; simpl in Htr;
                  rewrite <- ?app_assoc in Htr; apply app_inv_head in Htr;
                  subst evs; eexists; (split; [|split; [exact Hr|reflexivity]]);
                  rewrite <- ?app_assoc; simpl; rewrite ?app_nil_r; reflexivity. }
              clear Hr H. destruct Hev as (tail & -> & Htail).
              rewrite split_at_skip in Hsplit by exact Hnm.
              simpl in Hsplit. injection Hsplit as <- <- <- <-.
              exists (ev1 ++ ev2)%list, target, parent, (Some cpx), c, post1, r1.
              cbv zeta. fold backup_ref.
              apply negb_false_iff, Z.eqb_eq in Hrc.
              split; [reflexivity|]. split; [exact Hm|]. split; [exact Hq|].
              split; [unfold prelude; rewrite <- ?app_assoc; reflexivity|].
              split; [exact Hrc|]. split.
              ** unfold prelude in *. rewrite <- ?app_assoc in Har |- *.
                 simpl in Har |- *. rewrite <- ?app_assoc. simpl. exact Har.
              ** destruct r1; destruct Htail as [-> ->]; rewrite ?app_nil_r; auto.
           ++ inversion Har; subst r1 tr1. destruct Hr as [-> Htr].
              rewrite <- ?app_assoc in Htr. apply app_inv_head in Htr. subst evs.
              rewrite (app_assoc ev1 ev2), split_at_skip in Hsplit by exact Hnm.
           discriminate.
      * inversion Har; subst r1 tr1. destruct Hr as [-> Htr].
        rewrite <- ?app_assoc in Htr. apply app_inv_head in Htr. subst evs.
        rewrite (app_assoc ev1 ev2), split_at_skip in Hsplit by exact Hnm.
           discriminate.
    + inversion Har; subst r1 tr1. destruct Hr as [-> Htr].
      rewrite <- ?app_assoc in Htr. apply app_inv_head in Htr. subst evs.
      rewrite (app_assoc ev1 ev2), split_at_skip in Hsplit by exact Hnm.
           discriminate.
Qed.

End MergeReached.

(* ================================================================== *)
(** * Rollback and cleanup *)
(* ================================================================== *)

Section RollbackCleanup.

Variable E : Env.

Lemma rollback_merge_eq (parent backup_ref : string) (tr : Trace) :
  exists y z,
    _rollback_merge E parent backup_ref tr
    = (Ok tt, (tr ++ rollback_events E backup_ref y z)%list).
Proof.
  unfold _rollback_merge, try_except, bind, print, run, rollback_events. simpl.
  destruct (env_run E _ (reset_argv backup_ref)) as [cy|] eqn:Hy.
  - destruct (env_run E _ (delete_branch_argv backup_ref)) as [cz|] eqn:Hz.
    + exists (Some cy), (Some cz). unfold ret. rewrite <- ?app_assoc. reflexivity.
    + exists (Some cy), None. rewrite <- ?app_assoc. reflexivity.
  - exists None, None. rewrite <- ?app_assoc. reflexivity.
Qed.


End RollbackCleanup.

(* ================================================================== *)
(** * Merge failure without conflicts *)
(* ================================================================== *)

Section MergeFailure.

Variable E : Env.
Variable root_dir : PyPath.Path.

(** The merge failure on a console that accepts the message.  When the
    merge command ran, exited with a non-zero status and no conflict
    marker was found in its output, the run goes on with exactly the
    failure message and the rollback: the hard reset to the backup ref
    and the deletion of that ref, and, if one of them could not be run,
    the report of the error with the manual-recovery line that names the
    ref; the result is [False]. *)
Lemma merge_failure_rolls_back fuel b cleanup push tr0 r evs pre argv cp post :
  run_of (merge_branch E root_dir fuel b cleanup false push) tr0 r evs ->
  split_at is_merge evs = Some (pre, ERun argv (Some cp), post) ->
  returncode cp <> 0%Z ->
  conflict_detected cp = false ->
  r = Ok false
  /\ exists parent backup_ref x y z,
       In (ERun (backup_argv backup_ref parent) x) pre
       /\ post = EPrint (merge_failed_msg cp) :: rollback_events E backup_ref y z
       /\ In (ERun (reset_argv backup_ref) y) post
       /\ (y <> None -> In (ERun (delete_branch_argv backup_ref) z) post)
       /\ (y = None \/ z = None ->
           In (EPrint (rollback_error_msg E OSError)) post
           /\ In (EPrint (manual_msg backup_ref)) post).
Proof.
  intros Hrun Hsplit Hrc Hnc.
  destruct (merge_reached E root_dir _ _ _ _ _ _ _ _ _ _ _ Hrun Hsplit)
    as (evq & target & parent & x & c & post1 & r1 & Hm).
  cbv zeta in Hm. destruct Hm as (-> & Hmatch & Hq & -> & Hc & Har & Hr).
  set (backup_ref := backup_name b (env_now E (tr0 ++ evq)%list)) in *.
  unfold after_merge in Har.
  apply Z.eqb_neq in Hrc. rewrite Hrc, Hnc in Har. cbn [negb] in Har.
  unfold bind, print in Har. cbv beta iota in Har.
  match type of Har with context [_rollback_merge E ?p ?ref ?t] =>
    destruct (rollback_merge_eq E p ref t) as (y & z & Hrb) end.
  rewrite Hrb in Har. unfold ret in Har.
  rewrite <- ?app_assoc in Har. inversion Har as [[Hr1 Htr]].
  do 2 apply app_inv_head in Htr. injection Htr as Htr. subst r1 post1.
  destruct Hr as [-> ->]. split; [reflexivity|].
  exists parent, backup_ref, x, y, z.
  split. { apply in_or_app. right. simpl. auto. }
  split; [reflexivity|].
  unfold rollback_events.
  split; [in_list|]. split.
  - destruct y; [|congruence]. intros _. in_list.
  - destruct y as [cy|]; [destruct z as [cz|]|].
    + intros [?|?]; discriminate.
    + intros _. split; in_list.
    + intros _. split; in_list.
Qed.

End MergeFailure.

(* ================================================================== *)
(** * Successful merge *)
(* ================================================================== *)

Section MergeSuccess.

Variable E : Env.
Variable root_dir : PyPath.Path.



End MergeSuccess.

(* ================================================================== *)
(** * Conflict resolution *)
(* ================================================================== *)

Lemma conflict_outcome_prefix backup_ref r pre evs :
  Forall (fun e => settles e = false) pre ->
  conflict_outcome backup_ref r evs ->
  conflict_outcome backup_ref r (pre ++ evs).
Proof.
  intros Hpre. destruct r as [[|]| |]; simpl; auto.
  - intros [(cp & Hin & H)|(Hin & cp & Hst)].
    + left. exists cp. split; [apply in_or_app; right; exact Hin|exact H].
    + right. split; [apply in_or_app; right; exact Hin|].
      exists cp. apply in_or_app. right. exact Hst.
  - intros [(y & Hin)|(Hall & e & Hin & Hs)].
    + left. exists y. apply in_or_app. right. exact Hin.
    + right. split; [apply Forall_app; auto|].
      exists e. split; [apply in_or_app; right; exact Hin|exact Hs].
Qed.

(** Run one symbolic step of a computation held in hypothesis [H]. *)
Ltac exec_in H :=
  unfold run_check, manual_steps, conflict_menu in H;
  unfold bind, run, prompt, confirm, print, system, ret, raise in H;
  cbv beta iota zeta in H.

Ltac case_in H :=
  match type of H with
  | context [match env_prompt ?E ?t ?q with _ => _ end] =>
      let a := fresh "choice" in
      destruct (env_prompt E t q) as [a|] eqn:?
  | context [match env_confirm ?E ?t ?q with _ => _ end] =>
      let a := fresh "yes" in
      destruct (env_confirm E t q) as [a|] eqn:?
  | context [match env_run ?E ?t ?a with _ => _ end] =>
      let c := fresh "c" in
      destruct (env_run E t a) as [c|] eqn:?
  | context [if ?c then _ else _] => destruct c eqn:?
  end;
  cbv beta iota zeta in H.

Ltac unsettled := repeat constructor.

Section Conflicts.

Variable E : Env.
Variable root_dir : PyPath.Path.

Ltac finish_leaf H :=
  injection H as <- <-;
  eexists; split; [rewrite <- ?app_assoc; reflexivity|];
  cbn [app conflict_outcome].

(** The loop goes round again: the events of this pass settle nothing. *)
Ltac continue_with IH H :=
  let evs := fresh "evs" in
  let Hout := fresh "Hout" in
  apply IH in H; destruct H as (evs & -> & Hout);
  eexists; split; [rewrite <- ?app_assoc; reflexivity|];
  cbn [app];
  repeat match goal with
         | |- conflict_outcome _ _ (?e :: ?l) =>
             change (e :: l) with ([e] ++ l)%list;
             apply conflict_outcome_prefix; [unsettled|]
         end;
  exact Hout.

Lemma conflict_loop_outcome fuel b parent backup_ref :
  forall tr r tr',
    conflict_loop E fuel b parent backup_ref tr = (r, tr') ->
    exists evs, tr' = (tr ++ evs)%list /\ conflict_outcome backup_ref r evs.
Proof.
  induction fuel as [|fuel IH]; intros tr r tr' H.
  - injection H as <- <-. exists []. rewrite app_nil_r. split; [reflexivity|exact I].
  - cbn [conflict_loop] in H. exec_in H.
    case_in H; [|finish_leaf H; exact I].
    case_in H.
    { (* option 1: merge tool *)
      case_in H; [|finish_leaf H; exact I].
      case_in H.
      - case_in H; [|finish_leaf H; exact I].
        case_in H.
        + case_in H; [|finish_leaf H; exact I].
          case_in H.
          * finish_leaf H. left. exists c0.
            split; [in_list|]. apply Z.eqb_eq. assumption.
          * finish_leaf H. exact I.
        + finish_leaf H. right. split; [unsettled|].
          eexists. split; [|left; right; eexists; reflexivity]. in_list.
      - finish_leaf H. right. split; [unsettled|].
        eexists. split; [|left; left; reflexivity]. in_list. }
    case_in H.
    { (* option 2: manual resolution *)
      case_in H; [|finish_leaf H; exact I].
      case_in H.
      - case_in H; [|finish_leaf H; exact I].
        case_in H.
        + case_in H; [|finish_leaf H; exact I].
          case_in H.
          * finish_leaf H. right. split; [in_list|]. exists c. in_list.
          * continue_with IH H.
        + finish_leaf H. right. split; [unsettled|].
          eexists. split; [|left; right; eexists; reflexivity]. in_list.
      - finish_leaf H. right. split; [unsettled|].
        eexists. split; [|left; right; eexists; reflexivity]. in_list. }
    case_in H.
    { (* option 3: abort and roll back *)
      match type of H with context [_rollback_merge E ?p ?ref ?t] =>
        destruct (rollback_merge_eq E p ref t) as (y & z & Hrb) end.
      case_in H.
      - rewrite Hrb in H. finish_leaf H. left. exists y.
        unfold rollback_events. in_list.
      - finish_leaf H. exact I. }
    case_in H.
    { (* option 4: show the diff and go round again *)
      case_in H; [|finish_leaf H; exact I].
      repeat case_in H; continue_with IH H. }
    finish_leaf H. right. split; [unsettled|].
    eexists. split; [in_list|].
    right. simpl.
    repeat match goal with
           | Hc : String.eqb _ _ = false |- _ => rewrite Hc; clear Hc
           end.
    reflexivity.
Qed.

Lemma has_outcome_bind {A} backup_ref (m : M A) (k : A -> M bool) :
  emits (fun e => settles e = false) m ->
  (forall a, has_outcome backup_ref (k a)) ->
  has_outcome backup_ref (bind m k).
Proof.
  intros Hm Hk tr r tr' H. unfold bind in H.
  destruct (m tr) as [[a|e|] tr1] eqn:Hm1;
    destruct (Hm _ _ _ Hm1) as (evs1 & -> & H1).
  - destruct (Hk a _ _ _ H) as (evs2 & -> & H2).
    exists (evs1 ++ evs2)%list. rewrite app_assoc. split; [reflexivity|].
    apply conflict_outcome_prefix; assumption.
  - injection H as <- <-. exists evs1. split; [reflexivity|exact I].
  - injection H as <- <-. exists evs1. split; [reflexivity|exact I].
Qed.

(** When [_handle_merge_conflicts] returns [True] a resolution path
    confirmed completion, and when it returns [False] either the hard
    reset to the backup ref was issued or nothing that ends the merge was
    issued at all. *)
Lemma handle_merge_conflicts_outcome fuel b parent backup_ref tr r tr' :
  _handle_merge_conflicts E fuel b parent backup_ref tr = (r, tr') ->
  exists evs,
    tr' = (tr ++ evs)%list
    /\ match r with
       | Ok true => committed evs \/ manually_confirmed evs
       | Ok false => rolled_back backup_ref evs \/ left_unsettled evs
       | Raise _ => False
       | OutOfFuel => True
       end.
Proof.
  unfold _handle_merge_conflicts, try_except. intros H.
  match type of H with context [match ?m tr with _ => _ end] =>
    assert (Hbody : has_outcome backup_ref m) end.
  { apply has_outcome_bind; [emits_auto; reflexivity|]. intros _.
    apply has_outcome_bind; [emits_auto; reflexivity|]. intros result.
    apply has_outcome_bind; [emits_auto; reflexivity|]. intros _.
    apply has_outcome_bind; [unfold conflict_menu; emits_auto; reflexivity|].
    intros _. intros t r0 t' Hl. exact (conflict_loop_outcome _ _ _ _ _ _ _ Hl). }
  match type of H with context [match ?m tr with _ => _ end] =>
    destruct (m tr) as [[ok|e|] tr1] eqn:Hrun end;
    destruct (Hbody _ _ _ Hrun) as (evs & -> & Hout).
  - injection H as <- <-. exists evs. split; [reflexivity|].
    destruct ok; exact Hout.
  - unfold bind, print in H. cbv beta iota in H.
    match type of H with context [_rollback_merge E ?p ?ref ?t] =>
      destruct (rollback_merge_eq E p ref t) as (y & z & Hrb) end.
    rewrite Hrb in H. injection H as <- <-.
    eexists. split; [rewrite <- ?app_assoc; reflexivity|].
    left. exists y. apply in_or_app. right. unfold rollback_events. in_list.
  - injection H as <- <-. exists evs. split; [reflexivity|exact I].
Qed.

End Conflicts.

Lemma count_prompts_app (a b : Trace) :
  count_prompts (a ++ b)%list = count_prompts a + count_prompts b.
Proof.
  induction a as [|e a IH]; simpl; [reflexivity|].
  destruct e; simpl; rewrite IH; reflexivity.
Qed.

Section ConflictTermination.

Variable E : Env.

(** The user answers at most [n] prompts; after that the input is closed. *)
Variable n : nat.
Hypothesis input_ends :
  forall tr q, n <= count_prompts tr -> env_prompt E tr q = None.

(** With more fuel than prompts left to answer, the conflict menu comes
    to an end. *)
Lemma conflict_loop_returns fuel b parent backup_ref :
  forall tr r tr',
    count_prompts tr <= n ->
    n < fuel + count_prompts tr ->
    conflict_loop E fuel b parent backup_ref tr = (r, tr') ->
    r <> OutOfFuel.
Proof.
  induction fuel as [|fuel IH]; intros tr r tr' Hle Hlt H; [simpl in Hlt; lia|].
  cbn [conflict_loop] in H. exec_in H.
  assert (Hnext : env_prompt E tr "[cyan]Choose option[/cyan]" <> None ->
                  S (count_prompts tr) <= n).
  { intros Hsome. destruct (Nat.le_gt_cases n (count_prompts tr)) as [Hge|Hgt];
      [|lia]. rewrite (input_ends _ _ Hge) in Hsome. contradiction. }
  case_in H; [|injection H as <- _; discriminate].
  assert (Hn : S (count_prompts tr) <= n) by (apply Hnext; discriminate).
  repeat case_in H;
    try match type of H with context [_rollback_merge E ?p ?ref ?t] =>
          let Hrb := fresh "Hrb" in
          destruct (rollback_merge_eq E p ref t) as (? & ? & Hrb);
          rewrite Hrb in H
        end;
    first
      [ injection H as <- _; discriminate
      | eapply IH in H;
        [ exact H
        | rewrite !count_prompts_app; simpl; lia
        | rewrite !count_prompts_app; simpl; lia ] ].
Qed.

End ConflictTermination.

Section ConflictClaim.

Variable E : Env.
Variable root_dir : PyPath.Path.

(** C1, amended.  Once the merge command has reported conflicts and
    [merge_branch] has returned: it returned [True] only after a
    resolution path confirmed completion, which on the merge-tool path
    is the commit of the merge exiting with status 0, and on the manual
    path the user saying so, after which [git status] is consulted; or
    it returned [False] after issuing the hard reset to the backup ref
    made before the merge (abort was chosen, or the handler met an
    exception); or it returned [False] because the merge tool failed or
    a confirmation was declined, and then no abort, reset or commit was
    issued: the merge is left in progress. *)
Theorem conflict_handling_outcomes fuel b cleanup push tr0 ok evs pre argv cp post :
  run_of (merge_branch E root_dir fuel b cleanup false push) tr0 (Ok ok) evs ->
  split_at is_merge evs = Some (pre, ERun argv (Some cp), post) ->
  returncode cp <> 0%Z ->
  conflict_detected cp = true ->
  forallb listed_choice post = true ->
  exists parent backup_ref x,
    In (ERun (backup_argv backup_ref parent) x) pre
    /\ ((ok = true /\ (committed post \/ manually_confirmed post))
        \/ (ok = false /\ rolled_back backup_ref post)
        \/ (ok = false /\ left_in_progress post)).
Proof.
  intros Hrun Hsplit Hrc Hconf Hlisted.
  destruct (merge_reached E root_dir _ _ _ _ _ _ _ _ _ _ _ Hrun Hsplit)
    as (evq & target & parent & x & c & post1 & r1 & Hm).
  cbv zeta in Hm. destruct Hm as (-> & Hmatch & Hq & -> & Hc & Har & Hr).
  set (backup_ref := backup_name b (env_now E (tr0 ++ evq)%list)) in *.
  unfold after_merge in Har.
  apply Z.eqb_neq in Hrc. rewrite Hrc, Hconf in Har. cbn [negb] in Har.
  destruct (handle_merge_conflicts_outcome E _ _ _ _ _ _ _ Har)
    as (evs' & Htr & Hout).
  apply app_inv_head in Htr. subst post1.
  exists parent, backup_ref, x.
  split. { apply in_or_app. right. simpl. auto. }
  destruct r1 as [ok'|e|]; [|contradiction|destruct Hr; discriminate].
  destruct Hr as [Hok ->]. injection Hok as ->.
  destruct ok'; [left; auto|].
  destruct Hout as [Hrb|(Hall & e & Hin & [Hg|Hun])];
    [right; left; auto|right; right|exfalso].
  - split; [reflexivity|]. split; [exact Hall|]. exists e. auto.
  - rewrite forallb_forall in Hlisted. rewrite (Hlisted _ Hin) in Hun.
    discriminate Hun.
Qed.

End ConflictClaim.

Lemma conflict_handling_outcomes_witness :
  exists parent backup_ref x,
    In (ERun (backup_argv backup_ref parent) x)
       (Fixture.before_the_merge (snd Fixture.user_aborts_run))
    /\ ((false = true
         /\ (committed (Fixture.after_the_merge (snd Fixture.user_aborts_run))
             \/ manually_confirmed
                  (Fixture.after_the_merge (snd Fixture.user_aborts_run))))
        \/ (false = false
            /\ rolled_back backup_ref
                 (Fixture.after_the_merge (snd Fixture.user_aborts_run)))
        \/ (false = false
            /\ left_in_progress
                 (Fixture.after_the_merge (snd Fixture.user_aborts_run)))).
Proof.
  apply (conflict_handling_outcomes Fixture.user_aborts Fixture.repo_root 3
           "feature/x" true true [] false (snd Fixture.user_aborts_run)
           (Fixture.before_the_merge (snd Fixture.user_aborts_run))
           (merge_argv "feature/x") Fixture.conflict_output
           (Fixture.after_the_merge (snd Fixture.user_aborts_run))).
  - vm_compute. reflexivity.
  - vm_compute. reflexivity.
  - vm_compute. discriminate.
  - vm_compute. reflexivity.
  - vm_compute. reflexivity.
Defined.

(** C1 as stated fails twice.  When the user picks the merge tool and the
    tool fails, [merge_branch] returns [False] and the events after the
    merge command hold neither a commit, nor a status listing, nor an
    abort, nor a reset: the merge is left in progress.  And when the user
    picks abort but neither [git merge --abort] nor [git reset --hard]
    succeeds, [merge_branch] reports the rollback as complete and returns
    [False] all the same: the exit status of these commands is not read. *)
Lemma left_mid_conflict_counterexample :
  ~ never_left_mid_conflict
  /\ (fst Scenario.failed_abort_run = Ok false
      /\ In (EPrompt "[cyan]Choose option[/cyan]" (Some "3"))
            (Fixture.after_the_merge (snd Scenario.failed_abort_run))
      /\ In (EPrint (restored_msg "backup/feature/x-20240101-120000"))
            (Fixture.after_the_merge (snd Scenario.failed_abort_run))
      /\ ~ fully_rolled_back (Fixture.after_the_merge (snd Scenario.failed_abort_run))).
Proof.
  split.
  - intros Hclaim.
    destruct (Hclaim Fixture.tool_fails Fixture.repo_root 3 "feature/x" true true
                [] false (snd Fixture.tool_fails_run)
                (Fixture.before_the_merge (snd Fixture.tool_fails_run))
                (merge_argv "feature/x") Fixture.conflict_output
                (Fixture.after_the_merge (snd Fixture.tool_fails_run)))
      as [[(cp & Hin & _)|(cp & Hin & _)]|(av & cp & Hin & Hrc & Harg)].
    + vm_compute. reflexivity.
    + vm_compute. reflexivity.
    + vm_compute. discriminate.
    + vm_compute. reflexivity.
    + vm_compute in Hin.
      repeat (destruct Hin as [Hin|Hin]; [discriminate Hin|]). exact Hin.
    + vm_compute in Hin.
      repeat (destruct Hin as [Hin|Hin]; [discriminate Hin|]). exact Hin.
    + vm_compute in Hin. unfold merge_abort_argv, reset_argv in Harg.
      repeat (destruct Hin as [Hin|Hin];
              [first [ discriminate Hin
                     | injection Hin as <- <-;
                       first [ discriminate Hrc
                             | destruct Harg as [Ha|(ref & Ha)]; discriminate Ha ] ]|]).
      exact Hin.
  - split; [vm_compute; reflexivity|].
    split; [vm_compute; in_list|].
    split; [vm_compute; in_list|].
    intros (av & cp & Hin & Hrc & Harg).
    vm_compute in Hin. unfold merge_abort_argv, reset_argv in Harg.
    repeat (destruct Hin as [Hin|Hin];
            [first [ discriminate Hin
                   | injection Hin as <- <-;
                     first [ discriminate Hrc
                           | destruct Harg as [Ha|(ref & Ha)]; discriminate Ha ] ]|]).
    exact Hin.
Qed.

(* ================================================================== *)
(** * Batch operations in dry-run mode *)
(* ================================================================== *)

Lemma for_each_print {A} (f : A -> string) (l : list A) (tr : Trace) :
  for_each (fun _ c => print (f c)) l tt tr
  = (Ok tt, (tr ++ map (fun c => EPrint (f c)) l)%list).
Proof.
  revert tr. induction l as [|c l IH]; intros tr; simpl.
  - unfold ret. rewrite app_nil_r. reflexivity.
  - unfold bind, print. rewrite IH, <- app_assoc. reflexivity.
Qed.

Lemma in_cleanup_candidates (b : string) (merged : list string)
  (wts : list Worktree) :
  In b (map fst (cleanup_candidates_of merged wts)) ->
  In b merged /\ exists wt, In wt wts /\ branch wt = Some b.
Proof.
  unfold cleanup_candidates_of. rewrite in_map_iff.
  intros ([b' wt] & Hb & Hin). simpl in Hb. subst b'.
  apply in_flat_map in Hin as (m & Hm & Hin).
  apply in_map_iff in Hin as (wt' & Heq & Hin). injection Heq as -> ->.
  apply filter_In in Hin as (Hin & Hb). unfold has_branch in Hb.
  destruct (branch wt) as [b'|] eqn:Hbr; [|discriminate].
  apply String.eqb_eq in Hb. subst b'. eauto.
Qed.

Lemma in_merged_branches (b out : string) :
  In b (merged_branches_of out) -> is_trunk b = false.
Proof.
  unfold merged_branches_of. rewrite in_map_iff.
  intros (line & <- & Hin). apply filter_In in Hin as (_ & H).
  apply andb_prop in H as (_ & H). apply negb_true_iff in H. exact H.
Qed.

Lemma cleanup_candidates_nil (merged : list string) :
  cleanup_candidates_of merged [] = [].
Proof. induction merged as [|m ms IH]; simpl; auto. Qed.

Section DryRun.

Variable E : Env.
Variable root_dir : PyPath.Path.

Lemma auto_clean_dry_quiet :
  emits (fun e => quiet e = true) (auto_clean E root_dir true).
Proof.
  unfold auto_clean. apply emits_try; [|intros e; emits_auto; reflexivity].
  apply emits_bind; [emits_auto; reflexivity|]. intros _.
  apply emits_bind; [emits_auto; reflexivity|]. intros result.
  destruct (negb (returncode result =? 0)%Z); [emits_auto; reflexivity|].
  cbv zeta. destruct (merged_branches_of (stdout result)) as [|m ms];
    [emits_auto; reflexivity|].
  apply emits_bind; [apply get_worktrees_quiet|]. intros wts.
  destruct (cleanup_candidates_of (m :: ms) wts) as [|c cs];
    [emits_auto; reflexivity|].
  cbv iota. emits_auto; reflexivity.
Qed.

Lemma auto_clean_dry_returns : returns (auto_clean E root_dir true).
Proof.
  unfold auto_clean. apply returns_try.
  - apply total_bind; [total_auto|]. intros _.
    apply total_bind; [total_auto|]. intros result.
    destruct (negb (returncode result =? 0)%Z); [total_auto|].
    cbv zeta. destruct (merged_branches_of (stdout result)) as [|m ms];
      [total_auto|].
    apply total_bind; [apply get_worktrees_total|]. intros wts.
    destruct (cleanup_candidates_of (m :: ms) wts) as [|c cs]; [total_auto|].
    cbv iota. total_auto.
  - intros e. apply returns_bind; [apply returns_print|].
    intros _. apply returns_ret.
Qed.

Lemma in_map_branch (b : string) (raws : list RawWorktree) (wts : list Worktree) :
  map raw_branch raws = map branch wts ->
  (exists wt, In wt wts /\ branch wt = Some b) ->
  exists raw, In raw raws /\ raw_branch raw = Some b.
Proof.
  intros Hmap (wt & Hin & Hb).
  assert (Hs : In (Some b) (map raw_branch raws)).
  { rewrite Hmap, <- Hb. apply in_map, Hin. }
  apply in_map_iff in Hs as (raw & Hr & Hin'). eauto.
Qed.

(** Every name returned by the dry run is a merged branch, not a trunk,
    that is the branch of a listed worktree. *)
Lemma auto_clean_dry_names tr names evs :
  auto_clean E root_dir true tr = (Ok names, (tr ++ evs)%list) ->
  forall b, In b names ->
    is_trunk b = false
    /\ exists cm cw raw,
         In (ERun merged_argv (Some cm)) evs
         /\ returncode cm = 0%Z
         /\ In b (merged_branches_of (stdout cm))
         /\ In (ERun worktree_list_argv (Some cw)) evs
         /\ returncode cw = 0%Z
         /\ In raw (parse_porcelain (stdout cw))
         /\ raw_branch raw = Some b.
Proof.
  intros H b Hb. unfold auto_clean, try_except in H.
  unfold bind, print, run, ret in H. cbv beta iota zeta in H.
  case_in H; [|injection H as <- _; contradiction].
  case_in H; [injection H as <- _; contradiction|].
  destruct (merged_branches_of (stdout c)) as [|m ms] eqn:Hmb;
    [injection H as <- _; contradiction|].
  rewrite get_worktrees_eq in H.
  case_in H; [|injection H as <- _; contradiction].
  case_in H.
  - match type of H with context [annotate E root_dir ?t ?d ?l] =>
      destruct (annotate E root_dir t d l) as [wts|e|] eqn:Hann end;
      [|injection H as <- _; contradiction|discriminate H].
    apply annotate_ok in Hann as (new & -> & _ & Hbr & _). simpl in Hbr.
    destruct (cleanup_candidates_of (m :: ms) ([] ++ new)) as [|cand cs] eqn:Hcc;
      [injection H as <- _; contradiction|].
    pose proof (@for_each_print (string * Worktree)) as Hfp.
    unfold print in Hfp. rewrite Hfp in H. clear Hfp. injection H as <- Htr.
    rewrite <- ?app_assoc in Htr. apply app_inv_head in Htr. subst evs.
    change (fst cand :: map fst cs) with (map fst (cand :: cs)) in Hb.
    rewrite <- Hcc in Hb. apply in_cleanup_candidates in Hb as (Hm & Hwt).
    rewrite <- Hmb in Hm. split; [exact (in_merged_branches _ _ Hm)|].
    destruct (in_map_branch b _ _ Hbr Hwt) as (raw & Hraw & Hrb).
    exists c, c0, raw.
    apply negb_false_iff, Z.eqb_eq in Heqb0. apply Z.eqb_eq in Heqb1.
    repeat split; auto; in_list.
  - rewrite cleanup_candidates_nil in H. injection H as <- _. contradiction.
Qed.

(** When the merged branches and the worktrees could be listed, the dry
    run returns exactly the candidates: for each merged branch other than
    the trunks, in order, one entry per worktree on that branch. *)
Lemma auto_clean_dry_exact tr cm wts tr2 :
  env_run E (tr ++ [EPrint scanning_msg])%list merged_argv = Some cm ->
  returncode cm = 0%Z ->
  get_worktrees E root_dir
    (tr ++ [EPrint scanning_msg; ERun merged_argv (Some cm)])%list = (Ok wts, tr2) ->
  fst (auto_clean E root_dir true tr)
  = Ok (map fst (cleanup_candidates_of (merged_branches_of (stdout cm)) wts)).
Proof.
  intros Hm Hrc Hgw. unfold auto_clean, try_except.
  unfold bind at 1. unfold print at 1. unfold bind at 1. unfold run at 1.
  fold scanning_msg. rewrite Hm, Hrc. cbn [Z.eqb negb]. cbv zeta.
  destruct (merged_branches_of (stdout cm)) as [|m ms] eqn:Hmb; [reflexivity|].
  unfold bind at 1. rewrite <- app_assoc. cbn [app]. rewrite Hgw.
  destruct (cleanup_candidates_of (m :: ms) wts) as [|c cs] eqn:Hcc; [reflexivity|].
  unfold bind at 1. unfold print at 1. unfold bind at 1.
  rewrite for_each_print. reflexivity.
Qed.

(** The dry run of [auto_clean].  Every event of the run is a read-only
    command, a message or a question, so no branch and no worktree is
    created, deleted or moved by it; each returned name is a line of the
    merged listing, as [branch_of_line] reads it, that is not [main] or
    [master] and is the branch of a worktree of the listing; and when
    both listings succeed the result is the list of candidates. *)
Lemma auto_clean_dry_run_read_only tr r tr' :
  auto_clean E root_dir true tr = (r, tr') ->
  exists names evs,
    r = Ok names
    /\ tr' = (tr ++ evs)%list
    /\ Forall (fun e => quiet e = true) evs
    /\ (forall b, In b names ->
          is_trunk b = false
          /\ exists cm cw raw,
               In (ERun merged_argv (Some cm)) evs
               /\ returncode cm = 0%Z
               /\ In b (merged_branches_of (stdout cm))
               /\ In (ERun worktree_list_argv (Some cw)) evs
               /\ returncode cw = 0%Z
               /\ In raw (parse_porcelain (stdout cw))
               /\ raw_branch raw = Some b)
    /\ (forall cm wts tr2,
          env_run E (tr ++ [EPrint scanning_msg])%list merged_argv = Some cm ->
          returncode cm = 0%Z ->
          get_worktrees E root_dir
            (tr ++ [EPrint scanning_msg; ERun merged_argv (Some cm)])%list
          = (Ok wts, tr2) ->
          names = map fst (cleanup_candidates_of
                             (merged_branches_of (stdout cm)) wts)).
Proof.
  intros H.
  destruct (auto_clean_dry_returns tr) as [names Hnames].
  rewrite H in Hnames. simpl in Hnames. subst r.
  destruct (auto_clean_dry_quiet _ _ _ H) as (evs & -> & Hq).
  exists names, evs.
  split; [reflexivity|]. split; [reflexivity|]. split; [exact Hq|]. split.
  - intros b Hb. exact (auto_clean_dry_names _ _ _ H b Hb).
  - intros cm wts tr2 Hm Hrc Hgw.
    pose proof (auto_clean_dry_exact _ _ _ _ Hm Hrc Hgw) as Hex.
    rewrite H in Hex. simpl in Hex. injection Hex as ->. reflexivity.
Qed.

End DryRun.

Section ShipAll.

Variable E : Env.
Variable root_dir : PyPath.Path.

Lemma scan_worktree_quiet acc wt :
  emits (fun e => quiet e = true) (scan_worktree E acc wt).
Proof.
  unfold scan_worktree. destruct (negb _ && _ && _); [|apply emits_ret].
  apply emits_bind; [apply get_parent_branch_quiet|].
  intros [[|c p]|]; [apply emits_ret| |apply emits_ret].
  unfold parse_count. emits_auto; reflexivity.
Qed.


End ShipAll.

Section ShipAllSpec.

Variable E : Env.
Variable root_dir : PyPath.Path.

(** The repository does not change while it is only read: git answers by
    command line alone, can always be started, and prints a number when
    asked for a count. *)
Variable git : list string -> option CompletedProcess.
Hypothesis stationary : forall tr argv, env_run E tr argv = git argv.
Hypothesis git_starts : forall argv, git argv <> None.
Hypothesis counts_are_numbers :
  forall parent b,
    succeeded (git (rev_list_argv parent b)) = true ->
    PyStr.int (PyStr.strip (output (git (rev_list_argv parent b)))) <> None.

Lemma first_existing_ref_stationary (l : list string) : forall tr,
  exists tr',
    first_existing_ref E l tr
    = (Ok (find (fun c => succeeded (git (show_ref_argv c))) l), tr').
Proof.
  induction l as [|c l IH]; intros tr; simpl.
  - unfold ret. eauto.
  - unfold bind, run. rewrite stationary.
    pose proof (git_starts (show_ref_argv c)) as H.
    destruct (git (show_ref_argv c)) as [cp|]; [|contradiction]. simpl.
    destruct (returncode cp =? 0)%Z; [unfold ret; eauto|apply IH].
Qed.

Lemma parent_branch_stationary (wt : Worktree) (tr : Trace) :
  exists tr', _get_parent_branch E wt tr = (Ok (resolveParentBranch git wt), tr').
Proof.
  unfold _get_parent_branch, resolveParentBranch.
  unfold bind at 1. unfold try_except, bind, run. rewrite stationary.
  pose proof (git_starts (config_argv wt)) as H1.
  destruct (git (config_argv wt)) as [c1|]; [|contradiction].
  cbv beta iota. cbn [succeeded output].
  destruct (returncode c1 =? 0)%Z; [unfold ret; eauto|].
  destruct (first_existing_ref_stationary ["main"; "master"]
              (tr ++ [ERun (config_argv wt) (Some c1)])%list) as (tr' & Hf).
  unfold ret. cbv beta iota. rewrite Hf. exists tr'. cbn [find].
  destruct (succeeded (git (show_ref_argv "main"))); [reflexivity|].
  destruct (succeeded (git (show_ref_argv "master"))); reflexivity.
Qed.

Lemma scan_worktree_stationary acc wt tr :
  exists tr',
    scan_worktree E acc wt tr
    = (Ok (acc ++ if ready git wt then [candidate_of git wt] else [])%list, tr').
Proof.
  unfold scan_worktree, ready, candidate_of. fold (branch_or_empty wt).
  destruct (negb (branch_or_empty wt =? "") && negb (is_trunk (branch_or_empty wt))
            && negb (detached wt)); cbn [andb];
    [|unfold ret; rewrite app_nil_r; eauto].
  unfold bind at 1.
  destruct (parent_branch_stationary wt tr) as (tr1 & ->).
  destruct (resolveParentBranch git wt) as [[|c p]|];
    try (unfold ret; rewrite app_nil_r; eauto; fail).
  unfold bind at 1. unfold run. rewrite stationary. unfold commitsAhead.
  pose proof (git_starts (rev_list_argv (String c p) (branch_or_empty wt))) as H1.
  pose proof (counts_are_numbers (String c p) (branch_or_empty wt)) as H2.
  destruct (git (rev_list_argv (String c p) (branch_or_empty wt))) as [cp|];
    [|contradiction].
  simpl in H2 |- *.
  destruct (returncode cp =? 0)%Z; [|unfold ret; rewrite app_nil_r; eauto].
  unfold parse_count, bind.
  destruct (PyStr.int (PyStr.strip (stdout cp))) as [n|];
    [|exfalso; apply H2; reflexivity].
  unfold ret. destruct (0 <? n)%Z; [eauto|rewrite app_nil_r; eauto].
Qed.

Lemma scan_all_stationary (wts : list Worktree) : forall acc tr,
  exists tr',
    for_each (scan_worktree E) wts acc tr
    = (Ok (acc ++ map (candidate_of git) (filter (ready git) wts))%list, tr').
Proof.
  induction wts as [|wt wts IH]; intros acc tr; simpl.
  - unfold ret. rewrite app_nil_r. eauto.
  - unfold bind. destruct (scan_worktree_stationary acc wt tr) as (tr1 & ->).
    destruct (IH (acc ++ if ready git wt then [candidate_of git wt] else [])%list tr1)
      as (tr2 & ->).
    exists tr2. destruct (ready git wt); simpl; rewrite <- ?app_assoc, ?app_nil_r;
      reflexivity.
Qed.

(** Whenever the listing is returned, the dry run of [ship_all] returns
    exactly the branches of the worktrees that are ready, in listing
    order. *)
Lemma ship_all_dry_run_exact fuel tr wts tr1 :
  get_worktrees E root_dir
    (tr ++ [EPrint "[yellow]Scanning for ready branches...[/yellow]"])%list
  = (Ok wts, tr1) ->
  fst (ship_all E root_dir fuel true tr)
  = Ok (map branch_or_empty (filter (ready git) wts)).
Proof.
  intros Hgw. unfold ship_all, try_except.
  unfold bind at 1. unfold print at 1. unfold bind at 1. rewrite Hgw.
  unfold bind at 1.
  destruct (scan_all_stationary wts [] tr1) as (tr2 & ->). cbn [app].
  assert (Hnames : map ship_branch (map (candidate_of git) (filter (ready git) wts))
                   = map branch_or_empty (filter (ready git) wts)).
  { rewrite map_map. reflexivity. }
  destruct (map (candidate_of git) (filter (ready git) wts)) as [|c cs] eqn:Hc.
  - rewrite <- Hnames. reflexivity.
  - unfold bind at 1. unfold print at 1. unfold bind at 1.
    rewrite for_each_print. rewrite <- Hnames. reflexivity.
Qed.

End ShipAllSpec.

(** The exact result on the repository that lists the child first. *)
Example ship_all_child_first_exact :
  fst (ship_all Fixture.child_first_world Fixture.repo_root 1 true [])
  = Ok (map branch_or_empty
            (filter (ready (Fixture.git_nested Fixture.listing_child_first))
                    (match fst (get_worktrees Fixture.child_first_world
                                  Fixture.repo_root
                                  [EPrint "[yellow]Scanning for ready branches...[/yellow]"])
                     with
                     | Ok wts => wts
                     | _ => []
                     end))).
Proof.
  eapply (ship_all_dry_run_exact Fixture.child_first_world Fixture.repo_root
            (Fixture.git_nested Fixture.listing_child_first)).
  - reflexivity.
  - intros argv. unfold Fixture.git_nested, Fixture.git_table, Fixture.ok,
      Fixture.failed.
    repeat match goal with
           | |- context [if ?c then _ else _] => destruct c
           end; discriminate.
  - intros parent b. unfold Fixture.git_nested, Fixture.git_table.
    change (Fixture.argv_eqb worktree_list_argv (rev_list_argv parent b))
      with false.
    change (Fixture.argv_eqb (show_ref_argv "main") (rev_list_argv parent b))
      with false.
    cbv iota.
    repeat match goal with
           | |- context [if ?c then _ else _] => destruct c
           end; intros H; try discriminate H; vm_compute; discriminate.
  - vm_compute. reflexivity.
Qed.

(** C7 fails on a repository with a nested worktree.  Git lists the
    worktree [a] before the worktree [b] nested under it; the metadata
    pass of [get_worktrees] then reads the name of [b] before it has been
    set and raises [KeyError]; [ship_all] reports the error and returns
    the empty list, although both [a] and [b] are ahead of [main].  With
    the child listed first, the same repository gives both branches. *)
Theorem ship_all_nested_worktrees :
  fst (get_worktrees Fixture.nested_world Fixture.repo_root []) = Raise (KeyError "name")
  /\ Fixture.git_nested Fixture.listing_nested (rev_list_argv "main" "a")
     = Fixture.ok (Fixture.lines ["3"])
  /\ Fixture.git_nested Fixture.listing_nested (rev_list_argv "main" "b")
     = Fixture.ok (Fixture.lines ["1"])
  /\ ship_all Fixture.nested_world Fixture.repo_root 1 true []
     = (Ok [],
        [EPrint "[yellow]Scanning for ready branches...[/yellow]";
         ERun worktree_list_argv (Fixture.ok Fixture.listing_nested);
         EPrint "[red]Error during ship-all: error[/red]"])
  /\ fst (ship_all Fixture.child_first_world Fixture.repo_root 1 true [])
     = Ok ["b"; "a"].
Proof. repeat split; vm_compute; reflexivity. Qed.

(* ================================================================== *)
(** * Resolving the target worktree *)
(* ================================================================== *)

Lemma find_first {A} (f : A -> bool) (l : list A) (x : A) :
  find f l = Some x <->
  exists before after,
    l = (before ++ x :: after)%list /\ f x = true
    /\ Forall (fun y => f y = false) before.
Proof.
  split.
  - induction l as [|y l IH]; simpl; [discriminate|].
    destruct (f y) eqn:Hy.
    + intros H. injection H as ->. exists [], l. auto.
    + intros H. destruct (IH H) as (before & after & -> & Hx & Hb).
      exists (y :: before), after. auto.
  - intros (before & after & -> & Hx & Hb).
    induction Hb as [|y before Hy _ IH]; simpl.
    + rewrite Hx. reflexivity.
    + rewrite Hy. exact IH.
Qed.

Section TargetResolution.

Variable E : Env.
Variable root_dir : PyPath.Path.

(** Parent resolution starts with the native lookup for the record. *)
Lemma parent_first_event (wt : Worktree) tr r tr' :
  _get_parent_branch E wt tr = (r, tr') ->
  exists x rest, tr' = (tr ++ ERun (config_argv wt) x :: rest)%list.
Proof.
  unfold _get_parent_branch. unfold bind at 1. unfold try_except, bind, run.
  destruct (env_run E tr (config_argv wt)) as [cp|] eqn:Hc.
  - destruct (returncode cp =? 0)%Z.
    + intros H. injection H as <- <-. eexists _, []. reflexivity.
    + intros H.
      destruct (first_existing_ref_quiet E _ _ _ _ H) as (evs & -> & _).
      eexists _, evs. rewrite <- app_assoc. reflexivity.
  - intros H.
    destruct (first_existing_ref_quiet E _ _ _ _ H) as (evs & -> & _).
    eexists _, evs. rewrite <- app_assoc. reflexivity.
Qed.

Lemma after_resolve_extends fuel b parent wt cleanup push backup_ref :
  emits (fun _ => True) (after_resolve E fuel b parent wt cleanup push backup_ref).
Proof.
  unfold after_resolve.
  emits_auto; try exact I.
  eapply emits_weaken; [|apply after_merge_follows]. auto.
Qed.

(** Every merge command of a run names the identifier that was given. *)
Lemma merge_names_identifier fuel id cleanup push tr0 r evs :
  run_of (merge_branch E root_dir fuel id cleanup false push) tr0 r evs ->
  forall e, In e evs -> is_merge e = true ->
    exists answer, e = ERun (merge_argv id) answer.
Proof.
  intros H e Hin Hm.
  destruct (merge_branch_shape _ _ _ _ _ _ _ _ _ H)
    as [Hq|(pre & target & parent & x & post & Hs)].
  - rewrite Forall_forall in Hq. apply Hq, quiet_not_merge in Hin. congruence.
  - cbv zeta in Hs. destruct Hs as (-> & Hq & _ & _ & _ & Hpost).
    apply in_app_or in Hin as [Hin|[<-|Hin]].
    + rewrite Forall_forall in Hq. apply Hq, quiet_not_merge in Hin. congruence.
    + discriminate Hm.
    + rewrite Forall_forall in Hpost.
      exact (pipeline_merge_names _ _ _ _ _ (Hpost _ Hin) Hm).
Qed.

(** How the target is resolved.  [merge_branch] takes as target the first
    record of the listing whose branch or whose name is the given
    identifier, the name being the last segment of the path, or [main]
    for the root worktree.  When no record matches, it prints the
    not-found message and returns [False]; when a record matches, it goes
    on to the parent lookup keyed by the branch of that record.  The
    merge command, however, names the identifier as it was given, not
    the branch of the record. *)
Lemma target_resolution fuel id cleanup push tr0 r evs wts ev1 :
  get_worktrees E root_dir tr0 = (Ok wts, (tr0 ++ ev1)%list) ->
  run_of (merge_branch E root_dir fuel id cleanup false push) tr0 r evs ->
  Forall (fun wt => name wt = derived_name root_dir (path wt)) wts
  /\ (forall wt,
        find_target id wts = Some wt <->
        exists before after,
          wts = (before ++ wt :: after)%list
          /\ (branch wt = Some id \/ name wt = id)
          /\ Forall (fun w => branch w <> Some id /\ name w <> id) before)
  /\ (find_target id wts = None ->
      r = Ok false /\ evs = (ev1 ++ [EPrint (not_found_msg id)])%list)
  /\ (forall wt, find_target id wts = Some wt ->
        exists x rest, evs = (ev1 ++ ERun (config_argv wt) x :: rest)%list)
  /\ (forall e, In e evs -> is_merge e = true ->
        exists answer, e = ERun (merge_argv id) answer).
Proof.
  intros Hgw H.
  assert (Hmatch : forall w, matches id w = true <->
                             (branch w = Some id \/ name w = id)).
  { intros w. unfold matches. rewrite orb_true_iff, String.eqb_eq.
    destruct (branch w) as [bw|].
    - rewrite String.eqb_eq. split; intros [Hb|Hn]; auto; left; congruence.
    - split; intros [Hb|Hn]; auto; discriminate. }
  split; [|split; [|split; [|split]]].
  - rewrite get_worktrees_eq in Hgw.
    destruct (env_run E tr0 worktree_list_argv) as [cp|]; [|discriminate].
    destruct (returncode cp =? 0)%Z.
    + injection Hgw as Ha _. apply annotate_ok in Ha as (new & -> & _ & _ & _ & Hn).
      exact Hn.
    + injection Hgw as <- _. constructor.
  - intros wt. unfold find_target. rewrite find_first.
    split; intros (before & after & -> & Hx & Hb); exists before, after;
      (split; [reflexivity|]); (split; [apply Hmatch; exact Hx|]);
      eapply Forall_impl; try exact Hb; intros w Hw.
    + split; intros Hc; [assert (Ht : matches id w = true) by (apply Hmatch; auto)
                        |assert (Ht : matches id w = true) by (apply Hmatch; auto)];
        congruence.
    + destruct (matches id w) eqn:Hmw; [|reflexivity].
      apply Hmatch in Hmw. destruct Hw as [Hw1 Hw2]. destruct Hmw; contradiction.
  - intros Hnone. unfold run_of in H. rewrite merge_branch_steps in H.
    unfold try_except in H. unfold bind at 1 in H. rewrite Hgw, Hnone in H.
    unfold bind, print, ret in H. injection H as <- Htr.
    rewrite <- app_assoc in Htr. apply app_inv_head in Htr. auto.
  - intros wt Hsome. unfold run_of in H. rewrite merge_branch_steps in H.
    unfold try_except in H. unfold bind at 1 in H. rewrite Hgw, Hsome in H.
    unfold bind at 1 in H.
    destruct (_get_parent_branch E wt (tr0 ++ ev1)%list) as [rp tr2] eqn:Hp.
    destruct (parent_first_event _ _ _ _ Hp) as (x & rest & ->).
    assert (Hext : forall (m : M bool) rr tt,
               emits (fun _ => True) m ->
               m ((tr0 ++ ev1) ++ ERun (config_argv wt) x :: rest)%list = (rr, tt) ->
               exists more, tt = (tr0 ++ ev1 ++ ERun (config_argv wt) x
                                      :: rest ++ more)%list).
    { intros m rr tt Hm Hrun. destruct (Hm _ _ _ Hrun) as (more & -> & _).
      exists more. rewrite <- !app_assoc. reflexivity. }
    assert (Hdone : exists rest', (tr0 ++ evs)%list
                      = (tr0 ++ ev1 ++ ERun (config_argv wt) x :: rest')%list).
    { destruct rp as [[[|c p]|]|e|].
      - unfold bind, print, ret in H. injection H as _ <-.
        eexists. rewrite <- !app_assoc. reflexivity.
      - destruct (bind _ _ _) as [[ok|e|] tt] eqn:Hk in H;
          (eapply Hext in Hk;
           [|apply emits_bind; [apply emits_read; intros; apply emits_ret
                               |intros; apply after_resolve_extends]]);
          destruct Hk as (more & ->).
        + injection H as _ <-. eexists. reflexivity.
        + unfold bind, print, ret in H. injection H as _ <-.
          eexists. rewrite <- !app_assoc. reflexivity.
        + injection H as _ <-. eexists. reflexivity.
      - unfold bind, print, ret in H. injection H as _ <-.
        eexists. rewrite <- !app_assoc. reflexivity.
      - unfold bind, print, ret in H. injection H as _ <-.
        eexists. rewrite <- !app_assoc. reflexivity.
      - injection H as _ <-. eexists. rewrite <- !app_assoc. reflexivity. }
    destruct Hdone as (rest' & Heq). apply app_inv_head in Heq. eauto.
  - exact (merge_names_identifier _ _ _ _ _ _ _ H).
Qed.

End TargetResolution.

(* ================================================================== *)
(** * The properties on concrete repositories *)
(* ================================================================== *)

Example merge_by_branch_succeeds : fst Fixture.by_branch_run = Ok true.
Proof. reflexivity. Qed.

Example merge_by_directory_fails : fst Fixture.by_directory_run = Ok false.
Proof. reflexivity. Qed.

Example dry_clean_names : fst Fixture.dry_clean_run = Ok ["feature/x"].
Proof. reflexivity. Qed.



Lemma get_parent_branch_precedence_witness :
  fst (_get_parent_branch (Fixture.world Fixture.git_town [] [] [])
                          Fixture.feature_wt [])
  = Ok (Some "develop")
  /\ fst (_get_parent_branch Fixture.by_branch_world Fixture.feature_wt [])
     = Ok (Some "main").
Proof.
  split.
  - exact (proj1 (proj2 (get_parent_branch_precedence
                           (Fixture.world Fixture.git_town [] [] [])
                           Fixture.feature_wt [])) eq_refl).
  - exact (proj1 (proj2 (proj2 (get_parent_branch_precedence
                                  Fixture.by_branch_world
                                  Fixture.feature_wt []))) eq_refl eq_refl).
Defined.

(** C8.  [auto_clean(dry_run=True)] does not return the merged branches
    that have a worktree of their own.  Git marks the branch checked out
    in the current worktree with [*] and a branch checked out in another
    worktree with [+].  The comprehension of [auto_clean] removes [*]
    only, so the line [+ feature/x] is read as the name [+ feature/x],
    which is the branch of no worktree: the dry run reports that no
    worktree was found and returns the empty list, although [feature/x]
    is merged and its worktree is listed.  Had git printed the line
    without the marker, the branch would have been returned. *)
Theorem auto_clean_misses_linked_worktrees :
  merged_branches_of (Fixture.lines ["+ feature/x"; "* main"]) = ["+ feature/x"]
  /\ In Fixture.feature_wt Fixture.listed
  /\ branch Fixture.feature_wt = Some "feature/x"
  /\ Scenario.linked_clean_run
     = (Ok [],
        [EPrint scanning_msg;
         ERun merged_argv (Fixture.ok (Fixture.lines ["+ feature/x"; "* main"]));
         ERun worktree_list_argv (Fixture.ok Fixture.listing_two);
         EPrint "[green]No worktrees found for merged branches[/green]"])
  /\ merged_branches_of (Fixture.lines ["  feature/x"; "* main"]) = ["feature/x"]
  /\ fst Fixture.dry_clean_run = Ok ["feature/x"].
Proof.
  repeat split; try (vm_compute; reflexivity).
  vm_compute. in_list.
Qed.

(** C10.  A worktree whose directory name differs from its branch is
    found by either identifier, but merged by one only.  The worktree of
    branch [feature/x] lives in the directory [feat-x].  Given
    [feature/x], [merge_branch] merges it and returns [True].  Given
    [feat-x], it finds the same record and resolves the parent from it,
    but then runs [git merge feat-x --no-ff]: the merge command takes the
    identifier, not the branch of the record.  No ref has that name, git
    refuses, the merge is rolled back and the result is [False]. *)
Theorem merge_by_directory_name :
  find_target "feature/x" Fixture.listed = Some Fixture.feature_wt
  /\ find_target "feat-x" Fixture.listed = Some Fixture.feature_wt
  /\ branch Fixture.feature_wt = Some "feature/x"
  /\ fst Fixture.by_branch_run = Ok true
  /\ In (ERun (merge_argv "feature/x") (Fixture.ok "")) (snd Fixture.by_branch_run)
  /\ Fixture.by_directory_run
     = (Ok false,
        (snd Fixture.listing_run
         ++ [ERun (config_argv Fixture.feature_wt) (Fixture.failed 1 "");
             ERun (show_ref_argv "main") (Fixture.ok "1111 refs/heads/main");
             ERun (backup_argv "backup/feat-x-20240101-120000" "main")
                  (Fixture.ok "");
             EPrint (created_msg "backup/feat-x-20240101-120000");
             EPrint (merging_msg "feat-x" "main");
             ERun (checkout_argv "main") (Fixture.ok "");
             ERun (merge_argv "feat-x")
                  (Fixture.failed 1 "merge: feat-x - not something we can merge");
             EPrint (merge_failed_msg
                       (mkCP 1 "" "merge: feat-x - not something we can merge"))]
         ++ rollback_events Fixture.by_branch_world "backup/feat-x-20240101-120000"
              (Fixture.ok "") (Fixture.ok ""))%list).
Proof.
  repeat split; try (vm_compute; reflexivity).
  vm_compute. in_list.
Qed.

(* ================================================================== *)
(** * Further properties: the listing *)
(* ================================================================== *)

Ltac trace_eq :=
  repeat (progress (rewrite <- ?app_assoc; cbn [app])); reflexivity.

Ltac events_of H :=
  injection H as <- H;
  repeat (progress (rewrite <- ?app_assoc in H; cbn [app] in H));
  apply app_inv_head in H; subst.

Ltac all_quiet :=
  repeat (first [ apply Forall_nil
                | apply Forall_cons; [reflexivity|]
                | apply Forall_app; split
                | assumption ]).

Ltac in_events :=
  repeat (progress (rewrite ?in_app_iff; cbn [In])); tauto.

Section Nesting.
Variable E : Env.
Variable root_dir : PyPath.Path.

Lemma children_of_raw_ok p rest l : children_of_raw p rest = Ok l -> l = [].
Proof.
  induction rest as [|c rest IH]; simpl.
  - intros H; injection H as <-; reflexivity.
  - destruct (raw_path c); [|discriminate].
    destruct (PyPath.eqb _ p); [discriminate|]. exact IH.
Qed.

Lemma children_of_raw_spec p rest :
  Forall (fun wt => raw_path wt <> None) rest ->
  children_of_raw p rest
  = if forallb (fun c => negb (nested_in p c)) (raw_paths rest)
    then Ok [] else Raise (KeyError "name").
Proof.
  induction 1 as [|c rest Hc _ IH]; simpl; [reflexivity|].
  destruct (raw_path c) as [cp|]; [|congruence].
  simpl. unfold nested_in at 1.
  destruct (PyPath.eqb _ p); simpl; [reflexivity|exact IH].
Qed.

Lemma children_of_spec p done rest :
  children_of p done rest
  = match children_of_raw p rest with
    | Ok _ => Ok (map name (filter (fun c => nested_in p (path c)) done))
    | other => other
    end.
Proof.
  induction done as [|d done IH]; simpl.
  - destruct (children_of_raw p rest) eqn:H; try reflexivity.
    apply children_of_raw_ok in H. subst. reflexivity.
  - rewrite IH. destruct (children_of_raw p rest); try reflexivity.
    unfold nested_in.
    destruct (PyPath.eqb _ p); reflexivity.
Qed.

Lemma annotate_one_cases tr done wt rest ps :
  raw_path wt = Some ps ->
  Forall (fun wt => raw_path wt <> None) rest ->
  let unnested :=
    forallb (fun c => negb (nested_in (PyPath.of_string ps) c)) (raw_paths rest) in
  (hosts_children E root_dir tr ps = true /\ unnested = false
   /\ annotate_one E root_dir tr done wt rest = Raise (KeyError "name"))
  \/ (exists wt',
        annotate_one E root_dir tr done wt rest = Ok wt'
        /\ path wt' = ps
        /\ children wt'
           = (if hosts_children E root_dir tr ps
              then nested_names ps (done ++ [wt']) else [])
        /\ (hosts_children E root_dir tr ps = true -> unnested = true)).
Proof.
  intros Hp Hrest unnested. unfold annotate_one. rewrite Hp.
  fold (hosts_children E root_dir tr ps).
  destruct (hosts_children E root_dir tr ps) eqn:Hh.
  - rewrite children_of_spec, (children_of_raw_spec _ _ Hrest).
    fold unnested. destruct unnested eqn:Hu.
    + right. eexists. split; [reflexivity|]. cbn [path children].
      split; [reflexivity|]. split; [|auto].
      unfold nested_names. rewrite !filter_app, !map_app. f_equal.
      cbn [filter path]. destruct (nested_in _ ps); reflexivity.
    + left. auto.
  - right. eexists. split; [reflexivity|]. cbn [path children].
    repeat split. discriminate.
Qed.

Lemma annotate_has_paths tr todo : forall done res,
  annotate E root_dir tr done todo = Ok res ->
  Forall (fun wt => raw_path wt <> None) todo.
Proof.
  induction todo as [|wt rest IH]; intros done res H; [constructor|].
  simpl in H.
  destruct (annotate_one E root_dir tr done wt rest) as [wt'| |] eqn:H1;
    try discriminate.
  constructor; [|eapply IH; eassumption].
  unfold annotate_one in H1. destruct (raw_path wt); [discriminate|discriminate].
Qed.

(** The metadata pass succeeds exactly when children are listed first. *)
Lemma annotate_order tr todo : forall done,
  Forall (fun wt => raw_path wt <> None) todo ->
  if children_listed_first E root_dir tr (raw_paths todo)
  then exists res, annotate E root_dir tr done todo = Ok res
  else annotate E root_dir tr done todo = Raise (KeyError "name").
Proof.
  induction todo as [|wt rest IH]; intros done Hall.
  - simpl. eauto.
  - inversion Hall as [|? ? Hwt Hrest]; subst.
    destruct (raw_path wt) as [ps|] eqn:Hp; [|congruence].
    cbn [raw_paths]. rewrite Hp. cbn [children_listed_first annotate].
    destruct (annotate_one_cases tr done wt rest ps Hp Hrest)
      as [(Hh & Hu & Hr)|(wt' & Hr & _ & _ & Hu)]; rewrite Hr.
    + rewrite Hh, Hu. reflexivity.
    + specialize (IH (done ++ [wt'])%list Hrest).
      destruct (hosts_children E root_dir tr ps).
      * rewrite (Hu eq_refl). exact IH.
      * exact IH.
Qed.

(** What a successful metadata pass records as children. *)
Lemma annotate_children tr todo : forall done res,
  annotate E root_dir tr done todo = Ok res ->
  exists new,
    res = (done ++ new)%list
    /\ forall l1 wt l2, new = (l1 ++ wt :: l2)%list ->
         children wt
         = (if hosts_children E root_dir tr (path wt)
            then nested_names (path wt) (done ++ l1 ++ [wt]) else [])
         /\ (hosts_children E root_dir tr (path wt) = true ->
             forallb (fun c => negb (nested_in (PyPath.of_string (path wt)) (path c)))
                     l2 = true).
Proof.
  induction todo as [|wt rest IH]; intros done res H.
  - simpl in H. injection H as <-. exists []. split; [now rewrite app_nil_r|].
    intros [|] ? ? Habs; discriminate.
  - pose proof (annotate_has_paths _ _ _ _ H) as Hall.
    inversion Hall as [|? ? Hwt Hrest]; subst.
    destruct (raw_path wt) as [ps|] eqn:Hp; [|congruence].
    simpl in H.
    destruct (annotate_one_cases tr done wt rest ps Hp Hrest)
      as [(_ & _ & Hr)|(wt' & Hr & Hpath & Hch & Hu)]; rewrite Hr in H;
      [discriminate|].
    pose proof (annotate_ok E root_dir _ _ _ _ H) as (new0 & Hres & Hpaths & _).
    destruct (IH _ _ H) as (new' & -> & Hnew).
    apply app_inv_head in Hres. subst new0.
    apply raw_paths_of_map in Hpaths.
    exists (wt' :: new'). split; [now rewrite <- app_assoc|].
    intros l1 w l2 Hsplit. destruct l1 as [|x l1]; simpl in Hsplit.
    + injection Hsplit as <- <-. rewrite Hpath. split; [exact Hch|].
      intros Hh. specialize (Hu Hh).
      rewrite Hpaths in Hu. rewrite forallb_forall in Hu |- *.
      intros c Hc. apply Hu, in_map, Hc.
    + injection Hsplit as <- ->.
      specialize (Hnew l1 w l2 eq_refl).
      rewrite <- !app_assoc in Hnew. exact Hnew.
Qed.


(** X1.  When the listing command succeeds and every attribute line
    follows its header, [get_worktrees] returns one record per header,
    in order, exactly when no worktree that is searched for children (it
    is not the root worktree and has a [worktrees] directory) is listed
    before a worktree nested in it; otherwise the metadata pass reads the
    name of a record it has not visited yet and [get_worktrees] raises
    [KeyError('name')]. *)
Theorem get_worktrees_needs_children_first tr cp :
  env_run E tr worktree_list_argv = Some cp ->
  returncode cp = 0%Z ->
  attributes_follow_header false (porcelain_lines (stdout cp)) = true ->
  let tr1 := (tr ++ [ERun worktree_list_argv (Some cp)])%list in
  let paths := header_paths (porcelain_lines (stdout cp)) in
  if children_listed_first E root_dir tr1 paths
  then exists wts,
         get_worktrees E root_dir tr = (Ok wts, tr1) /\ map path wts = paths
  else get_worktrees E root_dir tr = (Raise (KeyError "name"), tr1).
Proof.
  intros Hrun Hrc Hwf tr1 paths.
  rewrite get_worktrees_eq, Hrun, Hrc. cbn [Z.eqb]. fold tr1.
  pose proof (parse_porcelain_all_paths _ Hwf) as Hall.
  pose proof (annotate_order tr1 _ [] Hall) as Hord.
  rewrite parse_porcelain_paths in Hord. fold paths in Hord.
  destruct (children_listed_first E root_dir tr1 paths).
  - destruct Hord as (res & Hres). exists res. rewrite Hres. split; [reflexivity|].
    apply annotate_ok in Hres. destruct Hres as (new & -> & Hp & _).
    apply raw_paths_of_map in Hp. rewrite parse_porcelain_paths in Hp.
    simpl. symmetry. exact Hp.
  - rewrite Hord. reflexivity.
Qed.

(** The root worktree is not searched for children. *)
Lemma root_has_no_children tr wts tr' :
  get_worktrees E root_dir tr = (Ok wts, tr') ->
  forall wt, In wt wts ->
    PyPath.eqb (PyPath.of_string (path wt)) root_dir = true ->
    children wt = [].
Proof.
  rewrite get_worktrees_eq.
  destruct (env_run E tr worktree_list_argv) as [cp|]; [|discriminate].
  destruct (returncode cp =? 0)%Z.
  - intros H wt Hin Hroot. injection H as H _.
    apply annotate_children in H. destruct H as (new & -> & Hnew).
    simpl in Hin. apply in_split in Hin. destruct Hin as (l1 & l2 & ->).
    destruct (Hnew l1 wt l2 eq_refl) as (Hch & _).
    rewrite Hch. unfold hosts_children. rewrite Hroot. reflexivity.
  - intros H wt Hin. injection H as <- _. destruct Hin.
Qed.

(** X2.  In every list that [get_worktrees] returns, the children of a
    record are the names, in listing order, of all the listed worktrees
    whose directory lies two levels below the record's directory, when
    the record is not the root worktree and has a [worktrees] directory;
    otherwise the record has no children.  The root worktree never has
    children. *)
Theorem get_worktrees_children tr wts tr' :
  get_worktrees E root_dir tr = (Ok wts, tr') ->
  Forall (fun wt =>
            children wt
            = if hosts_children E root_dir tr' (path wt)
              then nested_names (path wt) wts else [])
         wts.
Proof.
  rewrite get_worktrees_eq.
  destruct (env_run E tr worktree_list_argv) as [cp|]; [|discriminate].
  destruct (returncode cp =? 0)%Z.
  - intros H. injection H as H <-.
    apply annotate_children in H. destruct H as (new & -> & Hnew).
    simpl. apply Forall_forall. intros wt Hin.
    apply in_split in Hin. destruct Hin as (l1 & l2 & ->).
    destruct (Hnew l1 wt l2 eq_refl) as (Hch & Hlater).
    rewrite Hch. simpl.
    destruct (hosts_children E root_dir _ (path wt)); [|reflexivity].
    specialize (Hlater eq_refl).
    unfold nested_names.
    change (l1 ++ wt :: l2)%list with (l1 ++ [wt] ++ l2)%list.
    rewrite app_assoc, (filter_app _ (l1 ++ [wt])%list l2), map_app.
    assert (filter (fun c => nested_in (PyPath.of_string (path wt)) (path c)) l2 = [])
      as ->.
    { clear -Hlater. induction l2 as [|c l2 IH]; [reflexivity|].
      simpl in *. apply andb_prop in Hlater. destruct Hlater as (Hc & Hl).
      destruct (nested_in _ (path c)); [discriminate|]. auto. }
    simpl. now rewrite app_nil_r.
  - intros H. injection H as <- <-. constructor.
Qed.

End Nesting.

(* ================================================================== *)
(** * Further properties: the ways out of a merge *)
(* ================================================================== *)

Section EarlyExits.
Variable E : Env.
Variable root_dir : PyPath.Path.


Lemma merge_branch_resolved fuel b cleanup preview push tr wts tr1 wt parent tr2 :
  get_worktrees E root_dir tr = (Ok wts, tr1) ->
  find_target b wts = Some wt ->
  _get_parent_branch E wt tr1 = (Ok parent, tr2) ->
  merge_branch E root_dir fuel b cleanup preview push tr
  = match parent with
    | None | Some EmptyString => (Ok false, (tr2 ++ [EPrint (no_parent_msg b)])%list)
    | Some parent_branch =>
        try_except
          (if preview then _preview_merge E b parent_branch
           else after_resolve E fuel b parent_branch wt cleanup push
                  (backup_name b (env_now E tr2)))
          (fun e => print (merge_error_msg E e) ;; ret false) tr2
    end.
Proof.
  intros Hl Hf Hp.
  unfold merge_branch, try_except at 1, bind at 1. rewrite Hl, Hf.
  unfold bind at 1. rewrite Hp.
  destruct parent as [[|c t]|]; try reflexivity.
  destruct preview; reflexivity.
Qed.

(** X4.  When the parent of the target worktree does not resolve,
    [merge_branch] reports it and returns [False] right after the
    lookup, whatever the options: no backup is made and nothing is
    merged.  A native parent entry whose value is blank counts as
    unresolvable: [main] and [master] are not probed. *)
Theorem merge_branch_without_parent fuel b cleanup preview push tr wts tr1 wt :
  get_worktrees E root_dir tr = (Ok wts, tr1) ->
  find_target b wts = Some wt ->
  (forall parent tr2,
     _get_parent_branch E wt tr1 = (Ok parent, tr2) ->
     parent = None \/ parent = Some "" ->
     merge_branch E root_dir fuel b cleanup preview push tr
     = (Ok false, (tr2 ++ [EPrint (no_parent_msg b)])%list))
  /\ (forall cp,
        env_run E tr1 (config_argv wt) = Some cp ->
        returncode cp = 0%Z ->
        PyStr.strip (stdout cp) = "" ->
        merge_branch E root_dir fuel b cleanup preview push tr
        = (Ok false, (tr1 ++ [ERun (config_argv wt) (Some cp);
                              EPrint (no_parent_msg b)])%list)).
Proof.
  intros Hl Hf. split.
  - intros parent tr2 Hp Hnone.
    rewrite (merge_branch_resolved _ _ _ _ _ _ _ _ _ _ _ Hl Hf Hp).
    destruct Hnone as [-> | ->]; reflexivity.
  - intros cp Hrun Hrc Hblank.
    assert (_get_parent_branch E wt tr1
            = (Ok (Some ""), (tr1 ++ [ERun (config_argv wt) (Some cp)])%list)) as Hp.
    { unfold _get_parent_branch, try_except, bind, run. rewrite Hrun, Hrc.
      cbn [Z.eqb]. unfold ret. rewrite Hblank. reflexivity. }
    rewrite (merge_branch_resolved _ _ _ _ _ _ _ _ _ _ _ Hl Hf Hp).
    rewrite <- app_assoc. reflexivity.
Qed.


End EarlyExits.

Lemma for_each_print_lines (f : string -> string) (l : list string) (tr : Trace) :
  for_each (fun _ line => if String.eqb line "" then ret tt else print (f line)) l tt tr
  = (Ok tt,
     (tr ++ map (fun line => EPrint (f line))
                (filter (fun line => negb (String.eqb line "")) l))%list).
Proof.
  revert tr. induction l as [|c l IH]; intros tr; simpl.
  - unfold ret. rewrite app_nil_r. reflexivity.
  - unfold bind. destruct (String.eqb c ""); simpl.
    + unfold ret. apply IH.
    + unfold print. rewrite IH, <- app_assoc. reflexivity.
Qed.

Lemma count_confirms_app (a b : Trace) :
  count_confirms (a ++ b)%list = count_confirms a + count_confirms b.
Proof.
  induction a as [|e a IH]; [reflexivity|]. destruct e; simpl; rewrite IH; reflexivity.
Qed.

Lemma count_confirms_prints {A} (f : A -> string) (l : list A) :
  count_confirms (map (fun x => EPrint (f x)) l) = 0.
Proof. induction l; simpl; auto. Qed.

Lemma not_in_prints {A} (f : A -> string) (l : list A) q a :
  ~ In (EConfirm q a) (map (fun x => EPrint (f x)) l).
Proof. intros H. apply in_map_iff in H. destruct H as (? & H & _). discriminate. Qed.

Section PreviewOutcome.
Variable E : Env.

Lemma preview_merge_eq b p tr :
  _preview_merge E b p tr =
  let tr0 := (tr ++ [preview_header b p])%list in
  match env_run E tr0 (log_argv p b) with
  | None => (Ok false, (tr0 ++ [ERun (log_argv p b) None;
                                EPrint (preview_error_msg E OSError)])%list)
  | Some c =>
      if has_text c then
        let tr1 := (tr0 ++ [ERun (log_argv p b) (Some c);
                            EPrint (String PyStr.nl "[yellow]📝 Commits to be merged:[/yellow]");
                            EPrint (stdout c)])%list in
        match env_run E tr1 (name_status_argv p b) with
        | None => (Ok false, (tr1 ++ [ERun (name_status_argv p b) None;
                                      EPrint (preview_error_msg E OSError)])%list)
        | Some d =>
            let tr2 := (tr1 ++ ERun (name_status_argv p b) (Some d)
                            :: preview_files d)%list in
            let a := env_confirm E tr2 proceed_question in
            (Ok match a with Some true => true | _ => false end,
             (tr2 ++ EConfirm proceed_question a
                  :: match a with
                     | Some true => []
                     | Some false => [EPrint "[yellow]Merge cancelled[/yellow]"]
                     | None => [EPrint (preview_error_msg E EOFError)]
                     end)%list)
        end
      else (Ok true, (tr0 ++ [ERun (log_argv p b) (Some c);
                              EPrint nothing_to_merge_msg])%list)
  end.
Proof.
  unfold _preview_merge, try_except.
  unfold bind at 1. unfold print at 1. unfold bind at 1. unfold run at 1.
  fold (preview_header b p). fold (log_argv p b).
  cbv zeta.
  destruct (env_run E (tr ++ [preview_header b p])%list (log_argv p b)) as [c|].
  2:{ unfold bind, print, ret. rewrite <- !app_assoc. reflexivity. }
  fold (has_text c). destruct (has_text c) eqn:Hc.
  2:{ unfold bind, print, ret. rewrite <- !app_assoc. reflexivity. }
  unfold bind at 1. unfold print at 1. unfold bind at 1. unfold print at 1.
  unfold bind at 1. unfold run at 1. fold (name_status_argv p b).
  rewrite <- !app_assoc. cbn [app].
  match goal with |- context [env_run E ?t (name_status_argv p b)] =>
    destruct (env_run E t (name_status_argv p b)) as [d|] end.
  2:{ unfold bind, print, ret. rewrite <- !app_assoc. reflexivity. }
  unfold bind at 1. fold (has_text d). unfold preview_files.
  destruct (has_text d).
  - unfold bind at 1. unfold print at 1. rewrite for_each_print_lines.
    unfold bind at 1. unfold confirm at 1. rewrite <- !app_assoc. cbn [app].
    fold proceed_question.
    match goal with |- context [env_confirm E ?t proceed_question] =>
      destruct (env_confirm E t proceed_question) as [[|]|] end;
      unfold bind, print, ret; trace_eq.
  - unfold ret at 1. unfold bind at 1. unfold confirm at 1.
    rewrite <- !app_assoc. cbn [app]. fold proceed_question.
    match goal with |- context [env_confirm E ?t proceed_question] =>
      destruct (env_confirm E t proceed_question) as [[|]|] end;
      unfold bind, print, ret; trace_eq.
Qed.

(** X6.  [_preview_merge] asks the user at most once, and it returns
    [True] exactly when the log command ran and showed nothing to merge
    (it failed or printed nothing), in which case the user is not asked
    at all, or when the user accepted the proposal. *)
Theorem preview_merge_outcome b p tr r evs :
  run_of (_preview_merge E b p) tr r evs ->
  let nothing_to_merge :=
    exists c, In (ERun (log_argv p b) (Some c)) evs /\ has_text c = false in
  (r = Ok true <->
   nothing_to_merge \/ In (EConfirm proceed_question (Some true)) evs)
  /\ (nothing_to_merge -> count_confirms evs = 0)
  /\ count_confirms evs <= 1.
Proof.
  unfold run_of. rewrite preview_merge_eq. cbv zeta. intros H.
  assert (Hlog : forall c c' l,
            In (ERun (log_argv p b) (Some c'))
               (preview_header b p :: ERun (log_argv p b) (Some c) :: l) ->
            (forall e, In e l -> forall a x, e <> ERun (a :: "log" :: x) (Some c')) ->
            c' = c).
  { intros c c' l [Hin|[Hin|Hin]] Hl.
    - discriminate Hin.
    - injection Hin as <-. reflexivity.
    - exfalso. exact (Hl _ Hin "git" _ eq_refl). }
  assert (Hfiles : forall d e, In e (preview_files d) -> exists s, e = EPrint s).
  { intros d e. unfold preview_files. destruct (has_text d); [|intros []].
    intros [<-|Hin]; [eauto|]. apply in_map_iff in Hin.
    destruct Hin as (x & <- & _). eauto. }
  destruct (env_run E (tr ++ [preview_header b p])%list (log_argv p b)) as [c|] eqn:Hlg.
  2:{ events_of H. split; [|split].
      - split; [discriminate|]. intros [(c & Hin & _)|Hin];
          simpl in Hin; intuition discriminate.
      - intros _. reflexivity.
      - simpl. lia. }
  destruct (has_text c) eqn:Hc.
  2:{ events_of H. split; [|split].
      - split; [|reflexivity]. intros _. left. exists c. split; [in_list|exact Hc].
      - intros _. reflexivity.
      - simpl. lia. }
  assert (Hnot : forall l,
            (forall e, In e l -> forall a x c', e <> ERun (a :: "log" :: x) (Some c')) ->
            ~ exists c', In (ERun (log_argv p b) (Some c'))
                            (preview_header b p :: ERun (log_argv p b) (Some c) :: l)
                         /\ has_text c' = false).
  { intros l Hl (c' & Hin & Hn).
    assert (c' = c) by (eapply Hlog; [exact Hin|]; intros e He a x; apply Hl; exact He).
    congruence. }
  match type of H with context [env_run E ?t (name_status_argv p b)] =>
    destruct (env_run E t (name_status_argv p b)) as [d|] end.
  2:{ events_of H. split; [|split].
      - split; [discriminate|]. intros [Hn|Hin].
        + exfalso. revert Hn. apply Hnot. intros e He a x c'.
          simpl in He. intuition (subst; discriminate).
        + simpl in Hin. intuition discriminate.
      - intros Hn. exfalso. revert Hn. apply Hnot. intros e He a x c'.
        simpl in He. intuition (subst; discriminate).
      - simpl. lia. }
  assert (Hrest : forall tail,
            (forall e, In e tail -> (exists s, e = EPrint s) \/ exists q a, e = EConfirm q a) ->
            forall e,
              In e (EPrint (String PyStr.nl "[yellow]📝 Commits to be merged:[/yellow]")
                    :: EPrint (stdout c)
                    :: ERun (name_status_argv p b) (Some d)
                    :: preview_files d ++ tail)%list ->
              forall a x c', e <> ERun (a :: "log" :: x) (Some c')).
  { intros tail Htail e He a x c'.
    destruct He as [<-|[<-|[<-|He]]]; try discriminate.
    apply in_app_or in He. destruct He as [He|He].
    - destruct (Hfiles _ _ He) as (s0 & ->). discriminate.
    - destruct (Htail _ He) as [(s0 & ->)|(q & a0 & ->)]; discriminate. }
  match type of H with context [env_confirm E ?t proceed_question] =>
    destruct (env_confirm E t proceed_question) as [[|]|] end;
    events_of H; (split; [|split]);
    try (intros Hn; exfalso; revert Hn; apply Hnot; apply Hrest;
         intros e He; simpl in He;
         intuition (subst; eauto));
    try (unfold preview_files; destruct (has_text d); cbn [app count_confirms];
         rewrite ?count_confirms_app, ?count_confirms_prints; simpl; lia).
  - split; [|reflexivity]. intros _. right.
    do 5 right. apply in_or_app. right. left. reflexivity.
  - split; [discriminate|]. intros [Hn|Hin].
    + exfalso. revert Hn. apply Hnot. apply Hrest.
      intros e He; simpl in He; intuition (subst; eauto).
    + exfalso. do 5 (destruct Hin as [Hin|Hin]; [discriminate|]).
      apply in_app_or in Hin. destruct Hin as [Hin|Hin].
      * destruct (Hfiles _ _ Hin) as (s0 & Heq). discriminate Heq.
      * simpl in Hin. intuition discriminate.
  - split; [discriminate|]. intros [Hn|Hin].
    + exfalso. revert Hn. apply Hnot. apply Hrest.
      intros e He; simpl in He; intuition (subst; eauto).
    + exfalso. do 5 (destruct Hin as [Hin|Hin]; [discriminate|]).
      apply in_app_or in Hin. destruct Hin as [Hin|Hin].
      * destruct (Hfiles _ _ Hin) as (s0 & Heq). discriminate Heq.
      * simpl in Hin. intuition discriminate.
Qed.

End PreviewOutcome.

Section MergeTermination.
Variable E : Env.
Variable root_dir : PyPath.Path.
Variable n : nat.
Hypothesis input_ends :
  forall tr q, n <= count_prompts tr -> env_prompt E tr q = None.

Lemma conflict_loop_total fuel b parent backup_ref :
  n < fuel -> total (conflict_loop E fuel b parent backup_ref).
Proof.
  intros Hf tr. destruct (Nat.le_gt_cases (count_prompts tr) n) as [Hle|Hgt].
  - destruct (conflict_loop E fuel b parent backup_ref tr) as [r tr'] eqn:H.
    simpl. eapply (conflict_loop_returns E n input_ends); [exact Hle| |exact H]. lia.
  - destruct fuel as [|fuel]; [lia|].
    cbn [conflict_loop]. unfold bind, prompt.
    rewrite input_ends by lia. simpl. discriminate.
Qed.

Lemma rollback_merge_total parent backup_ref : total (_rollback_merge E parent backup_ref).
Proof. unfold _rollback_merge. total_auto. Qed.

Lemma cleanup_merged_branch_total wt b : total (_cleanup_merged_branch E wt b).
Proof. unfold _cleanup_merged_branch. total_auto. Qed.

Lemma handle_merge_conflicts_total fuel b parent backup_ref :
  n < fuel -> total (_handle_merge_conflicts E fuel b parent backup_ref).
Proof.
  intros Hf. unfold _handle_merge_conflicts, conflict_menu. apply total_try.
  - repeat (first [apply conflict_loop_total; exact Hf | total_step | total_branch]).
  - intros e. repeat (first [apply rollback_merge_total | total_step]).
Qed.

(** X7.  [merge_branch] comes to an end.  Its only loop is the conflict
    menu, and every round of the menu reads one answer: if the user
    answers at most [n] prompts before the input is closed, the menu
    makes at most [n] rounds, so with more than [n] units of fuel the
    run never runs out of fuel, whatever git answers. *)
Theorem merge_branch_comes_to_an_end fuel b cleanup preview push tr :
  n < fuel ->
  fst (merge_branch E root_dir fuel b cleanup preview push tr) <> OutOfFuel.
Proof.
  intros Hf. revert tr.
  change (total (merge_branch E root_dir fuel b cleanup preview push)).
  destruct preview; [apply merge_branch_preview_total|].
  unfold merge_branch. apply total_try.
  - apply total_bind; [apply get_worktrees_total|]. intros wts.
    destruct (find_target b wts) as [wt|]; [|total_auto].
    apply total_bind; [apply get_parent_branch_total|]. intros [[|c p]|];
      [total_auto| |total_auto].
    apply total_bind; [apply total_read; intros; apply total_ret|]. intros ref.
    repeat (first [ apply handle_merge_conflicts_total; exact Hf
                  | apply rollback_merge_total
                  | apply cleanup_merged_branch_total
                  | total_step | total_branch ]).
  - intros e. total_auto.
Qed.

End MergeTermination.

(* ================================================================== *)
(** * Further properties: the batch operations *)
(* ================================================================== *)

Section Execute.
Variable E : Env.
Variable root_dir : PyPath.Path.





End Execute.

Lemma lstrip_plain s : plain_chars s = true -> PyStr.lstrip s = s.
Proof.
  destruct s as [|c t]; [reflexivity|]. simpl. unfold plain_char.
  destruct (PyStr.is_space c); [discriminate|reflexivity].
Qed.

Lemma rstrip_plain s : plain_chars s = true -> PyStr.rstrip s = s.
Proof.
  induction s as [|c t IH]; [reflexivity|]. cbn [plain_chars PyStr.rstrip].
  intros H. apply andb_prop in H. destruct H as (Hc & Ht).
  rewrite (IH Ht). unfold plain_char in Hc.
  destruct (PyStr.is_space c); [discriminate|]. destruct t; reflexivity.
Qed.

Lemma rstrip_cons c t :
  PyStr.rstrip t <> "" -> PyStr.rstrip (String c t) = String c (PyStr.rstrip t).
Proof. cbn [PyStr.rstrip]. destruct (PyStr.rstrip t); [congruence|reflexivity]. Qed.

Lemma strip_plain s : plain_chars s = true -> PyStr.strip s = s.
Proof.
  intros H. unfold PyStr.strip. rewrite (lstrip_plain _ H). apply rstrip_plain, H.
Qed.

Lemma replace_star_plain s :
  plain_chars s = true -> PyStr.replace_from "*" "" 0 s = s.
Proof.
  induction s as [|c t IH]; [reflexivity|]. cbn [plain_chars].
  intros H. apply andb_prop in H. destruct H as (Hc & Ht).
  cbn [PyStr.replace_from String.prefix]. unfold plain_char in Hc.
  apply andb_prop in Hc. destruct Hc as (_ & Hc). apply negb_true_iff in Hc.
  destruct (ascii_dec "*" c) as [<-|Hne]; [discriminate|].
  rewrite (IH Ht). reflexivity.
Qed.

(** X10.  The comprehension of [auto_clean] reads a branch name off a
    line of [git branch --merged] when the line is indented or marked
    with [*]; a line marked with [+] keeps its marker, so the name read
    off it is not the name of the branch. *)
Theorem branch_of_line_markers (b : string) :
  plain b = true ->
  branch_of_line ("  " ++ b) = b
  /\ branch_of_line ("* " ++ b) = b
  /\ branch_of_line ("+ " ++ b) = "+ " ++ b.
Proof.
  unfold plain. intros H. apply andb_prop in H. destruct H as (Hne & Hp).
  assert (Hb : b <> "") by (intros ->; discriminate).
  assert (Hr : PyStr.rstrip b <> "") by (rewrite rstrip_plain; assumption).
  unfold branch_of_line, PyStr.strip, PyStr.replace.
  split; [|split].
  - change (PyStr.lstrip ("  " ++ b)) with (PyStr.lstrip b).
    rewrite (lstrip_plain _ Hp), (rstrip_plain _ Hp), (replace_star_plain _ Hp).
    rewrite (lstrip_plain _ Hp). apply rstrip_plain, Hp.
  - change (PyStr.lstrip ("* " ++ b)) with ("* " ++ b).
    change ("* " ++ b) with (String "*" (String " " b)).
    rewrite rstrip_cons, rstrip_cons, (rstrip_plain _ Hp); try assumption.
    2:{ rewrite rstrip_cons by assumption. discriminate. }
    change (PyStr.replace_from "*" "" 0 (String "*" (String " " b)))
      with (String " " (PyStr.replace_from "*" "" 0 b)).
    rewrite (replace_star_plain _ Hp).
    change (PyStr.lstrip (String " " b)) with (PyStr.lstrip b).
    rewrite (lstrip_plain _ Hp). apply rstrip_plain, Hp.
  - change (PyStr.lstrip ("+ " ++ b)) with ("+ " ++ b).
    change ("+ " ++ b) with (String "+" (String " " b)).
    rewrite rstrip_cons, rstrip_cons, (rstrip_plain _ Hp); try assumption.
    2:{ rewrite rstrip_cons by assumption. discriminate. }
    change (PyStr.replace_from "*" "" 0 (String "+" (String " " b)))
      with (String "+" (String " " (PyStr.replace_from "*" "" 0 b))).
    rewrite (replace_star_plain _ Hp).
    change (PyStr.lstrip (String "+" (String " " b))) with (String "+" (String " " b)).
    rewrite rstrip_cons, rstrip_cons, (rstrip_plain _ Hp); try assumption.
    + reflexivity.
    + rewrite rstrip_cons by assumption. discriminate.
Qed.

Section Shipping.
Variable E : Env.
Variable root_dir : PyPath.Path.

Lemma merge_branch_extends fuel b cleanup push :
  emits (fun _ => True) (merge_branch E root_dir fuel b cleanup false push).
Proof.
  rewrite merge_branch_steps. apply emits_try; [|intros e; emits_auto; exact I].
  apply emits_bind;
    [eapply emits_weaken; [|apply get_worktrees_quiet]; auto|]. intros wts.
  destruct (find_target b wts) as [wt|]; [|emits_auto; exact I].
  apply emits_bind;
    [eapply emits_weaken; [|apply get_parent_branch_quiet]; auto|].
  intros [[|c p]|]; [emits_auto; exact I| |emits_auto; exact I].
  apply emits_bind; [apply emits_read; intros; apply emits_ret|]. intros ref.
  apply after_resolve_extends.
Qed.

(** A merge that returns [True] ran the merge command, which exited
    with status 0 or reported a conflict. *)
Lemma merge_branch_true fuel b cleanup push tr tr' :
  merge_branch E root_dir fuel b cleanup false push tr = (Ok true, tr') ->
  exists evs cp,
    tr' = (tr ++ evs)%list
    /\ In (ERun (merge_argv b) (Some cp)) evs
    /\ (returncode cp = 0%Z \/ conflict_detected cp = true).
Proof.
  intros H. apply merge_branch_anatomy in H.
  destruct H as (evq & Hq & [(Hr & _)|
    (wts & target & parent & ev1 & ev2 & r1 & tr1 & -> & Hgw & Hf & Hp & Hne & Har & Hm)]);
    [discriminate|].
  destruct r1 as [ok|e|]; [|destruct Hm; discriminate|destruct Hm; discriminate].
  destruct Hm as (Hok & ->). injection Hok as <-.
  rewrite after_resolve_eq in Har. cbv zeta in Har.
  destruct (env_run E _ (backup_argv _ parent)) as [x|]; [|discriminate].
  destruct (env_run E _ (checkout_argv parent)) as [y|]; [|discriminate].
  destruct (negb (returncode y =? 0)%Z); [discriminate|].
  destruct (env_run E _ (merge_argv b)) as [m|]; [|discriminate].
  destruct (after_merge_follows E _ _ _ _ _ _ _ _ _ _ _ Har) as (post & -> & _).
  eexists _, m. split; [rewrite <- !app_assoc; reflexivity|]. split.
  - rewrite !in_app_iff. simpl. auto 12.
  - unfold after_merge in Har.
    destruct (returncode m =? 0)%Z eqn:Hrc; [left; apply Z.eqb_eq; exact Hrc|].
    cbn [negb] in Har. destruct (conflict_detected m); [right; reflexivity|].
    exfalso. unfold bind at 1 in Har. unfold print at 1 in Har.
    unfold bind at 1 in Har.
    match type of Har with context [_rollback_merge E ?p ?ref ?t] =>
      destruct (rollback_merge_eq E p ref t) as (? & ? & Hrb) end.
    rewrite Hrb in Har. discriminate.
Qed.

Lemma scan_worktree_total acc wt : total (scan_worktree E acc wt).
Proof.
  unfold scan_worktree. destruct (negb _ && _ && _); [|apply total_ret].
  apply total_bind; [apply get_parent_branch_total|].
  intros [[|c p]|]; [apply total_ret| |apply total_ret].
  unfold parse_count. total_auto.
Qed.

Lemma scan_worktree_adds acc wt tr acc' tr' :
  scan_worktree E acc wt tr = (Ok acc', tr') ->
  acc' = acc
  \/ exists c, acc' = (acc ++ [c])%list
               /\ ship_branch c = branch_or_empty wt
               /\ is_trunk (ship_branch c) = false.
Proof.
  unfold scan_worktree. fold (branch_or_empty wt).
  destruct (negb (branch_or_empty wt =? "")) eqn:Hb; cbn [andb];
    [|intros H; injection H as <- _; auto].
  destruct (negb (is_trunk (branch_or_empty wt))) eqn:Ht; cbn [andb];
    [|intros H; injection H as <- _; auto].
  destruct (negb (detached wt)); [|intros H; injection H as <- _; auto].
  unfold bind at 1.
  destruct (_get_parent_branch E wt tr) as [[[[|c p]|]|e|] t1];
    try (intros H; injection H as <- _; auto; fail); try discriminate.
  unfold bind at 1. unfold run at 1.
  destruct (env_run E t1 _) as [res|]; [|discriminate].
  destruct (returncode res =? 0)%Z; [|intros H; injection H as <- _; auto].
  unfold parse_count. destruct (PyStr.int _) as [k|]; [|discriminate].
  unfold bind, ret.
  destruct (0 <? k)%Z; intros H; injection H as <- _; [|auto].
  right. eexists. split; [reflexivity|]. simpl. split; [reflexivity|].
  apply negb_true_iff. exact Ht.
Qed.

Lemma scan_all_candidates wts : forall acc tr cands tr',
  for_each (scan_worktree E) wts acc tr = (Ok cands, tr') ->
  Forall (fun c => is_trunk (ship_branch c) = false) acc ->
  Forall (fun c => is_trunk (ship_branch c) = false) cands.
Proof.
  induction wts as [|wt wts IH]; intros acc tr cands tr' H Hacc.
  - injection H as <- _. exact Hacc.
  - cbn [for_each] in H. unfold bind in H.
    destruct (scan_worktree E acc wt tr) as [[acc'|e|] t1] eqn:Hs; try discriminate.
    apply IH in H; [exact H|].
    apply scan_worktree_adds in Hs. destruct Hs as [->|(c & -> & _ & Hc)]; [exact Hacc|].
    apply Forall_app. split; [exact Hacc|]. constructor; [exact Hc|constructor].
Qed.

Lemma ship_loop_extends fuel cands acc :
  emits (fun _ => True) (for_each (ship_one E root_dir fuel) cands acc).
Proof.
  apply emits_for_each. intros a c. unfold ship_one.
  apply emits_bind; [apply emits_print; exact I|]. intros _.
  apply emits_bind; [apply merge_branch_extends|]. intros [|]; emits_auto; exact I.
Qed.

Lemma ship_loop fuel cands : forall acc tr shipped tr',
  for_each (ship_one E root_dir fuel) cands acc tr = (Ok shipped, tr') ->
  exists evs,
    tr' = (tr ++ evs)%list
    /\ forall b, In b shipped ->
         In b acc
         \/ (In b (map ship_branch cands)
             /\ exists cp, In (ERun (merge_argv b) (Some cp)) evs
                           /\ (returncode cp = 0%Z \/ conflict_detected cp = true)).
Proof.
  induction cands as [|c cands IH]; intros acc tr shipped tr' H.
  - injection H as <- <-. exists []. rewrite app_nil_r. auto.
  - cbn [for_each] in H. unfold bind at 1 in H. unfold ship_one at 1 in H.
    unfold bind at 1 in H. unfold print at 1 in H. unfold bind at 1 in H.
    destruct (merge_branch E root_dir fuel (ship_branch c) true false true _)
      as [[[|]|e|] t1] eqn:Hm; try discriminate.
    + apply merge_branch_true in Hm. destruct Hm as (evm & cp & -> & Hin & Hcp).
      unfold ret at 1 in H. apply IH in H. destruct H as (evs & -> & Hsh).
      eexists. split; [rewrite <- !app_assoc; reflexivity|].
      intros b Hb. destruct (Hsh b Hb) as [Hacc|(Hc & cp' & Hin' & Hcp')].
      * apply in_app_or in Hacc. destruct Hacc as [Hacc|[<-|[]]]; [auto|].
        right. split; [left; reflexivity|]. exists cp. split; [|exact Hcp].
        rewrite !in_app_iff. simpl. auto.
      * right. split; [right; exact Hc|]. exists cp'. split; [|exact Hcp'].
        rewrite !in_app_iff. simpl. auto.
    + destruct (merge_branch_extends _ _ _ _ _ _ _ Hm) as (evm & -> & _).
      unfold bind at 1 in H. unfold print at 1 in H. unfold ret at 1 in H.
      apply IH in H. destruct H as (evs & -> & Hsh).
      eexists. split; [rewrite <- !app_assoc; reflexivity|].
      intros b Hb. destruct (Hsh b Hb) as [Hacc|(Hc & cp' & Hin' & Hcp')]; [auto|].
      right. split; [right; exact Hc|]. exists cp'. split; [|exact Hcp'].
      rewrite !in_app_iff. simpl. auto 8.
Qed.

(** X11.  [ship_all(dry_run=False)] changes nothing before the user
    agrees: either every event of the run is a read-only command, a
    message or a question and the result is the empty list, or the
    events before the user's yes to the shipping question are so. *)
Theorem ship_all_asks_first fuel tr r evs :
  run_of (ship_all E root_dir fuel false) tr r evs ->
  (r = Ok [] /\ Forall (fun e => quiet e = true) evs)
  \/ exists pre n post,
       evs = (pre ++ EConfirm (ship_question n) (Some true) :: post)%list
       /\ Forall (fun e => quiet e = true) pre.
Proof.
  unfold run_of, ship_all. unfold try_except at 1.
  unfold bind at 1. unfold print at 1. unfold bind at 1. intros H.
  match type of H with context [get_worktrees E root_dir ?t] =>
    destruct (get_worktrees E root_dir t) as [rw tw] eqn:Hgw;
    pose proof (get_worktrees_total E root_dir t) as Htot;
    destruct (get_worktrees_quiet E root_dir _ _ _ Hgw) as (evw & -> & Hqw)
  end.
  rewrite Hgw in Htot. simpl in Htot.
  destruct rw as [wts|e|]; [| |congruence].
  2:{ unfold bind, print, ret in H. events_of H. left. split; [reflexivity|all_quiet]. }
  unfold bind at 1 in H.
  match type of H with context [for_each (scan_worktree E) wts [] ?t] =>
    destruct (for_each (scan_worktree E) wts [] t) as [rs ts] eqn:Hscan;
    pose proof (total_for_each (scan_worktree E) wts
                  (fun acc x => scan_worktree_total acc x) [] t) as Hts;
    destruct (emits_for_each (fun e => quiet e = true) (scan_worktree E) wts
                (fun acc x => scan_worktree_quiet E acc x) [] _ _ _ Hscan)
      as (evs1 & -> & Hqs)
  end.
  rewrite Hscan in Hts. simpl in Hts.
  destruct rs as [cands|e|]; [| |congruence].
  2:{ unfold bind, print, ret in H. events_of H. left. split; [reflexivity|all_quiet]. }
  destruct cands as [|c cs].
  { unfold bind, print, ret in H. events_of H. left. split; [reflexivity|all_quiet]. }
  unfold bind at 1 in H. unfold print at 1 in H. unfold bind at 1 in H.
  rewrite for_each_print in H. unfold bind at 1 in H. unfold confirm at 1 in H.
  fold (ship_question (length (c :: cs))) in H.
  match type of H with context [env_confirm E ?t ?q] =>
    destruct (env_confirm E t q) as [[|]|] end; cbn [negb] in H.
  - unfold bind at 1 in H.
    match type of H with context [for_each ?f ?l ?a ?t] =>
      destruct (for_each f l a t) as [rl tl] eqn:Hloop;
      destruct (ship_loop_extends fuel l a _ _ _ Hloop) as (evl & -> & _)
    end.
    right.
    exists (EPrint ship_scanning_msg
            :: evw ++ evs1
            ++ EPrint ("[cyan]Ready to ship " ++ PyStr.of_nat (length (c :: cs))
                       ++ " branches:[/cyan]")
            :: map (fun c => EPrint (ship_line c)) (c :: cs))%list.
    destruct rl as [shipped|e|]; unfold bind, print, ret in H; events_of H;
      (eexists _, _; split; [trace_eq|]);
      (apply Forall_cons; [reflexivity|]);
      (apply Forall_app; split; [assumption|]);
      (apply Forall_app; split; [assumption|]);
      (apply Forall_cons; [reflexivity|]);
      apply Forall_forall; intros x Hx; apply in_map_iff in Hx;
      destruct Hx as (? & <- & _); reflexivity.
  - unfold bind, print, ret in H. events_of H. left. split; [reflexivity|].
    all_quiet.
    all: try (apply Forall_forall; intros x Hx; apply in_map_iff in Hx;
              destruct Hx as (? & <- & _); reflexivity).
    all: all_quiet.
  - unfold bind, print, ret in H. events_of H. left. split; [reflexivity|].
    all_quiet.
    all: try (apply Forall_forall; intros x Hx; apply in_map_iff in Hx;
              destruct Hx as (? & <- & _); reflexivity).
    all: all_quiet.
Qed.

(** X12.  Every branch that [ship_all(dry_run=False)] reports as shipped
    is neither [main] nor [master], and its merge command was run and
    either exited with status 0 or reported a conflict (which was then
    resolved). *)
Theorem ship_all_ships_merged fuel tr shipped evs :
  run_of (ship_all E root_dir fuel false) tr (Ok shipped) evs ->
  forall b, In b shipped ->
    is_trunk b = false
    /\ exists cp, In (ERun (merge_argv b) (Some cp)) evs
                  /\ (returncode cp = 0%Z \/ conflict_detected cp = true).
Proof.
  unfold run_of, ship_all. unfold try_except at 1.
  unfold bind at 1. unfold print at 1. unfold bind at 1. intros H b Hb.
  match type of H with context [get_worktrees E root_dir ?t] =>
    destruct (get_worktrees E root_dir t) as [rw tw] eqn:Hgw;
    destruct (get_worktrees_quiet E root_dir _ _ _ Hgw) as (evw & -> & Hqw)
  end.
  destruct rw as [wts|e|]; [| |discriminate].
  2:{ unfold bind, print, ret in H. injection H as <- _. destruct Hb. }
  unfold bind at 1 in H.
  match type of H with context [for_each (scan_worktree E) wts [] ?t] =>
    destruct (for_each (scan_worktree E) wts [] t) as [rs ts] eqn:Hscan;
    destruct (emits_for_each (fun e => quiet e = true) (scan_worktree E) wts
                (fun acc x => scan_worktree_quiet E acc x) [] _ _ _ Hscan)
      as (evs1 & -> & Hqs)
  end.
  destruct rs as [cands|e|]; [| |discriminate].
  2:{ unfold bind, print, ret in H. injection H as <- _. destruct Hb. }
  apply scan_all_candidates in Hscan; [|constructor].
  destruct cands as [|c cs].
  { unfold bind, print, ret in H. injection H as <- _. destruct Hb. }
  unfold bind at 1 in H. unfold print at 1 in H. unfold bind at 1 in H.
  rewrite for_each_print in H. unfold bind at 1 in H. unfold confirm at 1 in H.
  match type of H with context [env_confirm E ?t ?q] =>
    destruct (env_confirm E t q) as [[|]|] end; cbn [negb] in H.
  - unfold bind at 1 in H.
    match type of H with context [for_each ?f ?l ?a ?t] =>
      destruct (for_each f l a t) as [rl tl] eqn:Hloop end.
    destruct rl as [done|e|]; [| |discriminate].
    2:{ unfold bind, print, ret in H. injection H as <- _. destruct Hb. }
    apply ship_loop in Hloop. destruct Hloop as (evl & -> & Hsh).
    unfold bind, print, ret in H. events_of H.
    destruct (Hsh b Hb) as [[]|(Hc & cp & Hin & Hcp)]. split.
    + rewrite Forall_forall in Hscan. apply in_map_iff in Hc.
      destruct Hc as (x & <- & Hx). apply Hscan. exact Hx.
    + exists cp. split; [|exact Hcp].
      in_events.
  - unfold bind, print, ret in H. injection H as <- _. destruct Hb.
  - unfold bind, print, ret in H. injection H as <- _. destruct Hb.
Qed.

End Shipping.

(* ================================================================== *)
(** * Further properties: creating a worktree *)
(* ================================================================== *)

Section Create.
Variable E : Env.


End Create.

(* ================================================================== *)
(** * Further properties: the tree of worktrees and the keys *)
(* ================================================================== *)

Lemma removelast_length {A} (l : list A) : length (removelast l) = length l - 1.
Proof.
  induction l as [|a [|b l] IH]; try reflexivity.
  change (removelast (a :: b :: l)) with (a :: removelast (b :: l)).
  cbn [length] in *. rewrite IH. lia.
Qed.

Lemma path_eqb_parts p q : PyPath.eqb p q = true -> PyPath.parts p = PyPath.parts q.
Proof.
  unfold PyPath.eqb. intros H. apply andb_prop in H. destruct H as (_ & H).
  destruct (list_eq_dec string_dec (PyPath.parts p) (PyPath.parts q)); [assumption|discriminate].
Qed.

Lemma path_eqb_refl p : PyPath.eqb p p = true.
Proof.
  unfold PyPath.eqb. rewrite String.eqb_refl.
  destruct (list_eq_dec string_dec (PyPath.parts p) (PyPath.parts p)); [reflexivity|congruence].
Qed.

(** A directory that is not a root is not two levels above itself. *)
Lemma not_nested_in_itself (ps : string) :
  PyPath.parts (PyPath.of_string ps) <> [] ->
  nested_in (PyPath.of_string ps) ps = false.
Proof.
  intros Hne. unfold nested_in.
  destruct (PyPath.eqb _ _) eqn:H; [|reflexivity].
  apply path_eqb_parts in H. cbn [PyPath.parent PyPath.parts] in H.
  apply (f_equal (@length _)) in H. rewrite !removelast_length in H.
  destruct (PyPath.parts (PyPath.of_string ps)); [congruence|]. simpl in H. lia.
Qed.

Lemma collect_ok {A B} (f : A -> Result (option B)) (l : list A) :
  (forall x, In x l -> exists y, f x = Ok y) -> exists ys, collect f l = Ok ys.
Proof.
  induction l as [|x l IH]; intros H; [simpl; eauto|].
  destruct (H x (or_introl eq_refl)) as (y & Hy).
  destruct IH as (ys & Hys); [intros; apply H; right; assumption|].
  simpl. rewrite Hy, Hys. eauto.
Qed.

Lemma prefix_of_shorter {A} (l1 r1 l2 r2 : list A) :
  (l1 ++ r1 = l2 ++ r2)%list -> length l1 <= length l2 ->
  exists m, l2 = (l1 ++ m)%list.
Proof.
  revert l2. induction l1 as [|a l1 IH]; intros l2 H Hlen; [simpl; eauto|].
  destruct l2 as [|b l2]; [simpl in Hlen; lia|].
  simpl in H. injection H as <- H. simpl in Hlen.
  destruct (IH l2 H) as (m & ->); [lia|]. exists m. reflexivity.
Qed.

Section TreeProofs.
Variable E : Env.
Variable root_dir : PyPath.Path.

Lemma listed_children_come_first tr wts tr' :
  get_worktrees E root_dir tr = (Ok wts, tr') ->
  Forall (fun wt => PyPath.parts (PyPath.of_string (path wt)) <> []) wts ->
  children_come_first wts.
Proof.
  rewrite get_worktrees_eq.
  destruct (env_run E tr worktree_list_argv) as [cp|]; [|discriminate].
  destruct (returncode cp =? 0)%Z.
  2:{ intros H _. injection H as <- _. intros [|] ? ? Habs; discriminate. }
  intros H Hparts. injection H as H _.
  apply annotate_children in H. destruct H as (new & -> & Hnew).
  simpl in *. intros l1 wt l2 Hsplit c Hc.
  destruct (Hnew l1 wt l2 Hsplit) as (Hch & _).
  rewrite Hch in Hc. destruct (hosts_children _ _ _ _); [|destruct Hc].
  unfold nested_names in Hc. rewrite filter_app, map_app in Hc.
  apply in_app_or in Hc. destruct Hc as [Hc|Hc].
  - apply in_map_iff in Hc. destruct Hc as (w & Hw & Hin).
    apply filter_In in Hin. exists w. tauto.
  - exfalso. cbn [filter] in Hc. rewrite not_nested_in_itself in Hc; [destruct Hc|].
    rewrite Forall_forall in Hparts. apply Hparts. subst new.
    apply in_or_app. right. left. reflexivity.
Qed.

Lemma add_children_ends (wts : list Worktree) :
  children_come_first wts ->
  forall fuel l1 wt l2,
    wts = (l1 ++ wt :: l2)%list -> length l1 < fuel ->
    exists nodes, _add_children_to_tree fuel wt wts = Ok nodes.
Proof.
  intros Hfirst. induction fuel as [|fuel IH]; intros l1 wt l2 Hsplit Hlen; [lia|].
  cbn [_add_children_to_tree]. apply collect_ok. intros c Hc.
  destruct (find (fun w => String.eqb (name w) c) wts) as [w'|] eqn:Hfind; [|eauto].
  apply find_first in Hfind. destruct Hfind as (before & after & Hw & Hname & Hnone).
  destruct (Hfirst l1 wt l2 Hsplit c Hc) as (w & Hin & Hwn).
  assert (length before < length l1) as Hshort.
  { destruct (Nat.lt_ge_cases (length before) (length l1)) as [|Hge]; [assumption|].
    exfalso. rewrite Hsplit in Hw.
    destruct (prefix_of_shorter _ _ _ _ Hw Hge) as (m & ->).
    rewrite Forall_forall in Hnone.
    specialize (Hnone w (in_or_app _ _ _ (or_introl Hin))).
    rewrite Hwn, String.eqb_refl in Hnone. discriminate. }
  destruct (IH before w' after Hw) as (nodes & ->); [lia|]. eauto.
Qed.

Lemma root_nodes fuel (wts roots : list Worktree) :
  (forall wt, In wt roots ->
     exists nodes, _add_children_to_tree fuel wt wts = Ok nodes) ->
  forall acc tr,
    exists nodes,
      for_each
        (fun nodes wt =>
           below <- (fun tr => (_add_children_to_tree fuel wt wts, tr)) ;;
           ret (nodes ++ [Node (node_text wt) below])%list)
        roots acc tr
      = (Ok (acc ++ nodes)%list, tr)
      /\ map tree_label nodes = map node_text roots.
Proof.
  induction roots as [|wt roots IH]; intros Hall acc tr.
  - exists []. simpl. rewrite app_nil_r. auto.
  - destruct (Hall wt (or_introl eq_refl)) as (below & Hb).
    destruct (IH (fun w Hw => Hall w (or_intror Hw))
                 (acc ++ [Node (node_text wt) below])%list tr) as (nodes & Hn & Hl).
    exists (Node (node_text wt) below :: nodes). split.
    + cbn [for_each]. unfold bind at 1. unfold bind at 1. rewrite Hb.
      unfold ret at 1. rewrite Hn, <- app_assoc. reflexivity.
    + simpl. rewrite Hl. reflexivity.
Qed.

(** X14.  On every listing that [get_worktrees] accepts and that holds
    no worktree at a file-system root, the recursion of
    [_add_children_to_tree] ends within as many levels as there are
    worktrees: children are listed before their parents, and a child is
    looked up by name from the start of the list.  The nodes at the top
    of the tree are the root worktrees, in listing order. *)
Theorem worktree_tree_is_built fuel tr wts tr' :
  get_worktrees E root_dir tr = (Ok wts, tr') ->
  Forall (fun wt => PyPath.parts (PyPath.of_string (path wt)) <> []) wts ->
  length wts <= fuel ->
  exists nodes,
    create_worktree_tree E root_dir fuel tr = (Ok (Node tree_title nodes), tr')
    /\ map tree_label nodes = map node_text (filter (is_root_wt root_dir) wts).
Proof.
  intros Hgw Hparts Hfuel.
  pose proof (listed_children_come_first _ _ _ Hgw Hparts) as Hfirst.
  destruct (root_nodes fuel wts (filter (is_root_wt root_dir) wts)) with (acc := @nil Tree) (tr := tr')
    as (nodes & Hn & Hl).
  { intros wt Hin. apply filter_In in Hin. destruct Hin as (Hin & _).
    apply in_split in Hin. destruct Hin as (l1 & l2 & Hsplit).
    apply (add_children_ends wts Hfirst fuel l1 wt l2 Hsplit).
    rewrite Hsplit, length_app in Hfuel. simpl in Hfuel. lia. }
  exists nodes. split; [|exact Hl].
  unfold create_worktree_tree. unfold bind at 1. rewrite Hgw.
  unfold bind at 1. rewrite Hn. reflexivity.
Qed.

(** X15.  When every listed worktree is the root worktree or lies
    directly in [<root>/worktrees], the tree holds one node for the root
    worktree and nothing else: a worktree in [<root>/worktrees] is not
    beside the root directory, and the root worktree has no children. *)
Theorem worktree_tree_standard_layout fuel tr wts tr' :
  get_worktrees E root_dir tr = (Ok wts, tr') ->
  Forall (fun wt =>
            PyPath.eqb (PyPath.of_string (path wt)) root_dir = true
            \/ PyPath.parent (PyPath.of_string (path wt))
               = PyPath.child root_dir "worktrees")
         wts ->
  create_worktree_tree E root_dir (S fuel) tr
  = (Ok (Node tree_title
              (map (fun wt => Node (node_text wt) [])
                   (filter (fun wt => PyPath.eqb (PyPath.of_string (path wt)) root_dir)
                           wts))),
     tr').
Proof.
  intros Hgw Hlayout.
  pose proof (root_has_no_children E root_dir _ _ _ Hgw) as Hch.
  assert (Hroots : filter (is_root_wt root_dir) wts
                   = filter (fun wt => PyPath.eqb (PyPath.of_string (path wt)) root_dir)
                            wts).
  { apply filter_ext_in. intros wt Hin. rewrite Forall_forall in Hlayout.
    unfold is_root_wt. destruct (Hlayout wt Hin) as [Hr|Hw].
    - rewrite Hr. apply orb_true_r.
    - rewrite Hw.
      assert (PyPath.eqb (PyPath.child root_dir "worktrees") (PyPath.parent root_dir)
              = false) as ->.
      { destruct (PyPath.eqb _ _) eqn:Heq; [|reflexivity].
        apply path_eqb_parts in Heq. cbn [PyPath.child PyPath.parent PyPath.parts] in Heq.
        apply (f_equal (@length _)) in Heq.
        rewrite length_app, removelast_length in Heq. simpl in Heq. lia. }
      cbn [orb]. destruct (PyPath.eqb (PyPath.of_string (path wt)) root_dir) eqn:Heq;
        [|reflexivity].
      exfalso. apply path_eqb_parts in Heq.
      apply (f_equal PyPath.parts) in Hw.
      cbn [PyPath.child PyPath.parent PyPath.parts] in Hw. rewrite Heq in Hw.
      apply (f_equal (@length _)) in Hw.
      rewrite length_app, removelast_length in Hw. simpl in Hw. lia. }
  unfold create_worktree_tree. unfold bind at 1. rewrite Hgw. rewrite Hroots.
  assert (Hleaf : forall wt,
            In wt (filter (fun wt => PyPath.eqb (PyPath.of_string (path wt)) root_dir) wts) ->
            _add_children_to_tree (S fuel) wt wts = Ok []).
  { intros wt Hin. apply filter_In in Hin. destruct Hin as (Hin & Hr).
    cbn [_add_children_to_tree]. rewrite (Hch wt Hin Hr). reflexivity. }
  revert Hleaf.
  generalize (filter (fun wt => PyPath.eqb (PyPath.of_string (path wt)) root_dir) wts).
  intros roots Hleaf.
  assert (forall acc,
            for_each
              (fun nodes wt =>
                 below <- (fun tr => (_add_children_to_tree (S fuel) wt wts, tr)) ;;
                 ret (nodes ++ [Node (node_text wt) below])%list)
              roots acc tr'
            = (Ok (acc ++ map (fun wt => Node (node_text wt) []) roots)%list, tr')) as Hfe.
  { induction roots as [|wt roots IH]; intros acc.
    - simpl. rewrite app_nil_r. reflexivity.
    - cbn [for_each]. unfold bind at 1. unfold bind at 1.
      rewrite (Hleaf wt (or_introl eq_refl)). unfold ret at 1.
      rewrite IH by (intros; apply Hleaf; right; assumption).
      rewrite <- app_assoc. reflexivity. }
  unfold bind at 1. rewrite Hfe. reflexivity.
Qed.

End TreeProofs.

Section InputProofs.
Variable E : Env.
Variable root_dir : PyPath.Path.

Lemma create_worktree_extends b parent :
  emits (fun _ => True) (create_worktree E b parent).
Proof.
  unfold create_worktree. apply emits_try; [|intros e; emits_auto; exact I].
  apply emits_bind; [apply emits_read; intros; apply emits_ret|]. intros cmd.
  emits_auto; exact I.
Qed.

Lemma auto_clean_extends dry_run :
  emits (fun _ => True) (auto_clean E root_dir dry_run).
Proof.
  unfold auto_clean. apply emits_try; [|intros e; emits_auto; exact I].
  apply emits_bind; [apply emits_print; exact I|]. intros _.
  apply emits_bind; [apply emits_run; intros; exact I|]. intros result.
  destruct (negb _); [emits_auto; exact I|]. cbv zeta.
  destruct (merged_branches_of _); [emits_auto; exact I|].
  apply emits_bind;
    [eapply emits_weaken; [|apply get_worktrees_quiet]; auto|]. intros wts.
  destruct (cleanup_candidates_of _ _); [emits_auto; exact I|].
  destruct dry_run; [emits_auto; exact I|].
  unfold _cleanup_merged_branch. emits_auto; exact I.
Qed.

Lemma ship_all_extends fuel dry_run :
  emits (fun _ => True) (ship_all E root_dir fuel dry_run).
Proof.
  unfold ship_all. apply emits_try; [|intros e; emits_auto; exact I].
  apply emits_bind; [apply emits_print; exact I|]. intros _.
  apply emits_bind;
    [eapply emits_weaken; [|apply get_worktrees_quiet]; auto|]. intros wts.
  apply emits_bind;
    [apply emits_for_each; intros;
     eapply emits_weaken; [|apply scan_worktree_quiet]; auto|].
  intros [|c cs]; [emits_auto; exact I|].
  destruct dry_run; [emits_auto; exact I|].
  apply emits_bind; [apply emits_print; exact I|]. intros _.
  apply emits_bind; [emits_auto; exact I|]. intros _.
  apply emits_bind; [apply emits_confirm; intros; exact I|]. intros ok.
  destruct (negb ok); [emits_auto; exact I|].
  apply emits_bind; [apply ship_loop_extends|]. intros shipped.
  emits_auto; exact I.
Qed.

Lemma dispatch_extends fuel key : emits (fun _ => True) (dispatch E root_dir fuel key).
Proof.
  unfold dispatch, start_agent, start_servers, stop_servers.
  repeat match goal with
         | |- emits _ (if String.eqb key ?k then _ else _) =>
             destruct (String.eqb key k)
         end.
  - apply emits_bind; [apply emits_prompt; intros; exact I|]. intros branch.
    apply emits_bind; [apply emits_prompt; intros; exact I|]. intros parent.
    apply emits_bind; [apply create_worktree_extends|]. intros; apply emits_ret.
  - apply emits_bind; [apply emits_prompt; intros; exact I|]. intros worktree.
    destruct (String.eqb worktree "here").
    + apply emits_bind; [|intros; apply emits_ret].
      apply (emits_read (fun _ => True) (fun tr => env_set E "DEVENV_ROOT" tr)
               (fun b : bool => if b then run E ["agent-here"]
                        else run E ["devenv"; "shell"; "--impure"; "-c"; "agent-here"])).
      intros [|]; apply emits_run; intros; exact I.
    + cbv zeta. intros tr r tr'.
      destruct (env_exists E tr _); [|apply emits_print; exact I].
      destruct (env_set E "ZELLIJ" tr); [revert tr r tr'; emits_auto; exact I|].
      destruct (env_set E "DEVENV_ROOT" tr); revert tr r tr'; emits_auto; exact I.
  - apply emits_bind; [apply emits_print; exact I|]. intros _.
    apply emits_bind; [|intros; apply emits_ret].
    apply (emits_read (fun _ => True) (fun tr => env_set E "DEVENV_ROOT" tr)
             (fun b : bool => if b then run E ["mcp-start"]
                      else run E ["devenv"; "shell"; "--impure"; "-c"; "mcp-start"])).
    intros [|]; apply emits_run; intros; exact I.
  - apply emits_bind; [apply emits_prompt; intros; exact I|]. intros branch.
    apply emits_bind; [apply emits_confirm; intros; exact I|]. intros cleanup.
    apply emits_bind; [apply merge_branch_extends|]. intros; apply emits_ret.
  - apply emits_bind; [apply emits_confirm; intros; exact I|]. intros dry_run.
    apply emits_bind; [apply auto_clean_extends|]. intros [|c cs]; [apply emits_ret|].
    destruct dry_run; [|apply emits_ret].
    apply emits_bind; [apply emits_confirm; intros; exact I|]. intros [|];
      [|apply emits_ret].
    apply emits_bind; [apply auto_clean_extends|]. intros; apply emits_ret.
  - apply emits_bind; [apply emits_confirm; intros; exact I|]. intros dry_run.
    apply emits_bind; [apply ship_all_extends|]. intros [|c cs]; [apply emits_ret|].
    destruct dry_run; [|apply emits_ret].
    apply emits_bind; [apply emits_confirm; intros; exact I|]. intros [|];
      [|apply emits_ret].
    apply emits_bind; [apply ship_all_extends|]. intros; apply emits_ret.
  - apply emits_bind; [apply emits_print; exact I|]. intros _.
    apply emits_bind; [|intros; apply emits_ret].
    apply (emits_read (fun _ => True) (fun tr => env_set E "DEVENV_ROOT" tr)
             (fun b : bool => if b then run E ["mcp-stop"]
                      else run E ["devenv"; "shell"; "--impure"; "-c"; "mcp-stop"])).
    intros [|]; apply emits_run; intros; exact I.
  - apply emits_print; exact I.
  - apply emits_ret.
Qed.

(** X16.  [handle_input] returns [False] exactly when the user answered
    [q] to the command prompt, and then nothing else happened. *)
Theorem handle_input_quits_on_q fuel tr r evs :
  run_of (handle_input E root_dir fuel) tr r evs ->
  (r = Ok false <-> evs = [EPrompt command_question (Some "q")]).
Proof.
  unfold run_of, handle_input. unfold bind at 1. unfold prompt at 1.
  destruct (env_prompt E tr command_question) as [key|].
  2:{ intros H. injection H as <- H. apply app_inv_head in H. subst evs.
      split; discriminate. }
  destruct (String.eqb key "q") eqn:Hq.
  - apply String.eqb_eq in Hq. subst key. unfold ret. intros H.
    injection H as <- H. apply app_inv_head in H. subst evs. split; reflexivity.
  - unfold bind.
    destruct (dispatch E root_dir fuel key _) as [[u|e|] t] eqn:Hd;
      destruct (dispatch_extends fuel key _ _ _ Hd) as (more & -> & _);
      unfold ret; intros H; injection H as <- H;
      rewrite <- app_assoc in H; apply app_inv_head in H; subst evs;
      (split; [discriminate|]); intros Habs; injection Habs as Hk _;
      subst key; discriminate.
Qed.

End InputProofs.

(* ================================================================== *)
(** * Further properties: the commands *)
(* ================================================================== *)

Section CommandProofs.
Variable E : Env.



(** X18.  [wt-merge-branch] exits with status 0 or 1; without
    [--preview], status 0 means that the merge command for the given
    name was run and exited with status 0 or reported a conflict. *)
Theorem wt_merge_branch_status fuel (args : MergeArgs) tr status evs :
  run_of (wt_merge_branch E fuel args) tr (Ok status) evs ->
  (status = 0%Z \/ status = 1%Z)
  /\ (status = 0%Z -> arg_preview args = false ->
      exists cp, In (ERun (merge_argv (arg_branch args)) (Some cp)) evs
                 /\ (returncode cp = 0%Z \/ conflict_detected cp = true)).
Proof.
  unfold run_of, wt_merge_branch, bind. intros Hrun.
  destruct (merge_branch E _ fuel _ _ _ _ tr) as [[[|]|e|] tr'] eqn:Hm;
    try discriminate; unfold ret in Hrun; injection Hrun as <- ->.
  - split; [auto|]. intros _ Hp. rewrite Hp in Hm.
    apply merge_branch_true in Hm. destruct Hm as (evs' & cp & Heq & Hin & Hcp).
    apply app_inv_head in Heq. subst evs'. eauto.
  - split; [auto|]. discriminate.
Qed.

End CommandProofs.

(* ================================================================== *)
(** * Further properties: the console without rich *)
(* ================================================================== *)

Import Fallback.

Lemma strip_from_skip n : forall t, strip_from n t = strip_from 0 (PyStr.drop n t).
Proof.
  induction n as [|n IH]; intros t.
  - destruct t; reflexivity.
  - destruct t as [|c t]; [reflexivity|]. cbn [strip_from PyStr.drop]. apply IH.
Qed.

Lemma closing_bound t n : closing t = Some n -> n < String.length t.
Proof.
  revert n. induction t as [|c t IH]; intros n; simpl; [discriminate|].
  destruct (Ascii.eqb c "]"); [intros H; injection H as <-; lia|].
  destruct (Ascii.eqb c PyStr.nl); [discriminate|].
  destruct (closing t) as [k|]; [|discriminate].
  simpl. intros H. injection H as <-. specialize (IH k eq_refl). lia.
Qed.

Lemma drop_length n : forall t, String.length (PyStr.drop n t) = String.length t - n.
Proof.
  induction n as [|n IH]; intros [|c t]; simpl; try lia. apply IH.
Qed.

Lemma closing_kept t : closing t = None -> closing (strip_from 0 t) = None.
Proof.
  induction t as [|c t IH]; [reflexivity|].
  cbn [closing]. destruct (Ascii.eqb c "]") eqn:Hc; [discriminate|].
  destruct (Ascii.eqb c PyStr.nl) eqn:Hn.
  - intros _. cbn [strip_from].
    assert (Ascii.eqb c "[" = false) as ->.
    { apply Ascii.eqb_eq in Hn. subst c. reflexivity. }
    cbn [closing]. rewrite Hc, Hn. reflexivity.
  - destruct (closing t) as [k|] eqn:Hk; [discriminate|]. intros _.
    cbn [strip_from]. rewrite Hk.
    destruct (Ascii.eqb c "["); cbn [closing]; rewrite Hc, Hn, (IH eq_refl); reflexivity.
Qed.

Lemma strip_from_no_match : forall n s, String.length s <= n -> no_match (strip_from 0 s) = true.
Proof.
  induction n as [|n IH]; intros [|c t] Hlen; try reflexivity; [simpl in Hlen; lia|].
  simpl in Hlen. cbn [strip_from].
  destruct (Ascii.eqb c "[") eqn:Hc.
  - destruct (closing t) as [k|] eqn:Hk.
    + rewrite strip_from_skip. apply IH. rewrite drop_length.
      apply closing_bound in Hk. lia.
    + cbn [no_match]. rewrite Hc, (closing_kept _ Hk). apply IH. lia.
  - cbn [no_match]. rewrite Hc. apply IH. lia.
Qed.

Lemma strip_no_match s : no_match s = true -> strip_from 0 s = s.
Proof.
  induction s as [|c t IH]; [reflexivity|]. cbn [no_match strip_from].
  intros H. apply andb_prop in H. destruct H as (Hc & Ht).
  destruct (Ascii.eqb c "[").
  - destruct (closing t); [discriminate|]. rewrite (IH Ht). reflexivity.
  - rewrite (IH Ht). reflexivity.
Qed.

(** X19.  The markup removal of the fallback [Console.print] is
    idempotent: its result holds no bracketed group any more. *)
Theorem strip_markup_idempotent (text : string) :
  strip_markup (strip_markup text) = strip_markup text.
Proof.
  unfold strip_markup. apply strip_no_match.
  apply (strip_from_no_match (String.length text)). lia.
Qed.

Lemma lacks_no_match s : lacks "[" s = true -> no_match s = true.
Proof.
  induction s as [|c t IH]; [reflexivity|]. cbn [lacks no_match].
  intros H. apply andb_prop in H. destruct H as (Hc & Ht).
  apply negb_true_iff in Hc. rewrite Hc, (IH Ht). reflexivity.
Qed.

Lemma closing_tag tag rest :
  lacks "]" tag = true -> lacks PyStr.nl tag = true ->
  closing (tag ++ String "]" rest) = Some (String.length tag).
Proof.
  induction tag as [|c t IH]; [reflexivity|]. cbn [lacks append closing String.length].
  intros H1 H2. apply andb_prop in H1, H2. destruct H1 as (Hc1 & Ht1), H2 as (Hc2 & Ht2).
  apply negb_true_iff in Hc1, Hc2. rewrite Hc1, Hc2, (IH Ht1 Ht2). reflexivity.
Qed.

Lemma drop_app s : forall rest, PyStr.drop (String.length s) (s ++ rest) = rest.
Proof. induction s as [|c t IH]; intros rest; [destruct rest; reflexivity|apply IH]. Qed.

Lemma strip_tag tag rest :
  lacks "]" tag = true -> lacks PyStr.nl tag = true ->
  strip_markup ("[" ++ tag ++ "]" ++ rest) = strip_markup rest.
Proof.
  intros H1 H2. unfold strip_markup.
  change ("[" ++ tag ++ "]" ++ rest) with (String "[" (tag ++ String "]" rest)).
  cbn [strip_from]. change (Ascii.eqb "[" "[") with true. cbv iota.
  rewrite (closing_tag _ _ H1 H2), strip_from_skip.
  change (S (String.length tag)) with (String.length (String "]" tag)).
  replace (PyStr.drop (String.length (String "]" tag)) (tag ++ String "]" rest))
    with rest; [reflexivity|].
  change (String.length (String "]" tag)) with (S (String.length tag)).
  clear. induction tag as [|c t IH]; [destruct rest; reflexivity|]. simpl. exact IH.
Qed.

Lemma strip_app_plain body : forall rest,
  lacks "[" body = true ->
  strip_from 0 (body ++ rest) = body ++ strip_from 0 rest.
Proof.
  induction body as [|c t IH]; intros rest; [reflexivity|]. cbn [lacks].
  intros H. apply andb_prop in H. destruct H as (Hc & Ht). apply negb_true_iff in Hc.
  cbn [append strip_from]. rewrite Hc, (IH _ Ht). reflexivity.
Qed.

(** X20.  The fallback [Console.print] prints a message written between
    an opening and a closing tag as the message alone, when the message
    holds no opening bracket. *)
Theorem strip_markup_tagged (tag body : string) :
  lacks "]" tag = true ->
  lacks PyStr.nl tag = true ->
  lacks "[" body = true ->
  strip_markup ("[" ++ tag ++ "]" ++ body ++ "[/" ++ tag ++ "]") = body.
Proof.
  intros H1 H2 H3. rewrite (strip_tag _ _ H1 H2). unfold strip_markup.
  rewrite (strip_app_plain _ _ H3).
  change ("[/" ++ tag ++ "]") with ("[" ++ (String "/" tag) ++ "]" ++ "").
  fold (strip_markup ("[" ++ String "/" tag ++ "]" ++ "")).
  rewrite strip_tag; [| cbn [lacks]; rewrite H1; reflexivity
                      | cbn [lacks]; rewrite H2; reflexivity].
  unfold strip_markup. simpl. clear. induction body; simpl; congruence.
Qed.

Lemma lstrip_blank lead : forall s,
  blank lead = true -> PyStr.lstrip (lead ++ s) = PyStr.lstrip s.
Proof.
  induction lead as [|c t IH]; intros s; [reflexivity|]. cbn [blank].
  intros H. apply andb_prop in H. destruct H as (Hc & Ht).
  cbn [append PyStr.lstrip]. rewrite Hc. apply IH, Ht.
Qed.

Lemma rstrip_keeps_head c t :
  PyStr.is_space c = false -> exists t', PyStr.rstrip (String c t) = String c t'.
Proof.
  intros Hc. cbn [PyStr.rstrip]. rewrite Hc. destruct (PyStr.rstrip t); eauto.
Qed.

Lemma strip_blank s : blank s = true -> PyStr.strip s = "".
Proof.
  intros H. unfold PyStr.strip.
  replace (PyStr.lstrip s) with ""; [reflexivity|].
  induction s as [|c t IH]; [reflexivity|]. cbn [blank] in H.
  apply andb_prop in H. destruct H as (Hc & Ht).
  cbn [PyStr.lstrip]. rewrite Hc. apply IH, Ht.
Qed.

(** X21.  The fallback [Confirm.ask] returns the default on a blank
    answer; otherwise it looks at the first character that is not a
    blank and returns [True] exactly when it is [y] or [Y]. *)
Theorem confirm_answer_first_letter (lead rest : string) (c : ascii) (default : bool) :
  blank lead = true ->
  PyStr.is_space c = false ->
  Fallback.confirm_answer lead default = default
  /\ Fallback.confirm_answer (lead ++ String c rest) default
     = Ascii.eqb (PyStr.lower_char c) "y".
Proof.
  intros Hl Hc. unfold Fallback.confirm_answer. split.
  - rewrite (strip_blank _ Hl). reflexivity.
  - unfold PyStr.strip. rewrite (lstrip_blank _ _ Hl).
    cbn [PyStr.lstrip]. rewrite Hc.
    destruct (rstrip_keeps_head c rest Hc) as (t' & ->).
    cbn [PyStr.lower]. unfold PyStr.startswith. cbn [String.prefix].
    destruct (ascii_dec "y" (PyStr.lower_char c)) as [<-|Hne].
    + destruct (PyStr.lower t'); reflexivity.
    + symmetry. apply Ascii.eqb_neq. congruence.
Qed.

(* ================================================================== *)
(** * Further properties: the MCP servers *)
(* ================================================================== *)

Import MCP.

Lemma dict_set_keys d k v :
  map fst (dict_set d k v)
  = if existsb (String.eqb k) (map fst d) then map fst d else (map fst d ++ [k])%list.
Proof.
  induction d as [|[k' v'] d IH]; [reflexivity|]. simpl.
  rewrite (String.eqb_sym k k').
  destruct (String.eqb k' k); simpl; [reflexivity|]. rewrite IH.
  destruct (existsb _ _); reflexivity.
Qed.

Lemma dict_set_values d k v (P : string -> Prop) :
  P v -> Forall P (map snd d) -> Forall P (map snd (dict_set d k v)).
Proof.
  intros Hv. induction d as [|[k' v'] d IH]; simpl; intros Hd.
  - constructor; [exact Hv|constructor].
  - inversion Hd; subst. destruct (String.eqb k' k); simpl; constructor; auto.
Qed.

Lemma dict_get_in d k default :
  In k (map fst d) -> In (dict_get d k default) (map snd d).
Proof.
  induction d as [|[k' v'] d IH]; simpl; [tauto|].
  intros [->|Hin].
  - rewrite String.eqb_refl. auto.
  - destruct (String.eqb k' k); auto.
Qed.

Section StatusProofs.
Variable H : Host.

Lemma server_status_states pid_dir name s :
  server_status H pid_dir name = Some s -> In s server_states.
Proof.
  unfold server_status, server_states.
  destruct (host_exists H _); [|intros Hs; injection Hs as <-; simpl; auto].
  destruct (host_read_text H _); [|intros Hs; injection Hs as <-; simpl; auto].
  destruct (PyStr.int _); [|intros Hs; injection Hs as <-; simpl; auto].
  destruct (host_kill H _); intros Hs; try discriminate;
    injection Hs as <-; simpl; auto.
Qed.

Lemma get_status_covers status :
  get_status H = Some status ->
  map fst status = map fst servers
  /\ Forall (fun s => In s server_states) (map snd status).
Proof.
  unfold get_status. destruct (negb _).
  - intros Hs. injection Hs as <-. split; [reflexivity|].
    simpl. repeat constructor; simpl; auto.
  - generalize (PyPath.child mcp_dir "pids"). intros pid_dir.
    unfold servers. cbn [map fst status_loop].
    repeat match goal with
           | |- context [server_status H pid_dir ?n] =>
               let s := fresh "s" in
               let Hs := fresh "Hs" in
               destruct (server_status H pid_dir n) as [s|] eqn:Hs;
               [apply server_status_states in Hs|discriminate]
           end.
    intros Hst. injection Hst as <-. split; [reflexivity|].
    simpl. repeat (apply Forall_cons; [assumption|]). apply Forall_nil.
Qed.

(** X22.  When [get_status] returns, the status table has one row per
    server, in the order of the servers, and the status shown is one of
    [not configured], [running], [stopped] and [not started] in its
    colour: the default [unknown] is never shown. *)
Theorem mcp_status_table_rows rows :
  create_mcp_status_table H = Some rows ->
  map fst rows = map snd servers
  /\ Forall (fun row =>
               In (snd row)
                  ["[yellow]not configured[/yellow]"; "[green]running[/green]";
                   "[red]stopped[/red]"; "[yellow]not started[/yellow]"])
            rows.
Proof.
  unfold create_mcp_status_table.
  destruct (get_status H) as [status|] eqn:Hs; [|discriminate].
  intros Hr.
  assert (rows = map (status_row status) servers) as -> by congruence. clear Hr.
  apply get_status_covers in Hs.
  destruct Hs as (Hkeys & Hvals). split.
  - rewrite map_map. reflexivity.
  - apply Forall_forall. intros row Hin. apply in_map_iff in Hin.
    destruct Hin as (server & <- & Hin).
    assert (In (dict_get status (fst server) "unknown") server_states) as Hst.
    { rewrite Forall_forall in Hvals. apply Hvals, dict_get_in.
      rewrite Hkeys. apply in_map, Hin. }
    unfold status_row. cbn [snd].
    destruct Hst as [<-|[<-|[<-|[<-|[]]]]]; simpl; auto.
Qed.

End StatusProofs.

(* ================================================================== *)
(** * What the outcome of the merge command allows *)
(* ================================================================== *)

Lemma quiet_harmless (e : Event) : quiet e = true -> harmless e.
Proof.
  destruct e as [argv r| | | |]; simpl; try (intros; split; reflexivity).
  destruct argv as [|g [|sub rest]]; try discriminate.
  unfold harmless. simpl.
  destruct (String.eqb_spec sub "reset") as [->|];
    [simpl; rewrite andb_false_r; discriminate|].
  destruct (String.eqb_spec sub "push") as [->|];
    [simpl; rewrite andb_false_r; discriminate|].
  destruct (String.eqb_spec sub "worktree") as [->|]; [|intros; split; reflexivity].
  destruct rest as [|a rest]; [intros; split; reflexivity|].
  destruct (String.eqb_spec a "remove") as [->|]; [|intros; split; reflexivity].
  simpl. destruct rest as [|? [|? ?]]; simpl; rewrite ?andb_false_r; discriminate.
Qed.

Lemma split_beyond (P : Event -> Prop) (A : list Event) : forall B pre e post,
  (A ++ B = pre ++ e :: post)%list ->
  Forall P A -> ~ P e ->
  exists mid, pre = (A ++ mid)%list /\ B = (mid ++ e :: post)%list.
Proof.
  induction A as [|a A IH]; intros B pre e post Heq HA He.
  - exists pre. auto.
  - inversion HA as [|? ? Ha HA']; subst.
    destruct pre as [|p pre]; simpl in Heq; injection Heq as -> Heq.
    + contradiction.
    + destruct (IH _ _ _ _ Heq HA' He) as (mid & -> & ->). exists mid. auto.
Qed.

Section Guards.

Variable E : Env.
Variable root_dir : PyPath.Path.

Lemma merge_branch_preview_quiet fuel b cleanup push :
  emits (fun e => quiet e = true) (merge_branch E root_dir fuel b cleanup true push).
Proof.
  unfold merge_branch. apply emits_try.
  - apply emits_bind; [apply get_worktrees_quiet|]. intros wts.
    destruct (find_target b wts) as [wt|]; [|emits_auto; reflexivity].
    apply emits_bind; [apply get_parent_branch_quiet|]. intros [[|c p]|];
      [emits_auto; reflexivity| |emits_auto; reflexivity].
    apply preview_merge_quiet.
  - intros e. emits_auto; reflexivity.
Qed.

Lemma rollback_no_removal parent backup_ref :
  emits (fun e => is_removal_or_push e = false) (_rollback_merge E parent backup_ref).
Proof. unfold _rollback_merge. emits_auto; reflexivity. Qed.

Lemma conflict_loop_no_removal fuel b parent backup_ref :
  emits (fun e => is_removal_or_push e = false)
        (conflict_loop E fuel b parent backup_ref).
Proof.
  induction fuel as [|fuel IH]; simpl; [apply emits_out_of_fuel|].
  unfold manual_steps.
  emits_auto;
    try exact IH; try apply rollback_no_removal;
    try (apply emits_read; intros ?; apply emits_system);
    try reflexivity.
Qed.

Lemma cleanup_no_reset wt b :
  emits (fun e => is_reset e = false) (_cleanup_merged_branch E wt b).
Proof. unfold _cleanup_merged_branch. emits_auto; reflexivity. Qed.

Lemma after_merge_suits fuel b parent backup_ref wt cleanup push m :
  emits (suits m) (after_merge E fuel b parent backup_ref wt cleanup push m).
Proof.
  unfold after_merge, suits. destruct (returncode m =? 0)%Z; cbn [negb].
  - emits_auto; try apply cleanup_no_reset; try reflexivity.
  - unfold _handle_merge_conflicts, conflict_menu.
    emits_auto;
      try apply conflict_loop_no_removal; try apply rollback_no_removal;
      try reflexivity.
Qed.

Lemma merge_branch_phases fuel b cleanup preview push tr0 r evs :
  run_of (merge_branch E root_dir fuel b cleanup preview push) tr0 r evs ->
  exists before after,
    evs = (before ++ after)%list
    /\ Forall harmless before
    /\ (after = []
        \/ exists m, In (ERun (merge_argv b) (Some m)) before
                     /\ Forall (suits m) after).
Proof.
  unfold run_of. intros H. destruct preview.
  { destruct (merge_branch_preview_quiet _ _ _ _ _ _ _ H)
      as (evq & Htr & Hq).
    apply app_inv_head in Htr. subst evq.
    exists evs, []. rewrite app_nil_r. split; [reflexivity|]. split; [|left; reflexivity].
    eapply Forall_impl; [exact quiet_harmless|exact Hq]. }
  destruct (merge_branch_anatomy E root_dir _ _ _ _ _ _ _ H) as (evq & Hq & Hcase).
  apply (Forall_impl harmless quiet_harmless) in Hq.
  assert (Hstop : forall l, Forall harmless l -> evs = (evq ++ l)%list ->
            exists before after,
              evs = (before ++ after)%list
              /\ Forall harmless before
              /\ (after = []
                  \/ exists m, In (ERun (merge_argv b) (Some m)) before
                               /\ Forall (suits m) after)).
  { intros l Hl ->. exists (evq ++ l)%list, []. rewrite app_nil_r.
    split; [reflexivity|]. split; [apply Forall_app; auto|left; reflexivity]. }
  destruct Hcase as [[-> Htr]|
    (wts & target & parent & ev1 & ev2 & r1 & tr1 & Hev & Hgw & Hf & Hp & Hne & Har & Hr)].
  - apply app_inv_head in Htr. apply (Hstop []); [constructor|].
    rewrite app_nil_r. exact Htr.
  - set (backup_ref := backup_name b (env_now E (tr0 ++ evq)%list)) in *.
    rewrite after_resolve_eq in Har. cbv zeta in Har.
    destruct (env_run E (tr0 ++ evq)%list (backup_argv backup_ref parent))
      as [cpx|] eqn:Hx.
    + destruct (env_run E _ (checkout_argv parent)) as [c|] eqn:Hy.
      * destruct (negb (returncode c =? 0)%Z) eqn:Hrc.
        -- inversion Har; subst r1 tr1. destruct Hr as [-> Htr].
           rewrite <- ?app_assoc in Htr. apply app_inv_head in Htr.
           eapply Hstop; [|exact Htr].
           unfold prelude. repeat (apply Forall_cons; [split; reflexivity|]).
           apply Forall_nil.
        -- destruct (env_run E _ (merge_argv b)) as [m|] eqn:Hz.
           ++ destruct (after_merge_suits _ _ _ backup_ref _ _ _ _ _ _ _ Har)
                as (post1 & -> & Hpost1).
              exists (evq ++ prelude b parent backup_ref (Some cpx)
                          ++ [ERun (checkout_argv parent) (Some c);
                              ERun (merge_argv b) (Some m)])%list.
              assert (Htail : exists tail,
                        evs = ((evq ++ prelude b parent backup_ref (Some cpx)
                                  ++ [ERun (checkout_argv parent) (Some c);
                                      ERun (merge_argv b) (Some m)])
                               ++ post1 ++ tail)%list
                        /\ Forall (suits m) tail).
              { exists (match r1 with
                        | Raise e => [EPrint (merge_error_msg E e)]
                        | _ => []
                        end).
                destruct r1 as [ok|e|]; destruct Hr as [_ Htr];
                  rewrite <- ?app_assoc in Htr; simpl in Htr;
                  rewrite <- ?app_assoc in Htr; apply app_inv_head in Htr;
                  subst evs; (split;
                    [rewrite <- ?app_assoc; simpl; rewrite <- ?app_assoc; simpl;
                     rewrite ?app_nil_r; reflexivity|]);
                  repeat constructor;
                  unfold suits; destruct (returncode m =? 0)%Z; reflexivity. }
              destruct Htail as (tail & -> & Htail).
              exists (post1 ++ tail)%list. split; [reflexivity|]. split.
              ** apply Forall_app. split; [exact Hq|]. unfold prelude.
                 repeat (apply Forall_cons; [split; reflexivity|]). apply Forall_nil.
              ** right. exists m. split.
                 --- rewrite !in_app_iff. right. right. simpl. auto.
                 --- apply Forall_app. auto.
           ++ inversion Har; subst r1 tr1. destruct Hr as [-> Htr].
              rewrite <- ?app_assoc in Htr. apply app_inv_head in Htr.
              eapply Hstop; [|exact Htr].
              unfold prelude. repeat (apply Forall_cons; [split; reflexivity|]).
              apply Forall_nil.
      * inversion Har; subst r1 tr1. destruct Hr as [-> Htr].
        rewrite <- ?app_assoc in Htr. apply app_inv_head in Htr.
        eapply Hstop; [|exact Htr].
        unfold prelude. repeat (apply Forall_cons; [split; reflexivity|]).
        apply Forall_nil.
    + inversion Har; subst r1 tr1. destruct Hr as [-> Htr].
      rewrite <- ?app_assoc in Htr. apply app_inv_head in Htr.
      eapply Hstop; [|exact Htr].
      repeat (apply Forall_cons; [split; reflexivity|]). apply Forall_nil.
Qed.

(** X23. In every run of [merge_branch], a [git reset] comes only after the
    merge command has completed with a non-zero exit status, and the
    removal of a worktree or a push only after it has completed with
    status zero. *)
Theorem merge_outcome_guards_what_follows
    fuel b cleanup preview push tr0 r evs pre e post :
  run_of (merge_branch E root_dir fuel b cleanup preview push) tr0 r evs ->
  evs = (pre ++ e :: post)%list ->
  (is_reset e = true ->
     exists m, In (ERun (merge_argv b) (Some m)) pre /\ returncode m <> 0%Z)
  /\ (is_removal_or_push e = true ->
     exists m, In (ERun (merge_argv b) (Some m)) pre /\ returncode m = 0%Z).
Proof.
  intros H Hev.
  destruct (merge_branch_phases _ _ _ _ _ _ _ _ H)
    as (before & after & Heq & Hbefore & Hafter).
  assert (Hkey : ~ harmless e ->
            exists m, In (ERun (merge_argv b) (Some m)) pre /\ suits m e).
  { intros Hno. rewrite Hev in Heq. symmetry in Heq.
    destruct (split_beyond harmless _ _ _ _ _ Heq Hbefore Hno) as (mid & -> & ->).
    destruct Hafter as [Hnil|(m & Hin & Hall)].
    - destruct mid; discriminate Hnil.
    - exists m. split; [apply in_or_app; left; exact Hin|].
      apply Forall_app in Hall. destruct Hall as [_ Hall].
      inversion Hall; assumption. }
  split; intros He.
  - destruct Hkey as (m & Hin & Hs).
    { intros [Hr _]. congruence. }
    exists m. split; [exact Hin|]. unfold suits in Hs.
    destruct (returncode m =? 0)%Z eqn:Hrc; [congruence|].
    apply Z.eqb_neq. exact Hrc.
  - destruct Hkey as (m & Hin & Hs).
    { intros [_ Hr]. congruence. }
    exists m. split; [exact Hin|]. unfold suits in Hs.
    destruct (returncode m =? 0)%Z eqn:Hrc; [|congruence].
    apply Z.eqb_eq. exact Hrc.
Qed.

End Guards.

(* ================================================================== *)
(** * Further properties: the manual path of the conflict menu *)
(* ================================================================== *)

Section ManualPath.
Variable E : Env.

(** X24.  On the manual path of the conflict menu, once the user has
    confirmed that the conflicts are resolved and committed, the outcome
    depends on one thing only: whether the output of
    [git status --porcelain] holds the letters [UU].  Without them the
    menu reports completion and returns [True], whatever the exit status
    of the listing and whatever else it lists, and without a commit by
    the program; with them the menu goes round again. *)
Theorem manual_path_completion_check fuel b parent backup_ref tr st :
  env_prompt E tr choose_question = Some "2" ->
  env_confirm E (tr ++ manual_chosen b)%list open_shell_question = Some true ->
  env_confirm E (tr ++ shell_opened E b tr)%list resolved_question = Some true ->
  env_run E (tr ++ manual_path E b tr)%list status_argv = Some st ->
  conflict_loop E (S fuel) b parent backup_ref tr
  = if PyStr.contains "UU" (stdout st)
    then conflict_loop E fuel b parent backup_ref
           (tr ++ manual_path E b tr
               ++ [ERun status_argv (Some st); EPrint still_conflicts_msg])%list
    else (Ok true,
          (tr ++ manual_path E b tr
              ++ [ERun status_argv (Some st); EPrint completed_msg])%list).
Proof.
  intros Hc Ho Hr Hs.
  cbn [conflict_loop]. unfold bind at 1. unfold prompt at 1.
  fold choose_question. rewrite Hc. cbn [String.eqb Ascii.eqb Bool.eqb].
  unfold manual_steps, bind, print, confirm, system, run.
  cbv beta iota.
  unfold manual_path, shell_opened, manual_chosen in *.
  cbv zeta in *.
  repeat (rewrite <- ?app_assoc in Ho; cbn [app] in Ho).
  repeat (rewrite <- ?app_assoc in Hr; cbn [app] in Hr).
  repeat (rewrite <- ?app_assoc in Hs; cbn [app] in Hs).
  repeat (rewrite <- ?app_assoc; cbn [app]).
  fold open_shell_question. rewrite Ho. cbv beta iota.
  repeat (rewrite <- ?app_assoc; cbn [app]).
  fold resolved_question. rewrite Hr. cbv beta iota.
  repeat (rewrite <- ?app_assoc; cbn [app]).
  fold status_argv. rewrite Hs. cbv beta iota.
  destruct (PyStr.contains "UU" (stdout st)); cbn [negb];
    unfold ret; repeat (rewrite <- ?app_assoc; cbn [app]); reflexivity.
Qed.

End ManualPath.

(* ================================================================== *)
(** * The merge with the console of rich *)
(* ================================================================== *)

Section Agreement.
Variable E : Env.
Variable root_dir : PyPath.Path.

Lemma rich_conflict_loop_plain fuel :
  Rich.conflict_loop E accepts_all fuel = conflict_loop E fuel.
Proof.
  induction fuel as [|fuel IH]; [reflexivity|].
  cbn [Rich.conflict_loop conflict_loop]. rewrite IH. reflexivity.
Qed.

(** On a console that accepts every text, the merge with the console of
    rich is the merge of the sections above. *)
Lemma rich_merge_branch_plain fuel b cleanup preview push :
  Rich.merge_branch E root_dir accepts_all fuel b cleanup preview push
  = merge_branch E root_dir fuel b cleanup preview push.
Proof.
  unfold Rich.merge_branch, merge_branch,
    Rich._handle_merge_conflicts, _handle_merge_conflicts.
  rewrite rich_conflict_loop_plain. reflexivity.
Qed.

End Agreement.

Lemma emits_rich_print (P : Event -> Prop) (markup_error : string -> option string)
  (msg : string) :
  P (EPrint msg) -> emits P (Rich.print markup_error msg).
Proof.
  intros HP. unfold Rich.print. destruct (markup_error msg).
  - apply emits_raise.
  - apply emits_print. exact HP.
Qed.

Ltac rich_emits_auto :=
  repeat (first [apply emits_rich_print | emits_step | emits_branch]).

Section RichPreview.
Variable E : Env.
Variable root_dir : PyPath.Path.
Variable markup_error : string -> option string.

Lemma rich_get_worktrees_quiet :
  emits (fun e => quiet e = true) (Rich.get_worktrees E root_dir markup_error).
Proof. unfold Rich.get_worktrees. rich_emits_auto; reflexivity. Qed.

Lemma rich_preview_merge_quiet b p :
  emits (fun e => quiet e = true) (Rich._preview_merge E markup_error b p).
Proof. unfold Rich._preview_merge. rich_emits_auto; reflexivity. Qed.

(** X25.  With the console of rich too, whichever texts it rejects, every
    event of a run of [merge_branch] with [preview=True] is a read-only
    command, a message or a question, and no backup, checkout or merge
    command is issued: an error raised by the console cuts the run short
    and adds nothing to it. *)
Theorem rich_preview_read_only fuel b cleanup push tr r tr' :
  Rich.merge_branch E root_dir markup_error fuel b cleanup true push tr = (r, tr') ->
  exists evs,
    tr' = (tr ++ evs)%list
    /\ Forall (fun e => quiet e = true) evs
    /\ (forall ref parent answer,
          ~ In (ERun (backup_argv ref parent) answer) evs
          /\ ~ In (ERun (checkout_argv parent) answer) evs
          /\ ~ In (ERun (merge_argv ref) answer) evs).
Proof.
  intros H.
  assert (Hq : emits (fun e => quiet e = true)
                 (Rich.merge_branch E root_dir markup_error fuel b cleanup true push)).
  { unfold Rich.merge_branch. apply emits_try.
    - apply emits_bind; [apply rich_get_worktrees_quiet|]. intros wts.
      destruct (find_target b wts) as [wt|]; [|rich_emits_auto; reflexivity].
      apply emits_bind; [apply get_parent_branch_quiet|]. intros [[|c p]|];
        [rich_emits_auto; reflexivity| |rich_emits_auto; reflexivity].
      apply rich_preview_merge_quiet.
    - intros e. rich_emits_auto; reflexivity. }
  destruct (Hq _ _ _ H) as (evs & -> & HF). exists evs.
  split; [reflexivity|]. split; [exact HF|].
  intros ref parent answer. rewrite Forall_forall in HF.
  repeat split; intros Hin; apply HF in Hin; discriminate Hin.
Qed.
End RichPreview.

(** C3.  A merge failure whose message rich cannot read is not rolled
    back.  Git refuses the merge of [feature/x] with exit status 1 and no
    conflict marker, naming the untracked file [docs/[/old]/notes.md].
    [merge_branch] prints ["[red]Merge failed: ...[/red]"] before it calls
    [_rollback_merge]; rich raises [MarkupError] on the closing tag
    [[/old]] at offset 106; the handler of [merge_branch] prints the text
    of that error, which quotes the tag, and rich raises again.  So the
    call ends with a [MarkupError] right after the merge command: no
    reset is issued, the backup ref is not deleted and [False] is not
    returned.  On a console that accepts the message, the same failure is
    reported and rolled back, and the result is [False]. *)
Theorem merge_failure_not_rolled_back :
  returncode Scenario.untracked_answer = 1%Z
  /\ conflict_detected Scenario.untracked_answer = false
  /\ Scenario.unmatched_old (merge_failed_msg Scenario.untracked_answer)
     = Some "closing tag '[/old]' at position 106 doesn't match any open tag"
  /\ Scenario.rich_failure_run
     = (Raise (MarkupError
                 "closing tag '[/old]' at position 38 doesn't match any open tag"),
        (Fixture.before_the_merge (snd Scenario.plain_failure_run)
         ++ [ERun (merge_argv "feature/x") (Some Scenario.untracked_answer)])%list)
  /\ In (ERun (backup_argv "backup/feature/x-20240101-120000" "main")
              (Fixture.ok ""))
        (snd Scenario.rich_failure_run)
  /\ (forall ref y, ~ In (ERun (reset_argv ref) y) (snd Scenario.rich_failure_run))
  /\ (forall ref z,
        ~ In (ERun (delete_branch_argv ref) z) (snd Scenario.rich_failure_run))
  /\ Scenario.plain_failure_run
     = (Ok false,
        (Fixture.before_the_merge (snd Scenario.plain_failure_run)
         ++ [ERun (merge_argv "feature/x") (Some Scenario.untracked_answer);
             EPrint (merge_failed_msg Scenario.untracked_answer)]
         ++ rollback_events Scenario.untracked_world
              "backup/feature/x-20240101-120000" (Fixture.ok "") (Fixture.ok ""))%list).
Proof.
  repeat split; try (vm_compute; reflexivity).
  - vm_compute. in_list.
  - intros ref y Hin. vm_compute in Hin.
    repeat (destruct Hin as [Hin|Hin]; [discriminate Hin|]). exact Hin.
  - intros ref z Hin. vm_compute in Hin.
    repeat (destruct Hin as [Hin|Hin]; [discriminate Hin|]). exact Hin.
Qed.

(* ================================================================== *)
(** * The further properties on concrete repositories *)
(* ================================================================== *)


Lemma get_worktrees_needs_children_first_witness :
  (exists wts,
     get_worktrees Fixture.child_first_world Fixture.repo_root []
     = (Ok wts, [ERun worktree_list_argv (Fixture.ok Fixture.listing_child_first)])
     /\ map path wts
        = ["/repo"; "/repo/worktrees/a/worktrees/b"; "/repo/worktrees/a"])
  /\ get_worktrees Fixture.nested_world Fixture.repo_root []
     = (Raise (KeyError "name"),
        [ERun worktree_list_argv (Fixture.ok Fixture.listing_nested)]).
Proof.
  split.
  - exact (get_worktrees_needs_children_first Fixture.child_first_world
             Fixture.repo_root [] (mkCP 0 Fixture.listing_child_first "")
             eq_refl eq_refl eq_refl).
  - exact (get_worktrees_needs_children_first Fixture.nested_world
             Fixture.repo_root [] (mkCP 0 Fixture.listing_nested "")
             eq_refl eq_refl eq_refl).
Defined.

Lemma get_worktrees_children_witness :
  Forall (fun wt =>
            children wt
            = if hosts_children Fixture.child_first_world Fixture.repo_root
                   (snd Scenario.nested_run) (path wt)
              then nested_names (path wt) Scenario.nested_listed else [])
         Scenario.nested_listed.
Proof.
  apply (get_worktrees_children Fixture.child_first_world Fixture.repo_root []
           Scenario.nested_listed (snd Scenario.nested_run)).
  vm_compute. reflexivity.
Defined.

Lemma merge_branch_without_parent_witness :
  merge_branch Scenario.orphan_world Fixture.repo_root 1 "feature/x" true false true []
  = (Ok false,
     (snd (_get_parent_branch Scenario.orphan_world Fixture.feature_wt
             (snd Fixture.listing_run))
      ++ [EPrint (no_parent_msg "feature/x")])%list).
Proof.
  destruct (merge_branch_without_parent Scenario.orphan_world Fixture.repo_root 1
              "feature/x" true false true [] Fixture.listed
              (snd Fixture.listing_run) Fixture.feature_wt) as (Hnone & _).
  - vm_compute. reflexivity.
  - vm_compute. reflexivity.
  - apply (Hnone None); [vm_compute; reflexivity|left; reflexivity].
Defined.


Lemma preview_merge_outcome_witness :
  (fst Scenario.preview_run = Ok true <->
   (exists c, In (ERun (log_argv "main" "feature/x") (Some c))
                 (snd Scenario.preview_run)
              /\ has_text c = false)
   \/ In (EConfirm proceed_question (Some true)) (snd Scenario.preview_run))
  /\ ((exists c, In (ERun (log_argv "main" "feature/x") (Some c))
                    (snd Scenario.preview_run)
                 /\ has_text c = false) ->
      count_confirms (snd Scenario.preview_run) = 0)
  /\ count_confirms (snd Scenario.preview_run) <= 1.
Proof.
  apply (preview_merge_outcome Scenario.preview_world "feature/x" "main" []
           (fst Scenario.preview_run) (snd Scenario.preview_run)).
  vm_compute. reflexivity.
Defined.

Lemma merge_branch_comes_to_an_end_witness :
  fst (merge_branch Fixture.tool_fails Fixture.repo_root 2 "feature/x"
                    true false true [])
  <> OutOfFuel.
Proof.
  apply (merge_branch_comes_to_an_end Fixture.tool_fails Fixture.repo_root 1).
  - intros tr q Hn. simpl. destruct (count_prompts tr) as [|k]; [lia|].
    destruct k; reflexivity.
  - lia.
Defined.



Lemma branch_of_line_markers_witness :
  branch_of_line "  feature/x" = "feature/x"
  /\ branch_of_line "* feature/x" = "feature/x"
  /\ branch_of_line "+ feature/x" = "+ feature/x".
Proof. exact (branch_of_line_markers "feature/x" eq_refl). Defined.

Lemma ship_all_asks_first_witness :
  (fst Scenario.ship_run = Ok []
   /\ Forall (fun e => quiet e = true) (snd Scenario.ship_run))
  \/ exists pre n post,
       snd Scenario.ship_run
       = (pre ++ EConfirm (ship_question n) (Some true) :: post)%list
       /\ Forall (fun e => quiet e = true) pre.
Proof.
  apply (ship_all_asks_first Scenario.ship_world Fixture.repo_root 1 []).
  vm_compute. reflexivity.
Defined.

Lemma ship_all_ships_merged_witness :
  is_trunk "feature/x" = false
  /\ exists cp, In (ERun (merge_argv "feature/x") (Some cp)) (snd Scenario.ship_run)
                /\ (returncode cp = 0%Z \/ conflict_detected cp = true).
Proof.
  apply (ship_all_ships_merged Scenario.ship_world Fixture.repo_root 1 []
           ["feature/x"] (snd Scenario.ship_run)).
  - vm_compute. reflexivity.
  - left. reflexivity.
Defined.

Lemma worktree_tree_is_built_witness :
  exists nodes,
    create_worktree_tree Fixture.by_branch_world Fixture.repo_root 2 []
    = (Ok (Node tree_title nodes), snd Fixture.listing_run)
    /\ map tree_label nodes
       = map node_text (filter (is_root_wt Fixture.repo_root) Fixture.listed).
Proof.
  apply (worktree_tree_is_built Fixture.by_branch_world Fixture.repo_root 2 []
           Fixture.listed (snd Fixture.listing_run)).
  - vm_compute. reflexivity.
  - apply Forall_forall. intros wt [<-|[<-|[]]]; vm_compute; discriminate.
  - vm_compute. lia.
Defined.

Lemma worktree_tree_standard_layout_witness :
  create_worktree_tree Fixture.by_branch_world Fixture.repo_root 1 []
  = (Ok (Node tree_title [Node "main [cyan][current][/cyan]" []]),
     snd Fixture.listing_run).
Proof.
  apply (worktree_tree_standard_layout Fixture.by_branch_world Fixture.repo_root 0 []
           Fixture.listed (snd Fixture.listing_run)).
  - vm_compute. reflexivity.
  - apply Forall_forall. intros wt [<-|[<-|[]]]; [left|right]; reflexivity.
Defined.

Lemma handle_input_quits_on_q_witness :
  fst Scenario.quit_run = Ok false
  <-> snd Scenario.quit_run = [EPrompt command_question (Some "q")].
Proof.
  apply (handle_input_quits_on_q Scenario.quit_world Fixture.repo_root 1 []).
  vm_compute. reflexivity.
Defined.


Lemma wt_merge_branch_status_witness :
  exists cp,
    In (ERun (merge_argv "feature/x") (Some cp)) (snd Scenario.merge_command_run)
    /\ (returncode cp = 0%Z \/ conflict_detected cp = true).
Proof.
  destruct (wt_merge_branch_status Fixture.by_branch_world 1
              (mkMergeArgs "feature/x" false false false) [] 0%Z
              (snd Scenario.merge_command_run)) as (_ & Hmerged).
  - vm_compute. reflexivity.
  - apply Hmerged; reflexivity.
Defined.

Lemma strip_markup_tagged_witness :
  Fallback.strip_markup "[red]Merge failed: fatal[/red]" = "Merge failed: fatal".
Proof.
  exact (strip_markup_tagged "red" "Merge failed: fatal" eq_refl eq_refl eq_refl).
Defined.

Lemma confirm_answer_first_letter_witness :
  Fallback.confirm_answer "  " false = false
  /\ Fallback.confirm_answer "  Yes" false = true.
Proof. exact (confirm_answer_first_letter "  " "es" "Y" false eq_refl eq_refl). Defined.

Lemma mcp_status_table_rows_witness :
  map fst Scenario.busy_table = map snd MCP.servers
  /\ Forall (fun row =>
               In (snd row)
                  ["[yellow]not configured[/yellow]"; "[green]running[/green]";
                   "[red]stopped[/red]"; "[yellow]not started[/yellow]"])
            Scenario.busy_table.
Proof.
  apply (mcp_status_table_rows Scenario.busy_host Scenario.busy_table).
  vm_compute. reflexivity.
Defined.

Lemma merge_outcome_guards_what_follows_witness :
  is_removal_or_push (snd (fst Scenario.removal_step)) = true
  /\ exists m,
       In (ERun (merge_argv "feature/x") (Some m)) (fst (fst Scenario.removal_step))
       /\ returncode m = 0%Z.
Proof.
  split; [vm_compute; reflexivity|].
  apply (merge_outcome_guards_what_follows Fixture.by_branch_world Fixture.repo_root
           1 "feature/x" true false true [] (fst Fixture.by_branch_run)
           (snd Fixture.by_branch_run)
           (fst (fst Scenario.removal_step)) (snd (fst Scenario.removal_step))
           (snd Scenario.removal_step)).
  - vm_compute. reflexivity.
  - vm_compute. reflexivity.
  - vm_compute. reflexivity.
Defined.

Lemma manual_path_completion_check_witness :
  no_unmerged_paths Scenario.both_added = false
  /\ fst Scenario.both_added_run = Ok true
  /\ conflict_loop Scenario.both_added_world 1 "feature/x" "main"
                   "backup/feature/x-20240101-120000" []
     = if PyStr.contains "UU" (stdout Scenario.both_added)
       then conflict_loop Scenario.both_added_world 0 "feature/x" "main"
              "backup/feature/x-20240101-120000"
              ([] ++ manual_path Scenario.both_added_world "feature/x" []
                  ++ [ERun status_argv (Some Scenario.both_added);
                      EPrint still_conflicts_msg])%list
       else (Ok true,
             ([] ++ manual_path Scenario.both_added_world "feature/x" []
                 ++ [ERun status_argv (Some Scenario.both_added);
                     EPrint completed_msg])%list).
Proof.
  split; [vm_compute; reflexivity|]. split; [vm_compute; reflexivity|].
  apply (manual_path_completion_check Scenario.both_added_world 0 "feature/x"
           "main" "backup/feature/x-20240101-120000" [] Scenario.both_added);
    vm_compute; reflexivity.
Defined.

Lemma rich_preview_read_only_witness :
  fst Scenario.rich_preview_run
  = Raise (MarkupError
             "closing tag '[/old]' at position 38 doesn't match any open tag")
  /\ exists evs,
       snd Scenario.rich_preview_run = ([] ++ evs)%list
       /\ Forall (fun e => quiet e = true) evs
       /\ (forall ref parent answer,
             ~ In (ERun (backup_argv ref parent) answer) evs
             /\ ~ In (ERun (checkout_argv parent) answer) evs
             /\ ~ In (ERun (merge_argv ref) answer) evs).
Proof.
  split; [vm_compute; reflexivity|].
  apply (rich_preview_read_only Scenario.tagged_log_world Fixture.repo_root
           Scenario.unmatched_old 1 "feature/x" true true []
           (fst Scenario.rich_preview_run)).
  vm_compute. reflexivity.
Defined.
